(** * AI_edit_paper: the sentence segmentation and correction pipeline

    A shallow embedding of [src/preprocessing.py], [src/correct.py] and
    [src/main.py], and the properties of their retry loops.

    The language model is a black box: every [chat] call is answered by an
    oracle that may depend on the number of calls made before and on the
    arguments of the call.  Python exceptions are explicit outcomes, and the
    calls made so far are recorded in a trace that the program threads
    through.  A [while] loop is run with fuel; that a loop ends is proved by
    bounding the fuel it needs, and that it does not by showing it cut off
    at every fuel.

    Contents: Python strings, JSON values and outcomes; the three modules
    of the program; what is read from a trace and what the loops establish;
    then the proofs, loop by loop: the correction loop of [process_sentence],
    the two loops of [grammar_correction_main], the entries they produce,
    the segmentation loop, extraction, and the document drivers. *)

From Stdlib Require Import ZArith NArith List String Ascii Bool Lia QArith Qabs.
Import ListNotations.
Local Open Scope Z_scope.

(** ** Python strings *)

(** A [str] is a sequence of Unicode code points. *)
Definition str := list N.

Definition str_of (s : string) : str :=
  map N_of_ascii (list_ascii_of_string s).

Definition len {A : Type} (s : list A) : Z := Z.of_nat (List.length s).

Definition str_eqb (a b : str) : bool :=
  if list_eq_dec N.eq_dec a b then true else false.

(** [str.isspace] on one code point, which is what [str.strip()] removes. *)
Definition isspace (c : N) : bool :=
  ((9 <=? c) && (c <=? 13) || (28 <=? c) && (c <=? 32)
   || (c =? 133) || (c =? 160) || (c =? 5760)
   || (8192 <=? c) && (c <=? 8202)
   || (c =? 8232) || (c =? 8233) || (c =? 8239) || (c =? 8287)
   || (c =? 12288))%N.

Fixpoint lstrip (s : str) : str :=
  match s with
  | [] => []
  | c :: s' => if isspace c then lstrip s' else s
  end.

Definition rstrip (s : str) : str := rev (lstrip (rev s)).

Definition strip (s : str) : str := rstrip (lstrip s).

(** A code point that UTF-8 has no encoding for: a surrogate, which a
    [str] can hold on its own (JSON's ["\ud800"] decodes to one). *)
Definition is_surrogate (c : N) : bool :=
  ((55296 <=? c) && (c <=? 57343))%N.

(** [s.encode('utf-8')] succeeds. *)
Definition encodable (s : str) : bool := negb (existsb is_surrogate s).

(** [s.startswith(sub)] *)
Fixpoint starts_with (sub s : str) : bool :=
  match sub, s with
  | [], _ => true
  | _ :: _, [] => false
  | a :: sub', b :: s' => (a =? b)%N && starts_with sub' s'
  end.

(** [find_from sub s i]: the lowest index of an occurrence of [sub] in [s],
    counted from [i] at the head of [s]; [-1] when there is none. *)
Fixpoint find_from (sub s : str) (i : Z) : Z :=
  match s with
  | [] => match sub with [] => i | _ :: _ => -1 end
  | _ :: s' => if starts_with sub s then i else find_from sub s' (i + 1)
  end.

(** [s.find(sub)] *)
Definition find (s sub : str) : Z := find_from sub s 0.

(** [s[:n]] and [s[n:]]; a negative bound counts from the end. *)
Definition slice_to {A : Type} (s : list A) (n : Z) : list A :=
  if n <? 0 then firstn (Z.to_nat (len s + n)) s else firstn (Z.to_nat n) s.

Definition slice_from {A : Type} (s : list A) (n : Z) : list A :=
  if n <? 0 then skipn (Z.to_nat (len s + n)) s else skipn (Z.to_nat n) s.

(** ** Decoded JSON values *)

(** What [json.loads] returns.  A number is kept as the rational it
    denotes, whether Python holds it as an [int] or as a [float];
    [json.loads] also accepts [Infinity], [-Infinity] and [NaN].  [JObj]
    lists the items of a [dict], each key once. *)
Local Unset Elimination Schemes.
Inductive json : Type :=
| JNull
| JBool (b : bool)
| JNum (q : Q)
| JInf (negative : bool)
| JNaN
| JStr (s : str)
| JArr (l : list json)
| JObj (kv : list (str * json)).
Local Set Elimination Schemes.

(** Truth value of an object in a condition. *)
Definition truthy (j : json) : bool :=
  match j with
  | JNull => false
  | JBool b => b
  | JNum q => negb (Qeq_bool q (0 # 1))
  | JInf _ | JNaN => true
  | JStr s => match s with [] => false | _ => true end
  | JArr l => match l with [] => false | _ => true end
  | JObj kv => match kv with [] => false | _ => true end
  end.

Fixpoint lookup (k : str) (kv : list (str * json)) : option json :=
  match kv with
  | [] => None
  | (k', v) :: kv' => if str_eqb k k' then Some v else lookup k kv'
  end.

(** ** Outcomes *)

Inductive exn : Type :=
| KeyError | TypeError | ValueError | AttributeError | OverflowError
| UnboundLocalError | JSONDecodeError | RuntimeError | ChatError
| UnicodeEncodeError.

(** A computation returns, raises, or is cut off because the fuel given to
    its loops ran out. *)
Inductive outcome (A : Type) : Type :=
| Ok (a : A)
| Raise (e : exn)
| OutOfFuel.
Arguments Ok {A} a.
Arguments Raise {A} e.
Arguments OutOfFuel {A}.

Definition obind {A B : Type} (o : outcome A) (k : A -> outcome B) : outcome B :=
  match o with
  | Ok a => k a
  | Raise e => Raise e
  | OutOfFuel => OutOfFuel
  end.

(** [k in j] *)
Definition py_in (k : str) (j : json) : outcome bool :=
  match j with
  | JObj kv => Ok (match lookup k kv with Some _ => true | None => false end)
  | JStr s => Ok (negb (find s k =? -1))
  | JArr l => Ok (existsb (fun x => match x with JStr s => str_eqb s k | _ => false end) l)
  | _ => Raise TypeError
  end.

(** [j[k]] for a [str] key *)
Definition py_getitem (j : json) (k : str) : outcome json :=
  match j with
  | JObj kv => match lookup k kv with Some v => Ok v | None => Raise KeyError end
  | _ => Raise TypeError
  end.

(** [j.get(k, default)] *)
Definition py_get (j : json) (k : str) (default : json) : outcome json :=
  match j with
  | JObj kv => match lookup k kv with Some v => Ok v | None => Ok default end
  | _ => Raise AttributeError
  end.

(** [', '.join(j)] succeeds when [j] can be iterated and yields [str]
    items only; a [dict] yields its keys. *)
Definition py_join_check (j : json) : outcome unit :=
  match j with
  | JArr l =>
      if forallb (fun x => match x with JStr _ => true | _ => false end) l
      then Ok tt else Raise TypeError
  | JStr _ | JObj _ => Ok tt
  | _ => Raise TypeError
  end.

(** [f.write(f"...{j}...")] on a file opened with [encoding='utf-8'].  A
    [str] is written as it is, and a surrogate in it is a
    [UnicodeEncodeError]; any other value is written as its [repr], which
    escapes the surrogates of the strings in it. *)
Definition py_write (j : json) : outcome unit :=
  match j with
  | JStr s => if encodable s then Ok tt else Raise UnicodeEncodeError
  | _ => Ok tt
  end.

(** [f.write(f"...{', '.join(j)}...")] on such a file: the items are
    joined, then written as they are. *)
Definition py_write_joined (j : json) : outcome unit :=
  obind (py_join_check j) (fun _ =>
  match j with
  | JArr l =>
      if forallb (fun x => match x with
                           | JStr s => encodable s
                           | _ => true
                           end) l
      then Ok tt else Raise UnicodeEncodeError
  | JStr s => if encodable s then Ok tt else Raise UnicodeEncodeError
  | JObj kv =>
      if forallb (fun item => encodable (fst item)) kv
      then Ok tt else Raise UnicodeEncodeError
  | _ => Ok tt
  end).

(** [a != b] where [a] is a [str]: only an equal [str] is equal to it. *)
Definition str_ne (a : str) (b : json) : bool :=
  match b with
  | JStr s => negb (str_eqb a s)
  | _ => true
  end.

(** ** Floats *)

(** [Fin q] is the float nearest to [q].  The only float these programs
    compare with is 0.5, and rounding takes no number across it. *)

Inductive pyfloat : Type :=
| Fin (q : Q)
| PInf
| NInf
| NaN.

(** [a <= b] on floats: every comparison with a NaN is false. *)
Definition float_le (a b : pyfloat) : bool :=
  match a, b with
  | NaN, _ | _, NaN => false
  | NInf, _ => true
  | _, PInf => true
  | Fin x, Fin y => Qle_bool x y
  | PInf, _ => false
  | Fin _, NInf => false
  end.

Definition half : pyfloat := Fin (1 # 2).

(** An [int] that rounds to [2^1024] or beyond has no [float]. *)
Definition float_overflows (q : Q) : bool :=
  Qle_bool (inject_Z (2 ^ 1024 - 2 ^ 970)) (Qabs q).

(** ** The language model and the trace of its calls *)

(** What [json.loads(response['message']['content'])] gives after a [chat]
    call made with a response schema. *)
Inductive reply : Type :=
| Decoded (j : json)      (* the content is a JSON document, decoded to [j] *)
| NotJson                 (* the content is not a JSON document *)
| NoContent               (* the response has no content to read *)
| ChatFailed.             (* [chat] itself raised *)

(** The four uses of [chat].  The first argument of each oracle is the number
    of calls made before this one. *)
Record llm : Type := {
  extractor : nat -> str -> option str;    (* chunk; [None]: no content to use *)
  verifier : nat -> str -> reply;          (* sentence *)
  proposer : nat -> str -> reply;          (* sentence *)
  validator : nat -> str -> json -> reply  (* original, corrected *)
}.

Inductive event : Type :=
| EvExtract (text : str) (max_chunk : Z) (r : option str)
| EvVerify (sentence : str) (r : reply)
| EvPropose (sentence : str) (r : reply)
| EvQA (original : str) (corrected : json) (r : reply).

(** Calls in the order they were made. *)
Definition trace := list event.

(** A computation reads the trace so far and returns its outcome with the
    extended trace. *)
Definition M (A : Type) : Type := trace -> outcome A * trace.

Definition ret {A : Type} (a : A) : M A := fun t => (Ok a, t).

Definition raise {A : Type} (e : exn) : M A := fun t => (Raise e, t).

Definition lift {A : Type} (o : outcome A) : M A := fun t => (o, t).

Definition bind {A B : Type} (c : M A) (k : A -> M B) : M B :=
  fun t =>
    match c t with
    | (Ok a, t') => k a t'
    | (Raise e, t') => (Raise e, t')
    | (OutOfFuel, t') => (OutOfFuel, t')
    end.

Declare Scope py_scope.
Delimit Scope py_scope with py.
Notation "x <- c ;; k" := (bind c (fun x => k))
  (at level 61, c at next level, right associativity) : py_scope.
Notation "' p <- c ;; k" := (bind c (fun x => match x with p => k end))
  (at level 61, p pattern, c at next level, right associativity) : py_scope.
Local Open Scope py_scope.

(** *** Loops *)

(** How one pass through a loop body ends: at its last statement or at a
    [continue], or at a [break]. *)
Inductive ctl (S : Type) : Type :=
| Continue (s : S)
| Break (s : S).
Arguments Continue {S} s.
Arguments Break {S} s.

(** [while cond: body], cut off after [fuel] evaluations of the condition. *)
Fixpoint while_ {S : Type} (fuel : nat) (cond : S -> outcome bool)
    (body : S -> M (ctl S)) (s : S) : M S :=
  match fuel with
  | O => fun t => (OutOfFuel, t)
  | Datatypes.S fuel' =>
      b <- lift (cond s) ;;
      if b then
        c <- body s ;;
        match c with
        | Continue s' => while_ fuel' cond body s'
        | Break s' => ret s'
        end
      else ret s
  end.

(** One [chat] call: the oracle is asked at the current call count and the
    call is appended to the trace. *)
Definition ask {R : Type} (oracle : nat -> R) (ev : R -> event) : M R :=
  fun t => let r := oracle (List.length t) in (Ok r, t ++ [ev r]).

(** Reading a local variable that may not have been assigned yet. *)
Definition read {A : Type} (x : option A) : outcome A :=
  match x with
  | Some a => Ok a
  | None => Raise UnboundLocalError
  end.

(** *** Keys and values of the structured replies *)

Definition k_is_valid : str := str_of "is_valid".
Definition k_maintains_meaning : str := str_of "maintains_meaning".
Definition k_technical_accuracy : str := str_of "technical_accuracy".
Definition k_concerns : str := str_of "concerns".
Definition k_confidence : str := str_of "confidence".
Definition k_corrected_sentence : str := str_of "corrected_sentence".
Definition k_explanation : str := str_of "explanation".

Definition failed_concerns : json :=
  JArr [JStr (str_of "Failed to find valid correction")].

(** [float(j)]; how Python reads a [str] as a float is a parameter. *)
Definition py_float (float_of_str : str -> option pyfloat) (j : json)
    : outcome pyfloat :=
  match j with
  | JBool b => Ok (Fin (if b then 1 # 1 else 0 # 1))
  | JNum q => if float_overflows q then Raise OverflowError else Ok (Fin q)
  | JInf negative => Ok (if negative then NInf else PInf)
  | JNaN => Ok NaN
  | JStr s => match float_of_str s with
              | Some f => Ok f
              | None => Raise ValueError
              end
  | JNull | JArr _ | JObj _ => Raise TypeError
  end.

(** ['is_valid' in q and 'maintains_meaning' in q and 'technical_accuracy' in q] *)
Definition has_verdict_keys (q : json) : outcome bool :=
  obind (py_in k_is_valid q) (fun a =>
  if a then
    obind (py_in k_maintains_meaning q) (fun b =>
    if b then py_in k_technical_accuracy q else Ok false)
  else Ok false).

(** [q["is_valid"] and q["maintains_meaning"] and q["technical_accuracy"]],
    as a condition. *)
Definition verdict_holds (q : json) : outcome bool :=
  obind (py_getitem q k_is_valid) (fun a =>
  if truthy a then
    obind (py_getitem q k_maintains_meaning) (fun b =>
    if truthy b then
      obind (py_getitem q k_technical_accuracy) (fun c => Ok (truthy c))
    else Ok false)
  else Ok false).

(** ** preprocessing.py *)

Module Preprocessing.
Section WithModel.
Variable model : llm.

(** Lines 42-55 of [extract_sentence_from_queue]: the sentence and the
    index where it ends in the chunk, from the content of the response. *)
Definition locate (chunk content : str) : str * Z :=
  let sentence := strip content in
  let idx := find chunk sentence in
  if idx =? -1 then (sentence, len chunk)
  else (sentence, idx + len sentence).

(** A failing [chat] and a response without content both end in the
    [RuntimeError] of the outer handler. *)
Definition extract_sentence_from_queue (text : str) (max_chunk : Z)
    : M (str * Z) :=
  let chunk := slice_to text max_chunk in
  r <- ask (fun n => extractor model n chunk) (EvExtract text max_chunk) ;;
  match r with
  | Some content => ret (locate chunk content)
  | None => raise RuntimeError
  end.

(** Only the reading and the decoding of the content are inside the
    [try]: a failing [chat] propagates. *)
Definition double_check_preprocessing (sentence : str) : M json :=
  r <- ask (fun n => verifier model n sentence) (EvVerify sentence) ;;
  match r with
  | Decoded j => ret j
  | NotJson | NoContent => ret (JObj [(k_is_valid, JBool false)])
  | ChatFailed => raise ChatError
  end.

Definition calculate_sentence_length (sentence : str) : Z := len sentence.

(** The local variables of the segmentation loop. *)
Record seg_vars : Type := {
  initial_sentence_length_upper_bound : Z;
  attempt : Z;
  verification : json;
  sentence : option str;
  end_index : option Z
}.

Definition max_attempts : Z := 5.

Definition seg_init : seg_vars :=
  {| initial_sentence_length_upper_bound := 500;
     attempt := 0;
     verification := JObj [(k_is_valid, JBool false)];
     sentence := None;
     end_index := None |}.

(** [not verification["is_valid"] and attempt < max_attempts] *)
Definition seg_cond (v : seg_vars) : outcome bool :=
  obind (py_getitem (verification v) k_is_valid) (fun b =>
  Ok (negb (truthy b) && (attempt v <? max_attempts))).

(** One pass.  [preprocessing_main] also tests [verification["is_valid"]]
    at the end of the pass, to log a warning; the condition of the loop
    tests it next, with the same outcome. *)
Definition seg_body (document : str) (v : seg_vars) : M (ctl seg_vars) :=
  '(s, e) <- extract_sentence_from_queue document
               (initial_sentence_length_upper_bound v) ;;
  ver <- double_check_preprocessing s ;;
  ret (Continue
         {| initial_sentence_length_upper_bound :=
              initial_sentence_length_upper_bound v + 200;
            attempt := attempt v + 1;
            verification := ver;
            sentence := Some s;
            end_index := Some e |}).

(** The segmentation loop, lines 128-151 of [preprocessing_main]; lines
    15-31 of [process_sentence] in [main.py] are the same statements.  It
    returns the sentence, its end index and the last verification. *)
Definition segmentation_loop (fuel : nat) (document : str)
    : M (str * Z * json) :=
  v <- while_ fuel seg_cond (seg_body document) seg_init ;;
  _ <- lift (py_getitem (verification v) k_is_valid) ;;
  s <- lift (read (sentence v)) ;;
  e <- lift (read (end_index v)) ;;
  ret (s, e, verification v).

(** One entry of the list that [preprocessing_main] returns. *)
Record sentence_info : Type := {
  info_sentence : str;
  info_length : Z
}.

(** The variables of the document loop of [preprocessing_main]. *)
Record pre_vars : Type := {
  pre_document : str;
  pre_results : list sentence_info
}.

Definition pre_cond (v : pre_vars) : outcome bool :=
  Ok (match strip (pre_document v) with [] => false | _ => true end).

Definition pre_body (fuel : nat) (v : pre_vars) : M (ctl pre_vars) :=
  '(s, e, _) <- segmentation_loop fuel (pre_document v) ;;
  let lengths := calculate_sentence_length s in
  let result_entry := {| info_sentence := s; info_length := lengths |} in
  let v' := {| pre_document := slice_from (pre_document v) e;
               pre_results := pre_results v ++ [result_entry] |} in
  if len (strip (pre_document v')) <? 3 then ret (Break v')
  else ret (Continue v').

(** [preprocessing_main], from the content of the file it reads. *)
Definition preprocessing_main (fuel : nat) (document : str)
    : M (list sentence_info) :=
  v <- while_ fuel pre_cond (pre_body fuel)
         {| pre_document := document; pre_results := [] |} ;;
  ret (pre_results v).

End WithModel.
End Preprocessing.

(** ** correct.py *)

Module Correct.
Section WithModel.
Variable model : llm.
Variable float_of_str : str -> option pyfloat.

(** Nothing is caught here: a failing [chat], a missing content and a
    content that does not decode all propagate. *)
Definition grammar_correct_proposal (sentence : str) : M json :=
  r <- ask (fun n => proposer model n sentence) (EvPropose sentence) ;;
  match r with
  | Decoded j => ret j
  | NotJson => raise JSONDecodeError
  | NoContent => raise KeyError
  | ChatFailed => raise ChatError
  end.

Definition quality_assurance_check (original_sentence : str)
    (corrected_sentence : json) : M json :=
  r <- ask (fun n => validator model n original_sentence corrected_sentence)
           (EvQA original_sentence corrected_sentence) ;;
  match r with
  | Decoded j => ret j
  | NotJson => raise JSONDecodeError
  | NoContent => raise KeyError
  | ChatFailed => raise ChatError
  end.

(** The local variables of [grammar_correction_main] that its loops assign.
    [correction] and [qa_result] have no value before their first
    assignment and keep their value from one sentence to the next;
    [num_attempts] and [qa_yielded_result] are assigned before they are
    read. *)
Record vars : Type := {
  QA_passed : bool;
  attempt : Z;
  correction : option json;
  qa_result : option json;
  num_attempts : Z;
  qa_yielded_result : bool
}.

Definition set_QA_passed (b : bool) (v : vars) : vars :=
  {| QA_passed := b; attempt := attempt v; correction := correction v;
     qa_result := qa_result v; num_attempts := num_attempts v;
     qa_yielded_result := qa_yielded_result v |}.

Definition set_attempt (n : Z) (v : vars) : vars :=
  {| QA_passed := QA_passed v; attempt := n; correction := correction v;
     qa_result := qa_result v; num_attempts := num_attempts v;
     qa_yielded_result := qa_yielded_result v |}.

Definition set_correction (c : json) (v : vars) : vars :=
  {| QA_passed := QA_passed v; attempt := attempt v; correction := Some c;
     qa_result := qa_result v; num_attempts := num_attempts v;
     qa_yielded_result := qa_yielded_result v |}.

Definition set_qa_result (q : json) (v : vars) : vars :=
  {| QA_passed := QA_passed v; attempt := attempt v; correction := correction v;
     qa_result := Some q; num_attempts := num_attempts v;
     qa_yielded_result := qa_yielded_result v |}.

Definition set_num_attempts (n : Z) (v : vars) : vars :=
  {| QA_passed := QA_passed v; attempt := attempt v; correction := correction v;
     qa_result := qa_result v; num_attempts := n;
     qa_yielded_result := qa_yielded_result v |}.

Definition set_qa_yielded_result (b : bool) (v : vars) : vars :=
  {| QA_passed := QA_passed v; attempt := attempt v; correction := correction v;
     qa_result := qa_result v; num_attempts := num_attempts v;
     qa_yielded_result := b |}.

Definition max_attempts : Z := 5.
Definition max_qa_attempts : Z := 5.

(** [num_attempts < max_qa_attempts] *)
Definition qa_cond (v : vars) : outcome bool :=
  Ok (num_attempts v <? max_qa_attempts).

(** Lines 120-135: one pass of the inner loop.  No statement of the loop
    assigns [num_attempts]. *)
Definition qa_body (original_sentence : str) (v : vars) : M (ctl vars) :=
  c <- lift (read (correction v)) ;;
  cs <- lift (py_getitem c k_corrected_sentence) ;;
  q <- quality_assurance_check original_sentence cs ;;
  let v := set_qa_result q v in
  present <- lift (has_verdict_keys q) ;;
  if present then
    ok <- lift (verdict_holds q) ;;
    if ok then ret (Break (set_QA_passed true v))
    else
      let v := set_qa_yielded_result true (set_attempt (attempt v + 1) v) in
      if qa_yielded_result v then ret (Break v) else ret (Continue v)
  else
    if qa_yielded_result v then ret (Break v) else ret (Continue v).

(** [not QA_passed and attempt < max_attempts] *)
Definition outer_cond (v : vars) : outcome bool :=
  Ok (negb (QA_passed v) && (attempt v <? max_attempts)).

(** Lines 105-135: one pass of the outer loop. *)
Definition outer_body (fuel : nat) (original_sentence : str) (v : vars)
    : M (ctl vars) :=
  c <- grammar_correct_proposal original_sentence ;;
  let v := set_correction c v in
  conf <- lift (py_getitem c k_confidence) ;;
  f <- lift (py_float float_of_str conf) ;;
  if float_le f half then ret (Continue (set_attempt (attempt v + 1) v))
  else
    let v := set_qa_yielded_result false (set_num_attempts 0 v) in
    v <- while_ fuel qa_cond (qa_body original_sentence) v ;;
    ret (Continue v).

Record result_entry : Type := {
  original : str;
  final : json;
  has_changes : bool;
  qa_concerns : json
}.

(** Lines 137-144: the entry stored for the sentence. *)
Definition store_results (original_sentence : str) (v : vars)
    : outcome result_entry :=
  obind (read (correction v)) (fun c =>
  obind (py_getitem c k_corrected_sentence) (fun cs =>
  let changed := str_ne original_sentence cs in
  obind (if QA_passed v then py_getitem c k_corrected_sentence
         else Ok (JStr original_sentence)) (fun fin =>
  obind (if QA_passed v
         then obind (read (qa_result v)) (fun q => py_get q k_concerns (JArr []))
         else Ok failed_concerns) (fun concerns =>
  Ok {| original := original_sentence;
        final := fin;
        has_changes := changed && QA_passed v;
        qa_concerns := concerns |})))).

(** The body of the [for] loop, lines 99-145, for one sentence: the entry
    it appends and the variables it leaves. *)
Definition correct_sentence (fuel : nat) (original_sentence : str) (v : vars)
    : M (result_entry * vars) :=
  let v := set_attempt 0 (set_QA_passed false v) in
  v <- while_ fuel outer_cond (outer_body fuel original_sentence) v ;;
  entry <- lift (store_results original_sentence v) ;;
  ret (entry, v).

Fixpoint for_sentences (fuel : nat)
    (preprocessed_sentences : list Preprocessing.sentence_info)
    (v : vars) (corrected_results : list result_entry)
    : M (list result_entry) :=
  match preprocessed_sentences with
  | [] => ret corrected_results
  | sentence_info :: rest =>
      '(entry, v') <- correct_sentence fuel
                        (Preprocessing.info_sentence sentence_info) v ;;
      for_sentences fuel rest v' (corrected_results ++ [entry])
  end.

Definition unassigned : vars :=
  {| QA_passed := false; attempt := 0; correction := None; qa_result := None;
     num_attempts := 0; qa_yielded_result := false |}.

Definition grammar_correction_main (fuel : nat)
    (preprocessed_sentences : list Preprocessing.sentence_info)
    : M (list result_entry) :=
  for_sentences fuel preprocessed_sentences unassigned [].

End WithModel.
End Correct.

(** ** main.py *)

Module Main.
Section WithModel.
Variable model : llm.
Variable float_of_str : str -> option pyfloat.

(** The variables of the correction loop of [process_sentence]. *)
Record vars : Type := {
  QA_passed : bool;
  correction_attempt : Z;
  correction : option json;
  qa_result : option json
}.

Definition max_correction_attempts : Z := 8.

Definition corr_init : vars :=
  {| QA_passed := false; correction_attempt := 0;
     correction := None; qa_result := None |}.

(** [correction_attempt += 1] *)
Definition spend (v : vars) : vars :=
  {| QA_passed := QA_passed v;
     correction_attempt := correction_attempt v + 1;
     correction := correction v; qa_result := qa_result v |}.

Definition set_correction (c : json) (v : vars) : vars :=
  {| QA_passed := QA_passed v; correction_attempt := correction_attempt v;
     correction := Some c; qa_result := qa_result v |}.

Definition set_qa_result (q : json) (v : vars) : vars :=
  {| QA_passed := QA_passed v; correction_attempt := correction_attempt v;
     correction := correction v; qa_result := Some q |}.

Definition set_QA_passed (b : bool) (v : vars) : vars :=
  {| QA_passed := b; correction_attempt := correction_attempt v;
     correction := correction v; qa_result := qa_result v |}.

(** [not QA_passed and correction_attempt < max_correction_attempts] *)
Definition corr_cond (v : vars) : outcome bool :=
  Ok (negb (QA_passed v) && (correction_attempt v <? max_correction_attempts)).

(** Lines 42-70: one pass of the correction loop. *)
Definition corr_body (sentence : str) (v : vars) : M (ctl vars) :=
  c <- Correct.grammar_correct_proposal model sentence ;;
  let v := set_correction c v in
  has_confidence <- lift (py_in k_confidence c) ;;
  if negb has_confidence then ret (Continue (spend v))
  else
    conf <- lift (py_getitem c k_confidence) ;;
    f <- lift (py_float float_of_str conf) ;;
    if float_le f half then ret (Continue (spend v))
    else
      cs <- lift (py_getitem c k_corrected_sentence) ;;
      q <- Correct.quality_assurance_check model sentence cs ;;
      let v := set_qa_result q v in
      present <- lift (has_verdict_keys q) ;;
      if negb present then ret (Continue (spend v))
      else
        ok <- lift (verdict_holds q) ;;
        if ok then ret (Break (set_QA_passed true v))
        else ret (Continue (spend v)).

Record result : Type := {
  original : str;
  final : json;
  has_changes : bool;
  qa_concerns : json;
  length : Z;
  explanation : json
}.

(** Lines 72-81.  The conditional expressions read [correction] and
    [qa_result] only when [QA_passed] holds. *)
Definition prepare_result (sentence : str) (lengths : Z) (v : vars)
    : outcome result :=
  if QA_passed v then
    obind (read (correction v)) (fun c =>
    obind (py_getitem c k_corrected_sentence) (fun cs =>
    let changed := str_ne sentence cs in
    obind (py_getitem c k_corrected_sentence) (fun fin =>
    obind (read (qa_result v)) (fun q =>
    obind (py_get q k_concerns (JArr [])) (fun concerns =>
    obind (py_get c k_explanation (JStr [])) (fun expl =>
    Ok {| original := sentence; final := fin; has_changes := changed;
          qa_concerns := concerns; length := lengths;
          explanation := expl |}))))))
  else
    Ok {| original := sentence; final := JStr sentence; has_changes := false;
          qa_concerns := failed_concerns; length := lengths;
          explanation := JStr [] |}.

(** Lines 36-81: the correction of one sentence and the variables the loop
    ends with. *)
Definition correct_sentence (fuel : nat) (sentence : str) (lengths : Z)
    : M (result * vars) :=
  v <- while_ fuel corr_cond (corr_body sentence) corr_init ;;
  r <- lift (prepare_result sentence lengths v) ;;
  ret (r, v).

Definition process_sentence (fuel : nat) (document : str)
    : M (result * str * Z) :=
  '(sentence, end_index, _) <- Preprocessing.segmentation_loop model fuel document ;;
  let lengths := Preprocessing.calculate_sentence_length sentence in
  '(r, _) <- correct_sentence fuel sentence lengths ;;
  ret (r, slice_from document end_index, end_index).

(** The variables of the loop of [main]; [progress_log] is what has been
    appended to the progress file. *)
Record main_vars : Type := {
  document : str;
  sentence_count : Z;
  chars_processed : Z;
  progress_log : list result
}.

Definition main_init (document : str) : main_vars :=
  {| document := document; sentence_count := 0; chars_processed := 0;
     progress_log := [] |}.

(** [document.strip()] as a condition *)
Definition main_cond (v : main_vars) : outcome bool :=
  Ok (match strip (document v) with [] => false | _ => true end).

(** Lines 128-143: what is appended to the progress file for an entry.
    The file is opened with [encoding='utf-8'].  Of these statements the
    ones that write a field of the entry can raise: the original, in both
    branches; the corrected sentence and the explanation, when there are
    changes; and the concerns, joined, when there are some. *)
Definition write_entry (r : result) : outcome unit :=
  if has_changes r then
    obind (py_write (JStr (original r))) (fun _ =>
    obind (py_write (final r)) (fun _ =>
    obind (if truthy (explanation r) then py_write (explanation r)
           else Ok tt) (fun _ =>
    if truthy (qa_concerns r) then py_write_joined (qa_concerns r)
    else Ok tt)))
  else
    obind (py_write (JStr (original r))) (fun _ =>
    if truthy (qa_concerns r) then py_write_joined (qa_concerns r)
    else Ok tt).

(** One pass, lines 115-154. *)
Definition main_body (fuel : nat) (v : main_vars) : M (ctl main_vars) :=
  '(r, rest, chars_consumed) <- process_sentence fuel (document v) ;;
  _ <- lift (write_entry r) ;;
  ret (Continue
         {| document := rest;
            sentence_count := sentence_count v + 1;
            chars_processed := chars_processed v + chars_consumed;
            progress_log := progress_log v ++ [r] |}).

(** Lines 104-154 of [main], from the content of the input file. *)
Definition main_loop (fuel : nat) (document : str) : M main_vars :=
  while_ fuel main_cond (main_body fuel) (main_init document).

End WithModel.
End Main.

(** ** Reading a trace *)

Definition is_extract (e : event) : bool :=
  match e with EvExtract _ _ _ => true | _ => false end.

Definition is_propose (e : event) : bool :=
  match e with EvPropose _ _ => true | _ => false end.

Definition is_qa (e : event) : bool :=
  match e with EvQA _ _ _ => true | _ => false end.

(** Number of calls of one kind. *)
Definition count (p : event -> bool) (t : trace) : Z := len (filter p t).

(** The QA verdicts that were decoded, in order. *)
Fixpoint verdicts (t : trace) : list json :=
  match t with
  | [] => []
  | EvQA _ _ (Decoded q) :: t' => q :: verdicts t'
  | _ :: t' => verdicts t'
  end.

(** The field [k] of a verdict is there and holds. *)
Definition field_true (q : json) (k : str) : bool :=
  match py_getitem q k with
  | Ok v => truthy v
  | _ => false
  end.

(** A verdict is accepted when its three flags hold together. *)
Definition accepted (q : json) : bool :=
  field_true q k_is_valid && field_true q k_maintains_meaning
  && field_true q k_technical_accuracy.

(** The bounds the segmentation loop asks with: 500, 700, ... *)
Definition bound_of_attempt (k : nat) : Z := 500 + 200 * Z.of_nat k.

(** *** What the correction loops establish *)

(** The loop of [process_sentence] ended on an accepted verdict: the last
    call is the QA call on the corrected sentence of the current proposal,
    and its verdict is accepted. *)
Definition main_passed (sentence : str) (v : Main.vars) (new : trace) : Prop :=
  exists c cs q pre,
    Main.correction v = Some c /\
    py_getitem c k_corrected_sentence = Ok cs /\
    Main.qa_result v = Some q /\
    accepted q = true /\
    new = pre ++ [EvQA sentence cs (Decoded q)].

(** At the head of the loop, [new] being the calls made since it started. *)
Definition main_inv (t0 : trace) (v : Main.vars) (t : trace) : Prop :=
  exists new,
    t = t0 ++ new /\
    Main.QA_passed v = false /\
    Main.correction_attempt v <= Main.max_correction_attempts /\
    count is_propose new = Main.correction_attempt v /\
    existsb accepted (verdicts new) = false.

Definition main_post (sentence : str) (t0 : trace)
    (o : outcome Main.vars) (t : trace) : Prop :=
  exists new,
    t = t0 ++ new /\
    count is_propose new <= Main.max_correction_attempts /\
    match o with
    | Ok v =>
        if Main.QA_passed v then main_passed sentence v new
        else count is_propose new = Main.max_correction_attempts /\
             existsb accepted (verdicts new) = false
    | _ => True
    end.

(** The same for the loops of [grammar_correction_main]. *)
Definition correct_passed (original_sentence : str) (v : Correct.vars)
    (new : trace) : Prop :=
  exists c cs q pre,
    Correct.correction v = Some c /\
    py_getitem c k_corrected_sentence = Ok cs /\
    Correct.qa_result v = Some q /\
    accepted q = true /\
    new = pre ++ [EvQA original_sentence cs (Decoded q)].

(** At the head of the outer loop.  The inner loop can leave [QA_passed]
    set, which the next test of the outer condition sees. *)
Definition correct_inv (original_sentence : str) (t0 : trace)
    (v : Correct.vars) (t : trace) : Prop :=
  exists new,
    t = t0 ++ new /\
    count is_propose new <= Correct.max_attempts /\
    if Correct.QA_passed v then correct_passed original_sentence v new
    else Correct.attempt v <= Correct.max_attempts /\
         count is_propose new = Correct.attempt v /\
         existsb accepted (verdicts new) = false.

Definition correct_post (original_sentence : str) (t0 : trace)
    (o : outcome Correct.vars) (t : trace) : Prop :=
  exists new,
    t = t0 ++ new /\
    count is_propose new <= Correct.max_attempts /\
    match o with
    | Ok v =>
        if Correct.QA_passed v then correct_passed original_sentence v new
        else count is_propose new = Correct.max_attempts /\
             existsb accepted (verdicts new) = false
    | _ => True
    end.

(** At the head of the inner loop, in the pass of the outer loop that
    started with [attempt = a] and obtained the proposal [c]. *)
Definition qa_inv (t0 : trace) (a : Z) (c : json)
    (v : Correct.vars) (t : trace) : Prop :=
  exists new,
    t = t0 ++ new /\
    Correct.QA_passed v = false /\
    Correct.num_attempts v = 0 /\
    Correct.qa_yielded_result v = false /\
    Correct.attempt v = a /\
    Correct.correction v = Some c /\
    count is_propose new = a + 1 /\
    existsb accepted (verdicts new) = false.

Definition qa_post (original_sentence : str) (t0 : trace)
    (o : outcome Correct.vars) (t : trace) : Prop :=
  match o with
  | Ok v => correct_inv original_sentence t0 v t
  | _ => exists new,
           t = t0 ++ new /\ count is_propose new <= Correct.max_attempts
  end.

(** *** The two correction loops, seen alike *)

(** [process_sentence] of [main.py] and [grammar_correction_main] of
    [correct.py] each have a correction loop.  What the statements below
    say of both is said of this common view of the entry they produce. *)
Inductive correction_loop : Type :=
| OfProcessSentence (lengths : Z)
| OfGrammarCorrectionMain (v0 : Correct.vars).

Record entry_view : Type := {
  view_original : str;
  view_final : json;
  view_has_changes : bool;
  view_qa_concerns : json;
  view_passed : bool           (* [QA_passed] when the loop ended *)
}.

Definition run_correction (model : llm) (float_of_str : str -> option pyfloat)
    (fuel : nat) (loop : correction_loop) (sentence : str) : M entry_view :=
  match loop with
  | OfProcessSentence lengths =>
      '(r, v) <- Main.correct_sentence model float_of_str fuel sentence lengths ;;
      ret {| view_original := Main.original r;
             view_final := Main.final r;
             view_has_changes := Main.has_changes r;
             view_qa_concerns := Main.qa_concerns r;
             view_passed := Main.QA_passed v |}
  | OfGrammarCorrectionMain v0 =>
      '(e, v) <- Correct.correct_sentence model float_of_str fuel sentence v0 ;;
      ret {| view_original := Correct.original e;
             view_final := Correct.final e;
             view_has_changes := Correct.has_changes e;
             view_qa_concerns := Correct.qa_concerns e;
             view_passed := Correct.QA_passed v |}
  end.

(** The number of proposals a loop may obtain for one sentence. *)
Definition proposal_budget (loop : correction_loop) : Z :=
  match loop with
  | OfProcessSentence _ => Main.max_correction_attempts
  | OfGrammarCorrectionMain _ => Correct.max_attempts
  end.

(** The calls made from trace [t] on, in a later trace [t']. *)
Definition since (t t' : trace) : trace := skipn (List.length t) t'.

(** What an entry says, given the calls [new] that its loop made. *)
Definition entry_spec (budget : Z) (sentence : str) (e : entry_view)
    (new : trace) : Prop :=
  count is_propose new <= budget /\
  view_original e = sentence /\
  if view_passed e then
    (exists pre q,
        new = pre ++ [EvQA sentence (view_final e) (Decoded q)] /\
        accepted q = true) /\
    view_has_changes e = str_ne sentence (view_final e)
  else
    count is_propose new = budget /\
    existsb accepted (verdicts new) = false /\
    view_final e = JStr sentence /\
    view_has_changes e = false /\
    view_qa_concerns e = failed_concerns.

(** *** Example replies *)

Definition the_cat : str := str_of "The cat sit on mat.".
Definition the_cat_corrected : str := str_of "The cat sits on the mat.".

Definition confident_proposal : json :=
  JObj [(k_corrected_sentence, JStr the_cat_corrected);
        (k_confidence, JNum (9 # 10));
        (k_explanation, JStr (str_of "Subject-verb agreement."))].

Definition hesitant_proposal : json :=
  JObj [(k_corrected_sentence, JStr the_cat_corrected);
        (k_confidence, JNum (3 # 10));
        (k_explanation, JStr (str_of "Not sure."))].

Definition proposal_without_confidence : json :=
  JObj [(k_corrected_sentence, JStr the_cat_corrected);
        (k_explanation, JStr (str_of "Subject-verb agreement."))].

Definition accepting_verdict : json :=
  JObj [(k_is_valid, JBool true); (k_maintains_meaning, JBool true);
        (k_technical_accuracy, JBool true); (k_concerns, JArr [])].

Definition rejecting_verdict : json :=
  JObj [(k_is_valid, JBool true); (k_maintains_meaning, JBool false);
        (k_technical_accuracy, JBool true);
        (k_concerns, JArr [JStr (str_of "Meaning changed.")])].

Definition valid_sentence : json := JObj [(k_is_valid, JBool true)].
Definition invalid_sentence : json := JObj [(k_is_valid, JBool false)].

(** No confidence of the examples is a [str]: the parser is not consulted. *)
Definition no_str_confidence : str -> option pyfloat := fun _ => None.

(** A model that answers every call the same way. *)
Definition constant_model (content : str) (v p q : json) : llm :=
  {| extractor := fun _ _ => Some content;
     verifier := fun _ _ => Decoded v;
     proposer := fun _ _ => Decoded p;
     validator := fun _ _ _ => Decoded q |}.

Definition agreeable_model : llm :=
  constant_model the_cat valid_sentence confident_proposal accepting_verdict.

Definition hesitant_model : llm :=
  constant_model the_cat valid_sentence hesitant_proposal accepting_verdict.

Definition critical_model : llm :=
  constant_model the_cat valid_sentence confident_proposal rejecting_verdict.

Definition unsure_model : llm :=
  constant_model the_cat valid_sentence proposal_without_confidence
    accepting_verdict.

(** The validator keeps leaving the required fields out. *)
Definition malformed_qa_model : llm :=
  constant_model the_cat valid_sentence confident_proposal (JObj []).

(** The verifier never accepts the sentence. *)
Definition doubtful_model : llm :=
  constant_model the_cat invalid_sentence confident_proposal accepting_verdict.

(** The extractor answers with words that are not in the text. *)
Definition drifting_model : llm :=
  constant_model (str_of "A cat sat on a mat.") valid_sentence
    confident_proposal accepting_verdict.

(** The extractor answers with nothing but white space. *)
Definition blank_model : llm :=
  constant_model (str_of "  ") valid_sentence confident_proposal
    accepting_verdict.

Definition unchanged_proposal : json :=
  JObj [(k_corrected_sentence, JStr the_cat);
        (k_confidence, JNum (9 # 10));
        (k_explanation, JStr (str_of "Nothing to correct."))].

(** The proposer returns the sentence as it is, and QA accepts it. *)
Definition echo_model : llm :=
  constant_model the_cat valid_sentence unchanged_proposal accepting_verdict.

(** *** What the segmentation loop establishes *)

(** The text and the bound of each extraction, in order. *)
Fixpoint extractions (t : trace) : list (str * Z) :=
  match t with
  | [] => []
  | EvExtract text max_chunk _ :: t' => (text, max_chunk) :: extractions t'
  | _ :: t' => extractions t'
  end.

(** The bounds of the first [n] attempts on [document]. *)
Definition attempts_on (document : str) (n : nat) : list (str * Z) :=
  map (fun k => (document, bound_of_attempt k)) (seq 0 n).

(** The calls [new] end with attempt number [m] (from 0), in which the
    extractor answered [content], which gave the sentence [s] ending at
    [e]. *)
Definition last_attempt (model : llm) (document : str) (m : nat)
    (s : str) (e : Z) (new : trace) : Prop :=
  exists pre content rv,
    new = pre ++ [EvExtract document (bound_of_attempt m) (Some content);
                  EvVerify s rv] /\
    (exists k, extractor model k (slice_to document (bound_of_attempt m))
               = Some content) /\
    (s, e) = Preprocessing.locate
               (slice_to document (bound_of_attempt m)) content.

Definition seg_inv (model : llm) (document : str) (t0 : trace)
    (v : Preprocessing.seg_vars) (t : trace) : Prop :=
  exists new n,
    t = t0 ++ new /\
    Preprocessing.attempt v = Z.of_nat n /\
    (n <= 5)%nat /\
    Preprocessing.initial_sentence_length_upper_bound v = bound_of_attempt n /\
    extractions new = attempts_on document n /\
    match n with
    | O => Preprocessing.verification v = JObj [(k_is_valid, JBool false)]
    | S m => exists s e,
               Preprocessing.sentence v = Some s /\
               Preprocessing.end_index v = Some e /\
               last_attempt model document m s e new
    end.

Definition seg_post (model : llm) (document : str) (t0 : trace)
    (o : outcome Preprocessing.seg_vars) (t : trace) : Prop :=
  exists new n,
    t = t0 ++ new /\
    (n <= 5)%nat /\
    extractions new = attempts_on document n /\
    match o with
    | Ok v =>
        exists m s e,
          n = S m /\
          Preprocessing.sentence v = Some s /\
          Preprocessing.end_index v = Some e /\
          last_attempt model document m s e new /\
          (field_true (Preprocessing.verification v) k_is_valid = false ->
           n = 5%nat)
    | _ => True
    end.

(** *** The document drivers *)

(** The extractor always answers with some text that is not white space
    only. *)
Definition responsive (model : llm) : Prop :=
  forall n chunk content,
    extractor model n chunk = Some content -> strip content <> [].

(** The cursor of the driver of [main]: [chars_processed] characters of
    [doc] are consumed and the rest is the current document. *)
Definition cursor_inv (doc : str) (v : Main.main_vars) : Prop :=
  0 <= Main.chars_processed v <= len doc /\
  Main.document v = slice_from doc (Main.chars_processed v) /\
  Main.sentence_count v = len (Main.progress_log v).

(** The document of [preprocessing_main] is what is left of [doc] after
    some prefix. *)
Definition suffix_inv (doc : str) (v : Preprocessing.pre_vars) : Prop :=
  exists n, 0 <= n <= len doc /\ Preprocessing.pre_document v = slice_from doc n.

Definition the_cat_line : str := str_of "The cat sit on mat. ".

(** *** Traces and the model *)

(** The call [e], made as call number [n], carries the answer of the
    model. *)
Definition answered (model : llm) (n : nat) (e : event) : Prop :=
  match e with
  | EvExtract text max_chunk r =>
      r = extractor model n (slice_to text max_chunk)
  | EvVerify s r => r = verifier model n s
  | EvPropose s r => r = proposer model n s
  | EvQA o c r => r = validator model n o c
  end.

(** So do the calls [new], made from call number [n] on. *)
Fixpoint answers_from (model : llm) (n : nat) (new : trace) : Prop :=
  match new with
  | [] => True
  | e :: rest => answered model n e /\ answers_from model (S n) rest
  end.

(** A computation only extends the trace, with calls that the model
    answered. *)
Definition honest {A : Type} (model : llm) (c : M A) : Prop :=
  forall t, exists new,
    snd (c t) = t ++ new /\ answers_from model (List.length t) new.

(** *** correct.py: assembling the paper *)

(** [sep.join(items)] on a list of [str]. *)
Fixpoint join_strs (sep : str) (items : list str) : str :=
  match items with
  | [] => []
  | [a] => a
  | a :: rest => a ++ sep ++ join_strs sep rest
  end.

(** The items as [str], when they all are. *)
Fixpoint all_strs (items : list json) : option (list str) :=
  match items with
  | [] => Some []
  | JStr s :: rest =>
      match all_strs rest with
      | Some l => Some (s :: l)
      | None => None
      end
  | _ :: _ => None
  end.

(** [sep.join(items)]: an item that is not a [str] is a [TypeError]. *)
Definition str_join (sep : str) (items : list json) : outcome str :=
  match all_strs items with
  | Some l => Ok (join_strs sep l)
  | None => Raise TypeError
  end.

(** [assemble_corrected_paper] of [correct.py], lines 151-164. *)
Definition assemble_corrected_paper
    (corrected_results : list Correct.result_entry) : outcome str :=
  str_join (str_of " ") (map Correct.final corrected_results).

(** No verdict of the validator is accepted. *)
Definition never_accepts (model : llm) : Prop :=
  forall n o c q, validator model n o c = Decoded q -> accepted q = false.

Definition two_sentences : list Preprocessing.sentence_info :=
  [{| Preprocessing.info_sentence := the_cat;
      Preprocessing.info_length := 19 |};
   {| Preprocessing.info_sentence := str_of "It purr.";
      Preprocessing.info_length := 8 |}].

(** *** models.py: the shapes asked of the model *)

Definition is_str (j : json) : bool :=
  match j with JStr _ => true | _ => false end.

Definition is_bool (j : json) : bool :=
  match j with JBool _ => true | _ => false end.

(** A number that [float()] accepts. *)
Definition is_float (j : json) : bool :=
  match j with
  | JNum q => negb (float_overflows q)
  | JInf _ | JNaN => true
  | _ => false
  end.

Definition is_list_of_str (j : json) : bool :=
  match j with JArr l => forallb is_str l | _ => false end.

(** The field [k] is there and its value has the shape [p]. *)
Definition has_field (kv : list (str * json)) (k : str) (p : json -> bool)
    : bool :=
  match lookup k kv with
  | Some v => p v
  | None => false
  end.

(** [class GrammarCorrection(BaseModel)] *)
Definition GrammarCorrection (j : json) : bool :=
  match j with
  | JObj kv =>
      has_field kv k_corrected_sentence is_str
      && has_field kv k_confidence is_float
      && has_field kv k_explanation is_str
  | _ => false
  end.

(** [class QualityAssurance(BaseModel)] *)
Definition QualityAssurance (j : json) : bool :=
  match j with
  | JObj kv =>
      has_field kv k_is_valid is_bool
      && has_field kv k_maintains_meaning is_bool
      && has_field kv k_technical_accuracy is_bool
      && has_field kv k_concerns is_list_of_str
  | _ => false
  end.

(** [class PreprocessingVerification(BaseModel)] *)
Definition PreprocessingVerification (j : json) : bool :=
  match j with
  | JObj kv => has_field kv k_is_valid is_bool
  | _ => false
  end.

(** Every call is answered, and every structured answer has the shape of
    its schema; the verifier may also answer with something that does not
    decode. *)
Definition conforming (model : llm) : Prop :=
  (forall n chunk, extractor model n chunk <> None) /\
  (forall n s,
      match verifier model n s with
      | Decoded j => PreprocessingVerification j = true
      | NotJson | NoContent => True
      | ChatFailed => False
      end) /\
  (forall n s, exists c,
      proposer model n s = Decoded c /\ GrammarCorrection c = true) /\
  (forall n o cs, exists q,
      validator model n o cs = Decoded q /\ QualityAssurance q = true).

(** The variables of the loop of [process_sentence] hold answers of the
    shape of their schema. *)
Definition main_wf (v : Main.vars) : Prop :=
  (forall c, Main.correction v = Some c -> GrammarCorrection c = true) /\
  (forall q, Main.qa_result v = Some q -> QualityAssurance q = true).

(** The same for [grammar_correction_main]. *)
Definition correct_wf (v : Correct.vars) : Prop :=
  (forall c, Correct.correction v = Some c -> GrammarCorrection c = true) /\
  (forall q, Correct.qa_result v = Some q -> QualityAssurance q = true).

(** *** The outer loop of [grammar_correction_main] under answers of the
    shape of their schema *)

(** At the head of the outer loop: there is one QA call at most for each
    proposal, and either a verdict was accepted or every proposal so far
    has spent one attempt. *)
Definition batch_inv (t0 : trace) (v : Correct.vars) (t : trace) : Prop :=
  exists new,
    t = t0 ++ new /\
    correct_wf v /\
    count is_qa new <= count is_propose new /\
    if Correct.QA_passed v then
      count is_propose new <= Correct.max_attempts /\
      exists c q, Correct.correction v = Some c /\ Correct.qa_result v = Some q
    else
      count is_propose new = Correct.attempt v /\
      Correct.attempt v <= Correct.max_attempts /\
      (0 < Correct.attempt v -> exists c, Correct.correction v = Some c).

(** The passes the outer loop has left at most. *)
Definition passes_left (v : Correct.vars) : nat :=
  if Correct.QA_passed v then 0%nat
  else Z.to_nat (Correct.max_attempts - Correct.attempt v).


(** *** The number of calls *)

(** A computation only extends the trace, by [n] calls at most, however
    it ends. *)
Definition calls_at_most {A : Type} (n : Z) (c : M A) : Prop :=
  forall t, exists new, snd (c t) = t ++ new /\ len new <= n.


(** ** utils.py *)

Module Utils.
Section WithBuiltins.
(** [str.lower], [int(s)] and [float(s)] of Python; the last two are [None]
    where Python raises [ValueError]. *)
Variable lower : str -> str.
Variable int_of_str : str -> option Z.
Variable float_of_str : str -> option pyfloat.

Definition json_of_float (f : pyfloat) : json :=
  match f with
  | Fin q => JNum q
  | PInf => JInf false
  | NInf => JInf true
  | NaN => JNaN
  end.

(** The [str] branch of [convert_json_values], lines 30-42. *)
Definition convert_str (obj : str) : json :=
  if str_eqb (lower obj) (str_of "true") then JBool true
  else if str_eqb (lower obj) (str_of "false") then JBool false
  else if existsb (N.eqb 46) obj then
    match float_of_str obj with
    | Some f => json_of_float f
    | None => JStr obj
    end
  else
    match int_of_str obj with
    | Some z => JNum (inject_Z z)
    | None => JStr obj
    end.

(** [convert_json_values], lines 18-43. *)
Fixpoint convert_json_values (obj : json) : json :=
  match obj with
  | JObj kv =>
      JObj (map (fun item => (fst item, convert_json_values (snd item))) kv)
  | JArr l => JArr (map convert_json_values l)
  | JStr s => convert_str s
  | _ => obj
  end.

End WithBuiltins.
End Utils.


(** ** minimal_setup.py *)

Module MinimalSetup.

(** [class GrammarCorrection(BaseModel)] of [minimal_setup.py]: what
    [structured_llm.invoke] returns. *)
Record GrammarCorrection : Type := {
  corrected_segment : str;
  confidence : pyfloat;
  explanation : str
}.

(** [a > b] on floats: every comparison with a NaN is false. *)
Definition float_gt (a b : pyfloat) : bool :=
  match a, b with
  | NaN, _ | _, NaN => false
  | PInf, PInf => false
  | PInf, _ => true
  | _, PInf => false
  | NInf, _ => false
  | Fin _, NInf => true
  | Fin x, Fin y => negb (Qle_bool x y)
  end.

(** [re.sub(r'\\', r'\\\\', s)], line 118: every backslash is doubled. *)
Fixpoint double_backslashes (s : str) : str :=
  match s with
  | [] => []
  | c :: s' =>
      if (c =? 92)%N then 92%N :: 92%N :: double_backslashes s'
      else c :: double_backslashes s'
  end.

(** [original.replace("\\\\", "\\")], line 142: from the left, every two
    backslashes in a row become one. *)
Fixpoint halve_backslashes (s : str) : str :=
  match s with
  | [] => []
  | c :: s' =>
      match s' with
      | c' :: s'' =>
          if ((c =? 92) && (c' =? 92))%N then 92%N :: halve_backslashes s''
          else c :: halve_backslashes s'
      | [] => [c]
      end
  end.

Section WithModel.
(** [structured_llm.invoke(prompt)], asked as call number [n] with the
    prompt made from [sent]; [None] when the call raises. *)
Variable invoke : nat -> str -> option GrammarCorrection.

(** The variables of the loop of [check_grammar], and the number of calls
    made so far. *)
Record vars : Type := {
  num_attempts : Z;
  highest_confidence : pyfloat;
  correction_with_high_confidence : option GrammarCorrection;
  calls : nat
}.

Definition max_attempts : Z := 5.

Definition init (n : nat) : vars :=
  {| num_attempts := 0;
     highest_confidence := Fin (0 # 1);
     correction_with_high_confidence := None;
     calls := n |}.

(** Lines 30-38.  The literal [0.6] is the double next below 6/10, and no
    double lies between the two. *)
Fixpoint attempts (fuel : nat) (sent : str) (v : vars) : outcome vars :=
  match fuel with
  | O => OutOfFuel
  | S fuel' =>
      if num_attempts v <? max_attempts then
        match invoke (calls v) sent with
        | None => Raise ChatError
        | Some correction =>
            let better :=
              float_gt (confidence correction) (highest_confidence v) in
            let v :=
              {| num_attempts := num_attempts v;
                 highest_confidence :=
                   if better then confidence correction
                   else highest_confidence v;
                 correction_with_high_confidence :=
                   if better then Some correction
                   else correction_with_high_confidence v;
                 calls := S (calls v) |} in
            if float_gt (highest_confidence v) (Fin (6 # 10)) then Ok v
            else attempts fuel' sent
                   {| num_attempts := num_attempts v + 1;
                      highest_confidence := highest_confidence v;
                      correction_with_high_confidence :=
                        correction_with_high_confidence v;
                      calls := calls v |}
        end
      else Ok v
  end.

(** Lines 21-40: what [check_grammar] yields for one sentence, asked from
    call number [n] on, and the number of calls made by then. *)
Definition check_sentence (fuel : nat) (sent : str) (n : nat)
    : outcome (str * str * nat) :=
  obind (attempts fuel sent (init n)) (fun v =>
  match correction_with_high_confidence v with
  | Some c => Ok (corrected_segment c, explanation c, calls v)
  | None => Raise AttributeError
  end).

End WithModel.
End MinimalSetup.


(** *** minimal_setup.py: the loop of [check_grammar] *)

(** The loop has asked the calls from [n] up to [calls v] for the
    sentence.  No answer is above [highest_confidence]; that is 0 while no
    correction is kept, and else the confidence of the correction kept,
    which is one of the answers and above 0. *)
Definition check_inv (invoke : nat -> str -> option MinimalSetup.GrammarCorrection)
    (sent : str) (n : nat) (v : MinimalSetup.vars) : Prop :=
  (forall j c, (n <= j < MinimalSetup.calls v)%nat ->
     invoke j sent = Some c ->
     MinimalSetup.float_gt (MinimalSetup.confidence c)
       (MinimalSetup.highest_confidence v) = false) /\
  match MinimalSetup.correction_with_high_confidence v with
  | None => MinimalSetup.highest_confidence v = Fin (0 # 1)
  | Some c =>
      MinimalSetup.highest_confidence v = MinimalSetup.confidence c /\
      MinimalSetup.float_gt (MinimalSetup.confidence c) (Fin (0 # 1)) = true /\
      exists j, (n <= j < MinimalSetup.calls v)%nat /\ invoke j sent = Some c
  end.

(** A model that is sure of its correction, and one that gives it no
    confidence. *)
Definition sure_invoke (_ : nat) (_ : str)
    : option MinimalSetup.GrammarCorrection :=
  Some {| MinimalSetup.corrected_segment := the_cat_corrected;
          MinimalSetup.confidence := Fin (9 # 10);
          MinimalSetup.explanation := str_of "Subject-verb agreement." |}.

Definition unsure_invoke (_ : nat) (_ : str)
    : option MinimalSetup.GrammarCorrection :=
  Some {| MinimalSetup.corrected_segment := the_cat_corrected;
          MinimalSetup.confidence := Fin (0 # 1);
          MinimalSetup.explanation := str_of "Not sure." |}.


(** *** minimal_setup.py: [extract_sentences] *)

Module Segments.

(** The variables of the loop of [extract_sentences], lines 57-62. *)
Record state : Type := {
  i : Z;
  current_segment : str;
  segments : list str;
  env_stack : list str;
  brace_count : Z
}.

Definition init : state :=
  {| i := 0; current_segment := []; segments := []; env_stack := [];
     brace_count := 0 |}.

(** [text[i]] for an index in range. *)
Definition char_at (text : str) (i : Z) : option N :=
  nth_error text (Z.to_nat i).

(** What [[^}]+] can match at the head of [s]. *)
Fixpoint take_name (s : str) : str :=
  match s with
  | [] => []
  | c :: s' => if (c =? 125)%N then [] else c :: take_name s'
  end.

(** [\kw{], as [text.startswith] is asked for it. *)
Definition opening (kw : str) : str := [92%N] ++ kw ++ [123%N].

(** [re.match(r'\\kw\{([^}]+)\}', s)] for [kw] one of [begin] and [end]:
    the group and [m.end()].  The name is everything up to the first
    closing brace, and there must be both. *)
Definition match_env (kw : str) (s : str) : option (str * Z) :=
  if starts_with (opening kw) s then
    let after := slice_from s (len (opening kw)) in
    let name := take_name after in
    match name with
    | [] => None
    | _ :: _ =>
        if len name <? len after
        then Some (name, len (opening kw) + len name + 1)
        else None
    end
  else None.

(** [ch in '.!?'] for one character. *)
Definition is_end_mark (ch : N) : bool :=
  ((ch =? 46) || (ch =? 33) || (ch =? 63))%N.

(** [text[i].isspace()] for an index in range. *)
Definition space_at (text : str) (i : Z) : bool :=
  match char_at text i with
  | Some c => isspace c
  | None => false
  end.

(** The number of passes of the loop of lines 104-105, asked at [i]: the
    white space that follows [text[i]]. *)
Definition spaces_after (text : str) (i : Z) : Z :=
  let rest := slice_from text (i + 1) in
  len rest - len (lstrip rest).

Definition nonempty (s : str) : bool :=
  match s with [] => false | _ :: _ => true end.

(** [env_stack and env_stack[-1] == env_name] *)
Definition top_is (env_stack : list str) (env_name : str) : bool :=
  match env_stack with
  | [] => false
  | _ :: _ => str_eqb (last env_stack []) env_name
  end.

(** Lines 65-106: one pass of the loop. *)
Definition step (text : str) (st : state) : state :=
  match char_at text (i st) with
  | None => st
  | Some ch =>
      let cur := current_segment st ++ [ch] in
      let rest := slice_from text (i st) in
      let '(i1, stack, braces) :=
        if starts_with (opening (str_of "begin")) rest then
          match match_env (str_of "begin") rest with
          | Some (name, m_end) =>
              (i st + (m_end - 1), env_stack st ++ [name], brace_count st)
          | None => (i st, env_stack st, brace_count st)
          end
        else if starts_with (opening (str_of "end")) rest then
          match match_env (str_of "end") rest with
          | Some (env_name, m_end) =>
              (i st + (m_end - 1),
               if top_is (env_stack st) env_name
               then removelast (env_stack st) else env_stack st,
               brace_count st)
          | None => (i st, env_stack st, brace_count st)
          end
        else if (ch =? 123)%N then
          (i st, env_stack st, brace_count st + 1)
        else if (ch =? 125)%N then
          (i st, env_stack st,
           if brace_count st >? 0 then brace_count st - 1
           else brace_count st)
        else (i st, env_stack st, brace_count st) in
      if is_end_mark ch && match stack with [] => true | _ :: _ => false end && (braces =? 0) then
        if (i1 + 1 >=? len text) || space_at text (i1 + 1) then
          let segment := strip cur in
          {| i := i1 + spaces_after text i1 + 1;
             current_segment := [];
             segments := if nonempty segment then segments st ++ [segment]
                         else segments st;
             env_stack := stack;
             brace_count := braces |}
        else
          {| i := i1 + 1; current_segment := cur; segments := segments st;
             env_stack := stack; brace_count := braces |}
      else
        {| i := i1 + 1; current_segment := cur; segments := segments st;
           env_stack := stack; brace_count := braces |}
  end.

(** [while i < length] *)
Fixpoint loop (fuel : nat) (text : str) (st : state) : option state :=
  match fuel with
  | O => None
  | S fuel' =>
      if i st <? len text then loop fuel' text (step text st) else Some st
  end.

(** [extract_sentences], lines 57-122, from the content of the file;
    [None] when the fuel runs out. *)
Definition extract_sentences (fuel : nat) (text : str) : option (list str) :=
  match loop fuel text init with
  | None => None
  | Some st =>
      let leftover := strip (current_segment st) in
      let segments :=
        if nonempty leftover then segments st ++ [leftover]
        else segments st in
      Some (map MinimalSetup.double_backslashes segments)
  end.

End Segments.


(** [s] without its white space. *)
Definition without_spaces (s : str) : str :=
  filter (fun c => negb (isspace c)) s.

(** A segment as [extract_sentences] keeps them: not empty, and with no
    white space at either end. *)
Definition trimmed (s : str) : Prop := s <> [] /\ strip s = s.


Definition plain_text : str := str_of "The cat sit on mat.  It purr! ".


(** ** v1_overcomplicated/correct.py *)

Module V1.

Definition k_should_check : str := str_of "should_check".
Definition k_coarse_sentence : str := str_of "coarse_sentence".
Definition k_fine_sentence : str := str_of "fine_sentence".
Definition k_final_sentence : str := str_of "final_sentence".
Definition k_parsing_error : str := str_of "parsing_error".

(** A loop whose condition cannot raise, over computations that make no
    call. *)
Fixpoint while_ {S : Type} (fuel : nat) (cond : S -> bool)
    (body : S -> outcome (ctl S)) (s : S) : outcome S :=
  match fuel with
  | O => OutOfFuel
  | Datatypes.S fuel' =>
      if cond s then
        obind (body s) (fun c =>
        match c with
        | Continue s' => while_ fuel' cond body s'
        | Break s' => Ok s'
        end)
      else Ok s
  end.

(** Each of the three functions builds its prompt first, outside its
    handlers, as an f-string that shows the JSON object to return between
    single braces.  These braces make a replacement field: its expression
    is the string before the first colon, and the rest, up to the closing
    brace, is its format specification, which [str] rejects with a
    [ValueError].  So the function raises before it calls [chat], whatever
    its arguments. *)
Definition grammar_correct_proposal (sentence : json) : outcome json :=
  Raise ValueError.

Definition incorporate_corrections (coarse_sentence original_fine
    corrected_fine : json) : outcome json :=
  Raise ValueError.

Definition quality_assurance_check (original_sentence corrected_sentence
    : json) : outcome json :=
  Raise ValueError.

Section WithBuiltins.
Variable float_of_str : str -> option pyfloat.

(** The local variables of [grammar_correction_main] that its loops
    assign.  [correction], [final_version], [qa_result] and [has_changes]
    have no value before their first assignment and keep their value from
    one sentence to the next. *)
Record vars : Type := {
  QA_passed : bool;
  attempt_in_getting_checked_correction : Z;
  didnt_pass_quality_assurance : bool;
  final_version : option json;
  correction : option json;
  qa_result : option json;
  has_changes : option bool
}.

(** The variables of the loop of step 1, lines 248-257. *)
Record confident_vars : Type := {
  corrector_confident : bool;
  attempt_in_getting_confident_correction : Z;
  confident_correction : option json
}.

Definition confident_cond (c : confident_vars) : bool :=
  negb (corrector_confident c)
  && (attempt_in_getting_confident_correction c <? 4).

Definition confident_body (sentence_info : json) (c : confident_vars)
    : outcome (ctl confident_vars) :=
  obind (py_getitem sentence_info k_fine_sentence) (fun fine =>
  obind (grammar_correct_proposal fine) (fun proposal =>
  obind (py_getitem proposal k_confidence) (fun conf =>
  obind (py_float float_of_str conf) (fun f =>
  Ok (Continue
        {| corrector_confident := MinimalSetup.float_gt f half;
           attempt_in_getting_confident_correction :=
             attempt_in_getting_confident_correction c + 1;
           confident_correction := Some proposal |}))))).

(** The variables of the loop of step 2, lines 264-275. *)
Record incorporation_vars : Type := {
  incorporation_accepted : bool;
  attempt_in_incorporating_corrections : Z;
  incorporated_version : option json
}.

Definition incorporation_cond (c : incorporation_vars) : bool :=
  negb (incorporation_accepted c)
  && (attempt_in_incorporating_corrections c <? 4).

Definition incorporation_body (sentence_info : json) (proposal : option json)
    (c : incorporation_vars) : outcome (ctl incorporation_vars) :=
  obind (py_getitem sentence_info k_coarse_sentence) (fun coarse =>
  obind (py_getitem sentence_info k_fine_sentence) (fun fine =>
  obind (read proposal) (fun p =>
  obind (py_getitem p k_corrected_sentence) (fun corrected =>
  obind (incorporate_corrections coarse fine corrected) (fun version =>
  obind (py_getitem version k_parsing_error) (fun parsing_error =>
  Ok (Continue
        {| incorporation_accepted := negb (truthy parsing_error);
           attempt_in_incorporating_corrections :=
             attempt_in_incorporating_corrections c + 1;
           incorporated_version := Some version |}))))))).

(** [not QA_passed and attempt_in_getting_checked_correction < 5] *)
Definition checked_cond (v : vars) : bool :=
  negb (QA_passed v) && (attempt_in_getting_checked_correction v <? 5).

(** Lines 232-293: one pass of the loop of a sentence;
    [preprocessing_proposed_skipping] is what the entry has under
    [should_check]. *)
Definition checked_body (fuel : nat) (sentence_info : json)
    (preprocessing_proposed_skipping : json) (v : vars)
    : outcome (ctl vars) :=
  obind (py_getitem sentence_info k_coarse_sentence) (fun coarse =>
  let v :=
    {| QA_passed := QA_passed v;
       attempt_in_getting_checked_correction :=
         attempt_in_getting_checked_correction v;
       didnt_pass_quality_assurance := didnt_pass_quality_assurance v;
       final_version := Some (JObj [(k_final_sentence, coarse)]);
       correction := correction v;
       qa_result := qa_result v;
       has_changes := has_changes v |} in
  if truthy preprocessing_proposed_skipping
     && negb (didnt_pass_quality_assurance v)
  then Ok (Continue v)
  else
    obind (while_ fuel confident_cond (confident_body sentence_info)
             {| corrector_confident := false;
                attempt_in_getting_confident_correction := 0;
                confident_correction := correction v |}) (fun c =>
    obind (while_ fuel incorporation_cond
             (incorporation_body sentence_info (confident_correction c))
             {| incorporation_accepted := false;
                attempt_in_incorporating_corrections := 0;
                incorporated_version := final_version v |}) (fun i =>
    obind (py_getitem sentence_info k_coarse_sentence) (fun coarse =>
    obind (read (incorporated_version i)) (fun version =>
    obind (py_getitem version k_final_sentence) (fun final_sentence =>
    obind (quality_assurance_check coarse final_sentence) (fun q =>
    obind (verdict_holds q) (fun ok =>
    if ok then
      Ok (Break
            {| QA_passed := true;
               attempt_in_getting_checked_correction :=
                 attempt_in_getting_checked_correction v;
               didnt_pass_quality_assurance :=
                 didnt_pass_quality_assurance v;
               final_version := incorporated_version i;
               correction := confident_correction c;
               qa_result := Some q;
               has_changes := Some true |})
    else
      obind (py_get q k_concerns (JArr [])) (fun _ =>
      Ok (Continue
            {| QA_passed := QA_passed v;
               attempt_in_getting_checked_correction :=
                 attempt_in_getting_checked_correction v + 1;
               didnt_pass_quality_assurance :=
                 if truthy preprocessing_proposed_skipping then true
                 else didnt_pass_quality_assurance v;
               final_version := incorporated_version i;
               correction := confident_correction c;
               qa_result := Some q;
               has_changes := has_changes v |})))))))))).

Record result_entry : Type := {
  original : json;
  final : json;
  entry_has_changes : bool;
  qa_concerns : json
}.

(** Lines 222-302: the body of the [for] loop for one entry of the list:
    the entry it appends and the variables it leaves. *)
Definition correct_sentence (fuel : nat) (sentence_info : json) (v : vars)
    : outcome (result_entry * vars) :=
  obind (py_get sentence_info k_should_check (JBool true)) (fun skipping =>
  obind (while_ fuel checked_cond (checked_body fuel sentence_info skipping)
           {| QA_passed := false;
              attempt_in_getting_checked_correction := 0;
              didnt_pass_quality_assurance := false;
              final_version := final_version v;
              correction := correction v;
              qa_result := qa_result v;
              has_changes := has_changes v |}) (fun v =>
  obind (py_getitem sentence_info k_coarse_sentence) (fun coarse =>
  obind (read (final_version v)) (fun version =>
  obind (py_getitem version k_final_sentence) (fun final_sentence =>
  obind (read (has_changes v)) (fun changed =>
  obind (read (qa_result v)) (fun q =>
  obind (py_get q k_concerns (JArr [])) (fun concerns =>
  Ok ({| original := coarse; final := final_sentence;
         entry_has_changes := changed; qa_concerns := concerns |},
      v))))))))).

Fixpoint for_sentences (fuel : nat) (preprocessed_sentences : list json)
    (v : vars) (corrected_results : list result_entry)
    : outcome (list result_entry) :=
  match preprocessed_sentences with
  | [] => Ok corrected_results
  | sentence_info :: rest =>
      obind (correct_sentence fuel sentence_info v) (fun r =>
      for_sentences fuel rest (snd r) (corrected_results ++ [fst r]))
  end.

Definition unassigned : vars :=
  {| QA_passed := false; attempt_in_getting_checked_correction := 0;
     didnt_pass_quality_assurance := false; final_version := None;
     correction := None; qa_result := None; has_changes := None |}.

(** [grammar_correction_main], lines 208-306. *)
Definition grammar_correction_main (fuel : nat)
    (preprocessed_sentences : list json) : outcome (list result_entry) :=
  for_sentences fuel preprocessed_sentences unassigned [].

End WithBuiltins.
End V1.


(** An entry of v1's list that preprocessing flagged. *)
Definition flagged_entry : json :=
  JObj [(V1.k_coarse_sentence, JStr the_cat);
        (V1.k_fine_sentence, JStr the_cat);
        (V1.k_should_check, JBool true)].

(** The same entry, not flagged. *)
Definition unflagged_entry : json :=
  JObj [(V1.k_coarse_sentence, JStr the_cat);
        (V1.k_fine_sentence, JStr the_cat);
        (V1.k_should_check, JBool false)].


(** ** v1_overcomplicated/preprocessing.py and main.py *)

Module V1Pre.

Definition k_coarse_length : str := str_of "coarse_length".
Definition k_lengths : str := str_of "lengths".

(** [d[k] = v] on the items of a [dict]: the value of a key that is there
    is replaced in place, a new key goes last. *)
Fixpoint dict_set (k : str) (v : json) (kv : list (str * json))
    : list (str * json) :=
  match kv with
  | [] => [(k, v)]
  | (k', v') :: kv' =>
      if str_eqb k k' then (k', v) :: kv'
      else (k', v') :: dict_set k v kv'
  end.

(** What a call of [extract_fine_sentence_from_coarse_sentence] meets. *)
Inductive fine_reply : Type :=
| FineDecoded (j : json)   (* [extract_json_from_response] returned [j] *)
| FineUndecodable          (* the content was read, and not decoded *)
| FineNoContent.           (* [chat] raised, or there is no content to read *)

(** The three uses of [chat]; [None] is any failure of the call, of the
    reading or of the decoding.  The first argument is the number of calls
    made before this one. *)
Record llm : Type := {
  coarse_extractor : nat -> str -> option str;     (* chunk *)
  fine_extractor : nat -> str -> fine_reply;       (* coarse sentence *)
  verifier : nat -> str -> json -> option json     (* coarse, fine *)
}.

(** A computation reads the number of calls made so far and returns its
    outcome with the number made by then. *)
Definition M (A : Type) : Type := nat -> outcome A * nat.

Definition ret {A : Type} (a : A) : M A := fun n => (Ok a, n).

Definition raise {A : Type} (e : exn) : M A := fun n => (Raise e, n).

Definition lift {A : Type} (o : outcome A) : M A := fun n => (o, n).

Definition bind {A B : Type} (c : M A) (k : A -> M B) : M B :=
  fun n =>
    match c n with
    | (Ok a, n') => k a n'
    | (Raise e, n') => (Raise e, n')
    | (OutOfFuel, n') => (OutOfFuel, n')
    end.

Declare Scope v1_scope.
Notation "x <- c ;; k" := (bind c (fun x => k))
  (at level 61, c at next level, right associativity) : v1_scope.
Local Open Scope v1_scope.

Fixpoint while_ {S : Type} (fuel : nat) (cond : S -> outcome bool)
    (body : S -> M (ctl S)) (s : S) : M S :=
  match fuel with
  | O => fun n => (OutOfFuel, n)
  | Datatypes.S fuel' =>
      b <- lift (cond s) ;;
      if b then
        c <- body s ;;
        match c with
        | Continue s' => while_ fuel' cond body s'
        | Break s' => ret s'
        end
      else ret s
  end.

Definition ask {R : Type} (oracle : nat -> R) : M R :=
  fun n => (Ok (oracle n), S n).

Section WithModel.
Variable model : llm.
Variable float_of_str : str -> option pyfloat.

(** Lines 11-65.  The sentence is located as in the later version; every
    failure ends in the [RuntimeError] of the outer handler. *)
Definition extract_coarse_sentence_from_queue (text : str) (max_chunk : Z)
    : M (str * Z) :=
  let chunk := slice_to text max_chunk in
  r <- ask (fun n => coarse_extractor model n chunk) ;;
  match r with
  | Some content => ret (Preprocessing.locate chunk content)
  | None => raise RuntimeError
  end.

(** Lines 67-160.  The outer handler formats [raw_response] into its log
    message before it raises its [RuntimeError]: when the failure came
    before [raw_response] was assigned, reading it is what raises. *)
Definition extract_fine_sentence_from_coarse_sentence (coarse_sentence : str)
    : M json :=
  r <- ask (fun n => fine_extractor model n coarse_sentence) ;;
  match r with
  | FineDecoded j => ret j
  | FineUndecodable => raise RuntimeError
  | FineNoContent => raise UnboundLocalError
  end.

(** Lines 162-214. *)
Definition double_check_preprocessing (coarse_sentence : str)
    (fine_sentence : json) : M json :=
  r <- ask (fun n => verifier model n coarse_sentence fine_sentence) ;;
  match r with
  | Some j => ret j
  | None => raise RuntimeError
  end.

(** Lines 216-227. *)
Definition calculate_coarse_sentence_length (coarse_sentence : str) : json :=
  JObj [(k_coarse_length, JNum (inject_Z (len coarse_sentence)))].

(** The local variables of the segmentation loop, lines 245-268. *)
Record seg_vars : Type := {
  initial_sentence_length_upper_bound : Z;
  attempt : Z;
  verification : json;
  coarse_sentence : option str;
  end_index : option Z;
  fine_result : option json;
  fine_sentence : option json
}.

(** [not verification["is_valid"] and attempt < max_attempts] *)
Definition seg_cond (v : seg_vars) : outcome bool :=
  obind (py_getitem (verification v) k_is_valid) (fun b =>
  Ok (negb (truthy b) && (attempt v <? 5))).

(** One pass, lines 253-268.  The test of [verification["is_valid"]] that
    ends the pass, for a warning, is the one the condition makes next. *)
Definition seg_body (document : str) (v : seg_vars) : M (ctl seg_vars) :=
  located <- extract_coarse_sentence_from_queue document
               (initial_sentence_length_upper_bound v) ;;
  result <- extract_fine_sentence_from_coarse_sentence (fst located) ;;
  fine <- lift (py_getitem result V1.k_fine_sentence) ;;
  ver <- double_check_preprocessing (fst located) fine ;;
  ret (Continue
         {| initial_sentence_length_upper_bound :=
              initial_sentence_length_upper_bound v + 200;
            attempt := attempt v + 1;
            verification := ver;
            coarse_sentence := Some (fst located);
            end_index := Some (snd located);
            fine_result := Some result;
            fine_sentence := Some fine |}).

(** The variables of the document loop.  The variables of a sentence
    keep their value from one sentence to the next. *)
Record vars : Type := {
  document : str;
  results : list json;
  last_coarse_sentence : option str;
  last_end_index : option Z;
  last_fine_result : option json;
  last_fine_sentence : option json
}.

Definition pre_cond (v : vars) : outcome bool :=
  Ok (match strip (document v) with [] => false | _ => true end).

(** Lines 245-296: one pass of the document loop. *)
Definition pre_body (fuel : nat) (v : vars) : M (ctl vars) :=
  s <- while_ fuel seg_cond (seg_body (document v))
         {| initial_sentence_length_upper_bound := 500;
            attempt := 0;
            verification := JObj [(k_is_valid, JBool false)];
            coarse_sentence := last_coarse_sentence v;
            end_index := last_end_index v;
            fine_result := last_fine_result v;
            fine_sentence := last_fine_sentence v |} ;;
  valid <- lift (py_getitem (verification s) k_is_valid) ;;
  s <- (if negb (truthy valid) then
          coarse <- lift (read (coarse_sentence s)) ;;
          result <- lift (read (fine_result s)) ;;
          match result with
          | JObj kv =>
              ret {| initial_sentence_length_upper_bound :=
                       initial_sentence_length_upper_bound s;
                     attempt := attempt s;
                     verification := verification s;
                     coarse_sentence := coarse_sentence s;
                     end_index := end_index s;
                     fine_result :=
                       Some (JObj (dict_set V1.k_should_check (JBool true)
                                     kv));
                     fine_sentence := Some (JStr coarse) |}
          | _ => raise TypeError
          end
        else ret s) ;;
  coarse <- lift (read (coarse_sentence s)) ;;
  let lengths := calculate_coarse_sentence_length coarse in
  fine <- lift (read (fine_sentence s)) ;;
  result <- lift (read (fine_result s)) ;;
  should_check <- lift (py_getitem result V1.k_should_check) ;;
  let result_entry :=
    JObj [(V1.k_coarse_sentence, JStr coarse);
          (V1.k_fine_sentence, fine);
          (V1.k_should_check, should_check);
          (k_lengths, lengths)] in
  e <- lift (read (end_index s)) ;;
  let v' :=
    {| document := slice_from (document v) e;
       results := results v ++ [result_entry];
       last_coarse_sentence := coarse_sentence s;
       last_end_index := end_index s;
       last_fine_result := fine_result s;
       last_fine_sentence := fine_sentence s |} in
  if len (strip (document v')) <? 3 then ret (Break v')
  else ret (Continue v').

(** [preprocessing_main], lines 229-299, from the content of the file. *)
Definition preprocessing_main (fuel : nat) (text : str) : M (list json) :=
  v <- while_ fuel pre_cond (pre_body fuel)
         {| document := text; results := [];
            last_coarse_sentence := None; last_end_index := None;
            last_fine_result := None; last_fine_sentence := None |} ;;
  ret (results v).

(** v1's [assemble_corrected_paper], lines 308-322 of [correct.py]. *)
Definition assemble_corrected_paper
    (corrected_results : list V1.result_entry) : outcome str :=
  str_join (str_of " ") (map V1.final corrected_results).

(** [main] of v1's [main.py], lines 5-13, from the content of [main.tex]:
    what it writes to [corrected_main.tex]. *)
Definition main (fuel : nat) (text : str) : M str :=
  sentences <- preprocessing_main fuel text ;;
  corrected_results <-
    lift (V1.grammar_correction_main float_of_str fuel sentences) ;;
  lift (assemble_corrected_paper corrected_results).

End WithModel.
End V1Pre.


(** A model of v1's preprocessing that finds the cat sentence, leaves it
    as it is and does not flag it. *)
Definition v1_plain_model : V1Pre.llm :=
  {| V1Pre.coarse_extractor := fun _ _ => Some the_cat;
     V1Pre.fine_extractor := fun _ _ =>
       V1Pre.FineDecoded
         (JObj [(V1.k_fine_sentence, JStr the_cat);
                (V1.k_should_check, JBool false)]);
     V1Pre.verifier := fun _ _ _ => Some (JObj [(k_is_valid, JBool true)]) |}.


(** *** Text that the progress file takes *)

(** No string of [j], key or value, holds a surrogate. *)
Fixpoint utf8 (j : json) : bool :=
  match j with
  | JStr s => encodable s
  | JArr l => forallb utf8 l
  | JObj kv => forallb (fun item => encodable (fst item) && utf8 (snd item)) kv
  | _ => true
  end.

(** The model answers with text that UTF-8 encodes. *)
Definition encodable_answers (model : llm) : Prop :=
  (forall n chunk content,
      extractor model n chunk = Some content -> encodable content = true) /\
  (forall n s c, proposer model n s = Decoded c -> utf8 c = true) /\
  (forall n o cs q, validator model n o cs = Decoded q -> utf8 q = true).

(** The variables of the loop of [process_sentence] hold such text. *)
Definition main_clean (v : Main.vars) : Prop :=
  (forall c, Main.correction v = Some c -> utf8 c = true) /\
  (forall q, Main.qa_result v = Some q -> utf8 q = true).

(** An entry that [main] can write to the progress file. *)
Definition writable (r : Main.result) : Prop :=
  encodable (Main.original r) = true /\
  utf8 (Main.final r) = true /\
  utf8 (Main.explanation r) = true /\
  utf8 (Main.qa_concerns r) = true.


(** *** Flags as booleans *)

(** The schema [QualityAssurance] declares the three flags of a verdict
    as booleans; the loops test them as conditions.  The definitions
    below read a flag as the boolean it is declared to be. *)









(** A document that ends with two letters after its sentence. *)
Definition the_cat_ab : str := str_of "The cat sit on mat. ab".


(** ** General facts *)

Lemma len_app {A : Type} (a b : list A) : len (a ++ b) = len a + len b.
Proof. unfold len. rewrite length_app. lia. Qed.

Lemma len_nonneg {A : Type} (a : list A) : 0 <= len a.
Proof. unfold len. lia. Qed.

Lemma count_app p a b : count p (a ++ b) = count p a + count p b.
Proof. unfold count. rewrite filter_app. apply len_app. Qed.

Lemma count_nonneg p a : 0 <= count p a.
Proof. apply len_nonneg. Qed.

Lemma verdicts_app a b : verdicts (a ++ b) = verdicts a ++ verdicts b.
Proof.
  induction a as [|e a IH]; simpl; [reflexivity|].
  destruct e as [| | |o c r]; try exact IH.
  destruct r; simpl; rewrite ?IH; reflexivity.
Qed.

Lemma str_eqb_eq a b : str_eqb a b = true <-> a = b.
Proof.
  unfold str_eqb. destruct (list_eq_dec N.eq_dec a b); split; congruence.
Qed.

Lemma str_eqb_refl a : str_eqb a a = true.
Proof. apply str_eqb_eq. reflexivity. Qed.

(** *** The loop rule *)

Section LoopRules.
Context {S : Type}.
Variable cond : S -> outcome bool.
Variable body : S -> M (ctl S).

(** One test of the condition and one pass. *)
Lemma while_unfold fuel s t :
  while_ (Datatypes.S fuel) cond body s t =
  match cond s with
  | Ok true =>
      match body s t with
      | (Ok (Continue s'), t') => while_ fuel cond body s' t'
      | (Ok (Break s'), t') => (Ok s', t')
      | (Raise e, t') => (Raise e, t')
      | (OutOfFuel, t') => (OutOfFuel, t')
      end
  | Ok false => (Ok s, t)
  | Raise e => (Raise e, t)
  | OutOfFuel => (OutOfFuel, t)
  end.
Proof.
  cbn [while_]. unfold bind, lift, ret.
  destruct (cond s) as [[|]| |]; try reflexivity.
  destruct (body s t) as [[[s'|s']| |] t']; reflexivity.
Qed.

(** An invariant [I] at the head of the loop gives a postcondition [Q] on
    every way the loop can end. *)
Lemma while_rule (I : S -> trace -> Prop) (Q : outcome S -> trace -> Prop) :
  (forall s t, I s t -> cond s = Ok false -> Q (Ok s) t) ->
  (forall s t e, I s t -> cond s = Raise e -> Q (Raise e) t) ->
  (forall s t, I s t -> Q OutOfFuel t) ->
  (forall s t, I s t -> cond s = Ok true ->
     match body s t with
     | (Ok (Continue s'), t') => I s' t'
     | (Ok (Break s'), t') => Q (Ok s') t'
     | (Raise e, t') => Q (Raise e) t'
     | (OutOfFuel, t') => Q OutOfFuel t'
     end) ->
  forall fuel s t, I s t ->
    Q (fst (while_ fuel cond body s t)) (snd (while_ fuel cond body s t)).
Proof.
  intros Hexit Hraise Hfuel Hbody.
  induction fuel as [|fuel IH]; intros s t HI; simpl.
  - eapply Hfuel; eassumption.
  - unfold bind, lift.
    destruct (cond s) as [[|]| |] eqn:Hc; simpl.
    + specialize (Hbody s t HI Hc).
      destruct (body s t) as [[[s'|s']| |] t']; simpl; auto.
    + eapply Hexit; eassumption.
    + eapply Hraise; eassumption.
    + eapply Hfuel; eassumption.
Qed.

(** A measure that every pass decreases bounds the fuel that is needed. *)
Lemma while_enough_fuel (I : S -> trace -> Prop) (mu : S -> nat) :
  (forall s, cond s <> OutOfFuel) ->
  (forall s t, I s t -> cond s = Ok true ->
     match body s t with
     | (Ok (Continue s'), t') => I s' t' /\ (mu s' < mu s)%nat
     | (OutOfFuel, _) => False
     | _ => True
     end) ->
  forall fuel s t, I s t -> (mu s < fuel)%nat ->
    fst (while_ fuel cond body s t) <> OutOfFuel.
Proof.
  intros Hcond Hbody.
  induction fuel as [|fuel IH]; intros s t HI Hmu; [lia|].
  simpl. unfold bind, lift.
  destruct (cond s) as [[|]| |] eqn:Hc; simpl; try discriminate.
  - specialize (Hbody s t HI Hc).
    destruct (body s t) as [[[s'|s']| |] t']; simpl; try discriminate.
    + destruct Hbody as [HI' Hlt]. apply IH; [assumption | lia].
    + contradiction.
  - exfalso. eapply Hcond; eassumption.
Qed.

End LoopRules.

(** *** The acceptance test *)

Lemma verdict_holds_accepted q :
  verdict_holds q = Ok true <-> accepted q = true.
Proof.
  unfold verdict_holds, accepted, field_true, obind.
  destruct (py_getitem q k_is_valid) as [a| |]; simpl;
    [|split; discriminate..].
  destruct (truthy a); simpl; [|split; discriminate].
  destruct (py_getitem q k_maintains_meaning) as [b| |]; simpl;
    [|split; discriminate..].
  destruct (truthy b); simpl; [|split; discriminate].
  destruct (py_getitem q k_technical_accuracy) as [c| |]; simpl;
    [|split; discriminate..].
  destruct (truthy c); split; congruence.
Qed.

Lemma accepted_has_keys q :
  accepted q = true -> has_verdict_keys q = Ok true.
Proof.
  unfold accepted, field_true, has_verdict_keys, py_getitem, py_in, obind.
  destruct q; simpl; try discriminate.
  destruct (lookup k_is_valid kv); simpl; [|discriminate].
  destruct (lookup k_maintains_meaning kv); simpl;
    [|rewrite andb_false_r; discriminate].
  destruct (lookup k_technical_accuracy kv); simpl;
    [reflexivity|rewrite andb_false_r; discriminate].
Qed.

Lemma verdict_holds_not_accepted q :
  verdict_holds q = Ok false -> accepted q = false.
Proof.
  intros H. destruct (accepted q) eqn:Ha; [|reflexivity].
  apply verdict_holds_accepted in Ha. congruence.
Qed.

Lemma has_keys_not_accepted q :
  has_verdict_keys q = Ok false -> accepted q = false.
Proof.
  intros H. destruct (accepted q) eqn:Ha; [|reflexivity].
  apply accepted_has_keys in Ha. congruence.
Qed.

(** *** Pure operations are not cut off *)

Lemma py_in_returns k j : py_in k j <> OutOfFuel.
Proof. destruct j; discriminate. Qed.

Lemma py_getitem_returns j k : py_getitem j k <> OutOfFuel.
Proof. destruct j; try discriminate. simpl. destruct (lookup k kv); discriminate. Qed.

Lemma py_get_returns j k d : py_get j k d <> OutOfFuel.
Proof. destruct j; try discriminate. simpl. destruct (lookup k kv); discriminate. Qed.

Lemma py_float_returns f j : py_float f j <> OutOfFuel.
Proof.
  destruct j; simpl; try discriminate.
  - destruct (float_overflows q); discriminate.
  - destruct (f s); discriminate.
Qed.

Lemma py_join_check_returns j : py_join_check j <> OutOfFuel.
Proof.
  destruct j; try discriminate. simpl.
  destruct (forallb _ l); discriminate.
Qed.

Lemma py_write_returns j : py_write j <> OutOfFuel.
Proof.
  destruct j; try discriminate. cbn [py_write].
  destruct (encodable s); discriminate.
Qed.

Lemma py_write_joined_returns j : py_write_joined j <> OutOfFuel.
Proof.
  unfold py_write_joined.
  destruct j; cbn [py_join_check obind]; try discriminate.
  - destruct (encodable s); discriminate.
  - destruct (forallb _ l); cbn [obind]; [|discriminate].
    destruct (forallb _ l); discriminate.
  - destruct (forallb _ kv); discriminate.
Qed.

Lemma write_entry_returns r : Main.write_entry r <> OutOfFuel.
Proof.
  unfold Main.write_entry.
  pose proof (py_write_returns (JStr (Main.original r))) as H1.
  pose proof (py_write_returns (Main.final r)) as H2.
  pose proof (py_write_returns (Main.explanation r)) as H3.
  pose proof (py_write_joined_returns (Main.qa_concerns r)) as H4.
  destruct (Main.has_changes r);
    destruct (py_write (JStr (Main.original r))) as [[]| |];
    cbn [obind]; try discriminate; try contradiction.
  - destruct (py_write (Main.final r)) as [[]| |];
      cbn [obind]; try discriminate; try contradiction.
    destruct (truthy (Main.explanation r)).
    + destruct (py_write (Main.explanation r)) as [[]| |];
        cbn [obind]; try discriminate; try contradiction.
      destruct (truthy (Main.qa_concerns r)); [assumption|discriminate].
    + cbn [obind].
      destruct (truthy (Main.qa_concerns r)); [assumption|discriminate].
  - destruct (truthy (Main.qa_concerns r)); [assumption|discriminate].
Qed.

Lemma read_returns {A : Type} (x : option A) : read x <> OutOfFuel.
Proof. destruct x; discriminate. Qed.

Lemma has_verdict_keys_returns q : has_verdict_keys q <> OutOfFuel.
Proof.
  unfold has_verdict_keys, obind.
  destruct (py_in k_is_valid q) as [[|]| |] eqn:H1; try discriminate.
  - destruct (py_in k_maintains_meaning q) as [[|]| |] eqn:H2; try discriminate.
    + apply py_in_returns.
    + exfalso. eapply py_in_returns; eassumption.
  - exfalso. eapply py_in_returns; eassumption.
Qed.

Lemma verdict_holds_returns q : verdict_holds q <> OutOfFuel.
Proof.
  unfold verdict_holds, obind.
  destruct (py_getitem q k_is_valid) as [a| |] eqn:H1; try discriminate.
  - destruct (truthy a); try discriminate.
    destruct (py_getitem q k_maintains_meaning) as [b| |] eqn:H2;
      try discriminate.
    + destruct (truthy b); try discriminate.
      destruct (py_getitem q k_technical_accuracy) as [c| |] eqn:H3;
        try discriminate.
      exfalso. eapply py_getitem_returns; eassumption.
    + exfalso. eapply py_getitem_returns; eassumption.
  - exfalso. eapply py_getitem_returns; eassumption.
Qed.

(** Closes a goal with an hypothesis that a pure operation was cut off. *)
Ltac no_fuel :=
  exfalso;
  first [ eapply py_in_returns; eassumption
        | eapply py_getitem_returns; eassumption
        | eapply py_get_returns; eassumption
        | eapply py_float_returns; eassumption
        | eapply read_returns; eassumption
        | eapply has_verdict_keys_returns; eassumption
        | eapply verdict_holds_returns; eassumption ].

(** *** Traces that grow by one call *)

Lemma app_two {A : Type} (l : list A) a b : l ++ [a; b] = (l ++ [a]) ++ [b].
Proof. rewrite <- app_assoc. reflexivity. Qed.

Lemma count_snoc p t e :
  count p (t ++ [e]) = count p t + (if p e then 1 else 0).
Proof.
  rewrite count_app. unfold count at 2. simpl. destruct (p e); reflexivity.
Qed.

Lemma verdicts_snoc t e :
  verdicts (t ++ [e]) =
  verdicts t ++ match e with EvQA _ _ (Decoded q) => [q] | _ => [] end.
Proof.
  rewrite verdicts_app. destruct e as [| | |? ? []]; reflexivity.
Qed.

Lemma existsb_snoc {A : Type} (f : A -> bool) l x :
  existsb f (l ++ [x]) = existsb f l || f x.
Proof. rewrite existsb_app. simpl. rewrite orb_false_r. reflexivity. Qed.

(** Case analysis on the innermost scrutinee of the goal. *)
Ltac case_step :=
  match goal with
  | |- context [match ?x with _ => _ end] =>
      lazymatch x with
      | context [match _ with _ => _ end] => fail
      | _ => destruct x eqn:?
      end
  end.

(** ** The correction loop of [process_sentence] *)

Section MainLoop.
Variable model : llm.
Variable float_of_str : str -> option pyfloat.
Variable sentence : str.
Variable t0 : trace.

Lemma corr_body_step v t :
  main_inv t0 v t ->
  Main.corr_cond v = Ok true ->
  match Main.corr_body model float_of_str sentence v t with
  | (Ok (Continue v'), t') => main_inv t0 v' t'
  | (Ok (Break v'), t') => main_post sentence t0 (Ok v') t'
  | (Raise e, t') => main_post sentence t0 (Raise e) t'
  | (OutOfFuel, t') => main_post sentence t0 OutOfFuel t'
  end.
Proof.
  intros (new & Ht & Hq & Hhi & Hcount & Hacc) Hc.
  unfold Main.corr_cond in Hc. rewrite Hq in Hc. simpl in Hc.
  injection Hc as Hc. apply Z.ltb_lt in Hc.
  unfold Main.max_correction_attempts in Hc, Hhi.
  unfold Main.corr_body, Correct.grammar_correct_proposal,
    Correct.quality_assurance_check, bind, ask, lift, ret, raise.
  subst t.
  repeat case_step; try discriminate;
    rewrite <- ?app_assoc; simpl;
    unfold main_inv, main_post, Main.max_correction_attempts;
    eexists; (split; [reflexivity|]);
    rewrite ?app_two, ?count_snoc, ?verdicts_snoc, ?existsb_snoc; simpl;
    rewrite ?app_nil_r, ?Hacc; simpl.
  all: try (repeat split; first [assumption | lia | reflexivity]).
  - repeat split; try assumption; try lia.
    apply has_keys_not_accepted. destruct a3; [discriminate|assumption].
  - split; [lia|].
    exists j, a2, j0. eexists. repeat split; try eassumption.
    apply verdict_holds_accepted. assumption.
  - repeat split; try assumption; try lia.
    apply verdict_holds_not_accepted. assumption.
Qed.

(** What the loop has done when it ends, however it ends. *)
Lemma corr_loop_spec fuel :
  let run := while_ fuel Main.corr_cond
               (Main.corr_body model float_of_str sentence) Main.corr_init t0 in
  main_post sentence t0 (fst run) (snd run).
Proof.
  cbv zeta. apply while_rule with (I := main_inv t0).
  - intros v t (new & Ht & Hq & Hhi & Hcount & Hacc) Hc.
    unfold Main.corr_cond in Hc. rewrite Hq in Hc. simpl in Hc.
    injection Hc as Hc. apply Z.ltb_ge in Hc.
    exists new. rewrite Hq. repeat split; try assumption; lia.
  - intros v t e _ Hc. discriminate Hc.
  - intros v t (new & Ht & Hq & Hhi & Hcount & Hacc).
    exists new. repeat split; try assumption; lia.
  - apply corr_body_step.
  - exists []. rewrite app_nil_r. repeat split; try reflexivity.
    unfold Main.max_correction_attempts. simpl. lia.
Qed.

(** Nine evaluations of the condition are enough. *)
Lemma corr_loop_terminates fuel t :
  (8 < fuel)%nat ->
  fst (while_ fuel Main.corr_cond
         (Main.corr_body model float_of_str sentence) Main.corr_init t)
  <> OutOfFuel.
Proof.
  intros Hfuel.
  apply while_enough_fuel
    with (I := fun v _ => Main.correction_attempt v <= 8)
         (mu := fun v => Z.to_nat (8 - Main.correction_attempt v)).
  - intros v. discriminate.
  - intros v t' Hhi Hc. unfold Main.corr_cond in Hc.
    injection Hc as Hc. apply andb_true_iff in Hc. destruct Hc as [_ Hc].
    apply Z.ltb_lt in Hc. unfold Main.max_correction_attempts in Hc.
    unfold Main.corr_body, Correct.grammar_correct_proposal,
      Correct.quality_assurance_check, bind, ask, lift, ret, raise.
    repeat case_step; try discriminate;
      cbn [Main.correction_attempt Main.spend Main.set_correction
           Main.set_qa_result Main.set_QA_passed];
      try exact I; try no_fuel; split; lia.
  - simpl. lia.
  - simpl. lia.
Qed.

End MainLoop.

(** ** The loops of [grammar_correction_main] *)

Section CorrectLoop.
Variable model : llm.
Variable float_of_str : str -> option pyfloat.
Variable original_sentence : str.
Variable t0 : trace.

Lemma qa_body_step a c v t :
  a < Correct.max_attempts ->
  qa_inv t0 a c v t ->
  match Correct.qa_body model original_sentence v t with
  | (Ok (Continue v'), t') => qa_inv t0 a c v' t'
  | (Ok (Break v'), t') => qa_post original_sentence t0 (Ok v') t'
  | (Raise e, t') => qa_post original_sentence t0 (Raise e) t'
  | (OutOfFuel, t') => qa_post original_sentence t0 OutOfFuel t'
  end.
Proof.
  intros Ha (new & Ht & Hq & Hn & Hy & Hat & Hcorr & Hcount & Hacc).
  unfold Correct.max_attempts in Ha.
  unfold Correct.qa_body, Correct.quality_assurance_check,
    bind, ask, lift, ret, raise.
  rewrite Hcorr. subst t. cbn [read].
  repeat case_step; try discriminate;
    rewrite <- ?app_assoc; cbn [app];
    unfold qa_inv, qa_post, correct_inv, Correct.max_attempts;
    eexists; (split; [reflexivity|]);
    rewrite ?count_snoc, ?verdicts_snoc, ?existsb_snoc;
    cbn [is_propose Correct.QA_passed Correct.attempt Correct.correction
         Correct.qa_result Correct.num_attempts Correct.qa_yielded_result
         Correct.set_QA_passed Correct.set_attempt Correct.set_qa_result
         Correct.set_qa_yielded_result existsb orb];
    rewrite ?Hq, ?Hacc, ?Z.add_0_r; cbn [orb].
  all: try lia.
  - split; [lia|].
    exists c, a0, j, new. repeat split; try assumption.
    apply verdict_holds_accepted. assumption.
  - repeat split; try lia.
    apply verdict_holds_not_accepted. assumption.
  - cbn in Heqb0. congruence.
  - repeat split; try assumption.
    apply has_keys_not_accepted. assumption.
Qed.

(** The inner loop, started in a pass of the outer loop. *)
Lemma qa_loop_spec fuel a c v t :
  a < Correct.max_attempts ->
  qa_inv t0 a c v t ->
  let run := while_ fuel Correct.qa_cond
               (Correct.qa_body model original_sentence) v t in
  qa_post original_sentence t0 (fst run) (snd run).
Proof.
  intros Ha Hinv. cbv zeta.
  apply while_rule with (I := qa_inv t0 a c); try assumption.
  - intros s t1 (new & Ht & Hq & Hn & _) Hc.
    unfold Correct.qa_cond in Hc. rewrite Hn in Hc. discriminate Hc.
  - intros s t1 e _ Hc. discriminate Hc.
  - intros s t1 (new & Ht & Hq & Hn & Hy & Hat & Hcorr & Hcount & Hacc).
    exists new. unfold Correct.max_attempts in *. split; [assumption|lia].
  - intros s t1 Hs _. apply qa_body_step; assumption.
Qed.

Lemma outer_body_step fuel v t :
  correct_inv original_sentence t0 v t ->
  Correct.outer_cond v = Ok true ->
  match Correct.outer_body model float_of_str fuel original_sentence v t with
  | (Ok (Continue v'), t') => correct_inv original_sentence t0 v' t'
  | (Ok (Break v'), t') => correct_post original_sentence t0 (Ok v') t'
  | (Raise e, t') => correct_post original_sentence t0 (Raise e) t'
  | (OutOfFuel, t') => correct_post original_sentence t0 OutOfFuel t'
  end.
Proof.
  intros (new & Ht & Hle & Hst) Hc.
  unfold Correct.outer_cond in Hc. injection Hc as Hc.
  apply andb_true_iff in Hc. destruct Hc as [Hq Hc].
  apply negb_true_iff in Hq. apply Z.ltb_lt in Hc.
  rewrite Hq in Hst. destruct Hst as (Hhi & Hcount & Hacc).
  unfold Correct.max_attempts in *.
  unfold Correct.outer_body, Correct.grammar_correct_proposal.
  unfold bind at 1 2 3 4 5. unfold ask, lift, ret, raise. subst t.
  destruct (proposer model (List.length (t0 ++ new)) original_sentence)
    as [c| | |] eqn:Hp.
  - destruct (py_getitem c k_confidence) as [conf| |] eqn:Hconf.
    + destruct (py_float float_of_str conf) as [f| |] eqn:Hf.
      * destruct (float_le f half) eqn:Hlow.
        -- exists (new ++ [EvPropose original_sentence (Decoded c)]).
           rewrite app_assoc, count_snoc, verdicts_snoc, app_nil_r.
           cbn [is_propose Correct.QA_passed Correct.attempt
                Correct.set_attempt Correct.set_correction].
           rewrite Hq. unfold Correct.max_attempts.
           repeat split; try assumption; lia.
        -- pose proof (qa_loop_spec fuel (Correct.attempt v) c
             (Correct.set_qa_yielded_result false
                (Correct.set_num_attempts 0 (Correct.set_correction c v)))
             ((t0 ++ new) ++ [EvPropose original_sentence (Decoded c)])) as Hin.
           cbv zeta in Hin. unfold bind.
           destruct (while_ fuel Correct.qa_cond
                       (Correct.qa_body model original_sentence) _ _)
             as [o t'].
           cbn [fst snd] in Hin.
           assert (Hpost : qa_post original_sentence t0 o t').
           { apply Hin; [exact Hc|].
             exists (new ++ [EvPropose original_sentence (Decoded c)]).
             rewrite app_assoc, count_snoc, verdicts_snoc, app_nil_r.
             cbn. repeat split; try assumption. lia. }
           destruct o as [v'| |]; cbn [ret].
           ++ exact Hpost.
           ++ destruct Hpost as (new' & Ht' & Hle').
              exists new'. repeat split; assumption.
           ++ destruct Hpost as (new' & Ht' & Hle').
              exists new'. repeat split; assumption.
      * exists (new ++ [EvPropose original_sentence (Decoded c)]).
        rewrite app_assoc, count_snoc. cbn [is_propose].
        unfold Correct.max_attempts; repeat split; lia.
      * exists (new ++ [EvPropose original_sentence (Decoded c)]).
        rewrite app_assoc, count_snoc. cbn [is_propose].
        unfold Correct.max_attempts; repeat split; lia.
    + exists (new ++ [EvPropose original_sentence (Decoded c)]).
      rewrite app_assoc, count_snoc. cbn [is_propose].
      unfold Correct.max_attempts; repeat split; lia.
    + exists (new ++ [EvPropose original_sentence (Decoded c)]).
      rewrite app_assoc, count_snoc. cbn [is_propose].
      unfold Correct.max_attempts; repeat split; lia.
  - exists (new ++ [EvPropose original_sentence NotJson]).
    rewrite app_assoc, count_snoc. cbn [is_propose].
    unfold Correct.max_attempts; repeat split; lia.
  - exists (new ++ [EvPropose original_sentence NoContent]).
    rewrite app_assoc, count_snoc. cbn [is_propose].
    unfold Correct.max_attempts; repeat split; lia.
  - exists (new ++ [EvPropose original_sentence ChatFailed]).
    rewrite app_assoc, count_snoc. cbn [is_propose].
    unfold Correct.max_attempts; repeat split; lia.
Qed.

(** What the outer loop has done when it ends, however it ends. *)
Lemma outer_loop_spec fuel v :
  let v1 := Correct.set_attempt 0 (Correct.set_QA_passed false v) in
  let run := while_ fuel Correct.outer_cond
               (Correct.outer_body model float_of_str fuel original_sentence)
               v1 t0 in
  correct_post original_sentence t0 (fst run) (snd run).
Proof.
  cbv zeta.
  apply while_rule with (I := correct_inv original_sentence t0).
  - intros s t (new & Ht & Hle & Hst) Hc.
    unfold Correct.outer_cond in Hc. injection Hc as Hc.
    exists new. split; [assumption|]. split; [assumption|].
    destruct (Correct.QA_passed s); [assumption|].
    simpl in Hc. apply Z.ltb_ge in Hc.
    destruct Hst as (Hhi & Hcount & Hacc). split; [lia|assumption].
  - intros s t e _ Hc. discriminate Hc.
  - intros s t (new & Ht & Hle & _). exists new. repeat split; assumption.
  - intros s t. apply outer_body_step.
  - exists []. rewrite app_nil_r. unfold Correct.max_attempts. cbn.
    unfold Correct.max_attempts; repeat split; lia.
Qed.

End CorrectLoop.

(** ** The entries of the correction loops *)

Lemma since_app t new : since t (t ++ new) = new.
Proof.
  unfold since. rewrite skipn_app, skipn_all, Nat.sub_diag. reflexivity.
Qed.

Lemma str_ne_false a b : str_ne a b = false <-> b = JStr a.
Proof.
  destruct b; simpl; try (split; discriminate).
  rewrite negb_false_iff, str_eqb_eq. split; congruence.
Qed.

Section Entries.
Variable model : llm.
Variable float_of_str : str -> option pyfloat.

Lemma main_entry_spec fuel sentence lengths t e t' :
  run_correction model float_of_str fuel (OfProcessSentence lengths) sentence t
    = (Ok e, t') ->
  exists new, t' = t ++ new /\
    entry_spec Main.max_correction_attempts sentence e new.
Proof.
  unfold run_correction, Main.correct_sentence, bind, lift, ret.
  pose proof (corr_loop_spec model float_of_str sentence t fuel) as Hloop.
  cbv zeta in Hloop.
  destruct (while_ fuel Main.corr_cond _ Main.corr_init t) as [o t1].
  cbn [fst snd] in Hloop.
  destruct o as [v| |]; try discriminate.
  destruct (Main.prepare_result sentence lengths v) as [r| |] eqn:Hr;
    try discriminate.
  intros H. injection H as <- <-.
  destruct Hloop as (new & Ht & Hle & Hst).
  exists new. split; [assumption|]. unfold entry_spec. cbn [view_passed
    view_original view_final view_has_changes view_qa_concerns].
  unfold Main.prepare_result in Hr.
  destruct (Main.QA_passed v).
  - destruct Hst as (c & cs & q & pre & Hc & Hcs & Hq & Hacc & Hnew).
    rewrite Hc, Hq in Hr. cbn [read obind] in Hr. rewrite Hcs in Hr.
    cbn [obind] in Hr.
    destruct (py_get q k_concerns (JArr [])) as [concerns| |];
      try discriminate.
    destruct (py_get c k_explanation (JStr [])) as [expl| |];
      try discriminate.
    injection Hr as <-. cbn.
    repeat split; try assumption. exists pre, q. split; assumption.
  - injection Hr as <-. cbn. destruct Hst as [Hcount Hacc].
    repeat split; assumption.
Qed.

Lemma correct_entry_spec fuel sentence v0 t e t' :
  run_correction model float_of_str fuel (OfGrammarCorrectionMain v0) sentence t
    = (Ok e, t') ->
  exists new, t' = t ++ new /\
    entry_spec Correct.max_attempts sentence e new.
Proof.
  unfold run_correction, Correct.correct_sentence, bind, lift, ret.
  pose proof (outer_loop_spec model float_of_str sentence t fuel v0) as Hloop.
  cbv zeta in Hloop.
  destruct (while_ fuel Correct.outer_cond _ _ t) as [o t1].
  cbn [fst snd] in Hloop.
  destruct o as [v| |]; try discriminate.
  destruct (Correct.store_results sentence v) as [r| |] eqn:Hr;
    try discriminate.
  intros H. injection H as <- <-.
  destruct Hloop as (new & Ht & Hle & Hst).
  exists new. split; [assumption|]. unfold entry_spec. cbn [view_passed
    view_original view_final view_has_changes view_qa_concerns].
  unfold Correct.store_results in Hr.
  destruct (Correct.correction v) as [c|] eqn:Hcorr; [|discriminate Hr].
  cbn [read obind] in Hr.
  destruct (py_getitem c k_corrected_sentence) as [cs| |] eqn:Hcs;
    try discriminate.
  cbn [obind] in Hr.
  destruct (Correct.QA_passed v).
  - destruct Hst as (c' & cs' & q & pre & Hc & Hcs' & Hq & Hacc & Hnew).
    assert (c' = c) by congruence. subst c'.
    assert (cs' = cs) by congruence. subst cs'.
    cbn [obind] in Hr. rewrite Hq in Hr. cbn [read obind] in Hr.
    destruct (py_get q k_concerns (JArr [])) as [concerns| |];
      try discriminate.
    injection Hr as <-. cbn. rewrite andb_true_r.
    repeat split; try assumption. exists pre, q. split; assumption.
  - cbn [obind] in Hr. injection Hr as <-. cbn. rewrite andb_false_r.
    destruct Hst as [Hcount Hacc]. repeat split; assumption.
Qed.

Lemma entry_spec_of_run fuel loop sentence t e t' :
  run_correction model float_of_str fuel loop sentence t = (Ok e, t') ->
  exists new, t' = t ++ new /\
    entry_spec (proposal_budget loop) sentence e new.
Proof.
  destruct loop; [apply main_entry_spec | apply correct_entry_spec].
Qed.

End Entries.

Section Budget.
Variable model : llm.
Variable float_of_str : str -> option pyfloat.

(** However a correction loop ends, it has asked for at most its budget of
    proposals. *)
Lemma run_correction_calls fuel loop sentence t :
  let run := run_correction model float_of_str fuel loop sentence t in
  exists new, snd run = t ++ new /\
    count is_propose new <= proposal_budget loop.
Proof.
  cbv zeta. destruct loop as [lengths|v0].
  - unfold run_correction, Main.correct_sentence, bind, lift, ret.
    pose proof (corr_loop_spec model float_of_str sentence t fuel) as Hloop.
    cbv zeta in Hloop.
    destruct (while_ fuel Main.corr_cond _ Main.corr_init t) as [o t1].
    cbn [fst snd] in Hloop. destruct Hloop as (new & Ht & Hle & _).
    exists new. split; [|exact Hle].
    destruct o as [v| |]; cbn [snd]; try assumption.
    destruct (Main.prepare_result sentence lengths v); assumption.
  - unfold run_correction, Correct.correct_sentence, bind, lift, ret.
    pose proof (outer_loop_spec model float_of_str sentence t fuel v0) as Hloop.
    cbv zeta in Hloop.
    destruct (while_ fuel Correct.outer_cond _ _ t) as [o t1].
    cbn [fst snd] in Hloop. destruct Hloop as (new & Ht & Hle & _).
    exists new. split; [|exact Hle].
    destruct o as [v| |]; cbn [snd]; try assumption.
    destruct (Correct.store_results sentence v); assumption.
Qed.

(** The correction loop of [process_sentence] is never cut off when it is
    given fuel for its nine tests of the condition. *)
Lemma process_sentence_correction_returns fuel sentence lengths t :
  (8 < fuel)%nat ->
  fst (run_correction model float_of_str fuel (OfProcessSentence lengths)
         sentence t) <> OutOfFuel.
Proof.
  intros Hfuel.
  pose proof (corr_loop_terminates model float_of_str sentence fuel t Hfuel)
    as Hloop.
  unfold run_correction, Main.correct_sentence, bind, lift, ret.
  destruct (while_ fuel Main.corr_cond _ Main.corr_init t) as [o t1].
  cbn [fst] in Hloop.
  destruct o as [v| |]; cbn [fst]; try discriminate; [|contradiction].
  unfold Main.prepare_result.
  destruct (Main.QA_passed v); [|discriminate].
  destruct (read (Main.correction v)) as [c| |] eqn:Hc; cbn [obind];
    try discriminate; try no_fuel.
  destruct (py_getitem c k_corrected_sentence) as [cs| |] eqn:Hcs;
    cbn [obind]; try discriminate; try no_fuel.
  destruct (read (Main.qa_result v)) as [q| |] eqn:Hq; cbn [obind];
    try discriminate; try no_fuel.
  destruct (py_get q k_concerns (JArr [])) as [x| |] eqn:Hx; cbn [obind];
    try discriminate; try no_fuel.
  destruct (py_get c k_explanation (JStr [])) as [y| |] eqn:Hy; cbn [obind];
    try discriminate; try no_fuel.
Qed.

End Budget.

(** ** The entries: fallback, acceptance, changes *)

(** [QA_passed] ends up set exactly when an accepted verdict was
    obtained. *)
Lemma passed_is_accepted (model : llm) (float_of_str : str -> option pyfloat)
    (fuel : nat) (loop : correction_loop) (sentence : str)
    (t : trace) (e : entry_view) (t' : trace) :
  run_correction model float_of_str fuel loop sentence t = (Ok e, t') ->
  view_passed e = existsb accepted (verdicts (since t t')).
Proof.
  intros Hrun. apply entry_spec_of_run in Hrun.
  destruct Hrun as (new & -> & _ & _ & Hst). rewrite since_app.
  destruct (view_passed e).
  - destruct Hst as [(pre & q & Hnew & Hacc) _].
    rewrite Hnew, verdicts_snoc, existsb_snoc, Hacc, orb_true_r.
    reflexivity.
  - destruct Hst as (_ & Hacc & _). symmetry. assumption.
Qed.









Lemma getitem_in j k v : py_getitem j k = Ok v -> py_in k j = Ok true.
Proof.
  destruct j; simpl; try discriminate.
  destruct (lookup k kv); [reflexivity|discriminate].
Qed.

(** ** Verdicts *)

(** For a flag that is a boolean, to hold is to be [true]. *)
Lemma field_true_bool q k b :
  py_getitem q k = Ok (JBool b) -> field_true q k = b.
Proof. unfold field_true. intros ->. reflexivity. Qed.


Section Rejection.
Variable model : llm.
Variable float_of_str : str -> option pyfloat.



End Rejection.




(** C10.  In an entry produced by a correction loop, [has_changes] is true
    exactly when QA passed, that is an accepted verdict was obtained, and
    the accepted corrected sentence, which is [final], differs from the
    original; an accepted correction equal to the original is recorded
    with [has_changes] false and [final] equal to the original. *)
Theorem C10_has_changes_exactly (model : llm)
    (float_of_str : str -> option pyfloat) (fuel : nat)
    (loop : correction_loop) (sentence : str)
    (t : trace) (e : entry_view) (t' : trace) :
  run_correction model float_of_str fuel loop sentence t = (Ok e, t') ->
  view_original e = sentence /\
  view_passed e = existsb accepted (verdicts (since t t')) /\
  (view_passed e = true ->
   exists pre q,
     since t t' = pre ++ [EvQA sentence (view_final e) (Decoded q)] /\
     accepted q = true) /\
  (view_has_changes e = true <->
   view_passed e = true /\ view_final e <> JStr (view_original e)) /\
  (view_passed e = true -> view_final e = JStr (view_original e) ->
   view_has_changes e = false).
Proof.
  intros Hrun. apply entry_spec_of_run in Hrun.
  destruct Hrun as (new & -> & _ & Horig & Hst). rewrite since_app.
  split; [assumption|]. rewrite Horig.
  destruct (view_passed e).
  - destruct Hst as [(pre & q & Hnew & Hacc) Hch].
    split; [|split; [|split]].
    + rewrite Hnew, verdicts_snoc, existsb_snoc, Hacc, orb_true_r.
      reflexivity.
    + intros _. exists pre, q. split; assumption.
    + rewrite Hch. split.
      * intros Hne. split; [reflexivity|].
        intros Heq. apply str_ne_false in Heq. congruence.
      * intros [_ Hne].
        destruct (str_ne sentence (view_final e)) eqn:Hs; [reflexivity|].
        apply str_ne_false in Hs. contradiction.
    + intros _ Heq. rewrite Hch. apply str_ne_false. assumption.
  - destruct Hst as (_ & Hacc & Hfinal & Hch & _).
    split; [|split; [|split]].
    + symmetry. assumption.
    + discriminate.
    + rewrite Hch. split; [discriminate|]. intros [Hp _]. discriminate Hp.
    + discriminate.
Qed.

Lemma C10_has_changes_exactly_witness :
  let run := run_correction echo_model no_str_confidence 9
               (OfProcessSentence 19) the_cat [] in
  exists e,
    fst run = Ok e /\
    view_passed e = true /\
    view_final e = JStr (view_original e) /\
    view_has_changes e = false.
Proof.
  cbv zeta.
  destruct (run_correction echo_model no_str_confidence 9
              (OfProcessSentence 19) the_cat []) as [o t'] eqn:Hrun.
  vm_compute in Hrun. injection Hrun as <- <-.
  eexists. split; [reflexivity|].
  split; [reflexivity|]. split; [reflexivity|].
  refine (proj2 (proj2 (proj2 (proj2
            (C10_has_changes_exactly echo_model no_str_confidence 9
               (OfProcessSentence 19) the_cat [] _ _ _)))) _ _).
  - vm_compute. reflexivity.
  - reflexivity.
  - reflexivity.
Defined.

(** ** The number of proposals *)

(** C4, as the code has it.  A correction loop obtains at most its budget
    of proposals for a sentence, and has obtained exactly that many when it
    gives up and takes the fallback.  The budget is 5 proposals in
    [grammar_correction_main] and 8 in [process_sentence]. *)
Theorem C4_proposal_budget (model : llm)
    (float_of_str : str -> option pyfloat) (fuel : nat)
    (loop : correction_loop) (sentence : str) (t : trace) :
  let run := run_correction model float_of_str fuel loop sentence t in
  let budget := match loop with
                | OfProcessSentence _ => 8
                | OfGrammarCorrectionMain _ => 5
                end in
  exists new,
    snd run = t ++ new /\
    count is_propose new <= budget /\
    (forall e, fst run = Ok e -> view_passed e = false ->
       count is_propose new = budget /\
       view_final e = JStr sentence /\
       view_qa_concerns e = failed_concerns).
Proof.
  cbv zeta.
  destruct (run_correction_calls model float_of_str fuel loop sentence t)
    as (new & Hsnd & Hle).
  exists new. split; [assumption|]. split.
  - destruct loop; exact Hle.
  - intros e He Hp.
    destruct (run_correction model float_of_str fuel loop sentence t)
      as [o t'] eqn:Hrun.
    cbn [fst snd] in He, Hsnd. subst o.
    apply entry_spec_of_run in Hrun.
    destruct Hrun as (new' & Ht' & _ & _ & Hst).
    rewrite Hsnd in Ht'. apply app_inv_head in Ht'. subst new'.
    rewrite Hp in Hst. destruct Hst as (Hcount & _ & Hfinal & _ & Hconc).
    split; [destruct loop; exact Hcount|]. split; assumption.
Qed.

Lemma C4_proposal_budget_witness :
  let run := run_correction hesitant_model no_str_confidence 9
               (OfGrammarCorrectionMain Correct.unassigned) the_cat [] in
  exists e,
    fst run = Ok e /\
    view_passed e = false /\
    count is_propose (snd run) = 5 /\
    view_final e = JStr the_cat.
Proof.
  cbv zeta.
  destruct (C4_proposal_budget hesitant_model no_str_confidence 9
              (OfGrammarCorrectionMain Correct.unassigned) the_cat [])
    as (new & Hsnd & _ & Hgive).
  cbv zeta in Hsnd, Hgive.
  destruct (run_correction hesitant_model no_str_confidence 9
              (OfGrammarCorrectionMain Correct.unassigned) the_cat [])
    as [o t'] eqn:Hrun.
  vm_compute in Hrun. injection Hrun as <- <-.
  cbn [fst snd app] in Hsnd, Hgive |- *.
  eexists. split; [reflexivity|]. split; [reflexivity|].
  destruct (Hgive _ eq_refl eq_refl) as (Hcount & Hfinal & _).
  rewrite Hsnd. split; assumption.
Defined.

(** C4 as the spec states it fails on [process_sentence]: with a proposer
    that is never confident the loop obtains 8 proposals, not at most 5,
    before it takes the fallback. *)
Lemma C4_counterexample :
  let run := run_correction hesitant_model no_str_confidence 9
               (OfProcessSentence 19) the_cat [] in
  (exists e, fst run = Ok e /\ view_qa_concerns e = failed_concerns) /\
  count is_propose (snd run) = 8 /\
  ~ count is_propose (snd run) <= 5.
Proof.
  cbv zeta.
  destruct (run_correction hesitant_model no_str_confidence 9
              (OfProcessSentence 19) the_cat []) as [o t'] eqn:Hrun.
  vm_compute in Hrun. injection Hrun as <- <-.
  split; [eexists; split; reflexivity|].
  split; [reflexivity|]. vm_compute. intros H. apply H. reflexivity.
Qed.

(** ** The confidence gate *)

Section ConfidenceGate.
Variable model : llm.
Variable float_of_str : str -> option pyfloat.


(** In [process_sentence] a proposal of confidence at most 0.5 costs one
    attempt, and the pass ends at once: the proposal is the only call. *)
Lemma main_low_confidence_spends sentence v t c conf f :
  proposer model (List.length t) sentence = Decoded c ->
  py_getitem c k_confidence = Ok conf ->
  py_float float_of_str conf = Ok f ->
  float_le f half = true ->
  Main.corr_body model float_of_str sentence v t =
    (Ok (Continue (Main.spend (Main.set_correction c v))),
     t ++ [EvPropose sentence (Decoded c)]).
Proof.
  intros Hp Hconf Hf Hlow.
  unfold Main.corr_body, Correct.grammar_correct_proposal,
    bind, ask, lift, ret.
  rewrite Hp, (getitem_in _ _ _ Hconf), Hconf, Hf, Hlow. reflexivity.
Qed.

(** So does a proposal without the field. *)
Lemma main_missing_confidence_spends sentence v t c :
  proposer model (List.length t) sentence = Decoded c ->
  py_in k_confidence c = Ok false ->
  Main.corr_body model float_of_str sentence v t =
    (Ok (Continue (Main.spend (Main.set_correction c v))),
     t ++ [EvPropose sentence (Decoded c)]).
Proof.
  intros Hp Hin.
  unfold Main.corr_body, Correct.grammar_correct_proposal,
    bind, ask, lift, ret.
  rewrite Hp, Hin. reflexivity.
Qed.

(** In [grammar_correction_main] a proposal of confidence at most 0.5
    costs one attempt and makes no QA call either. *)
Lemma correct_low_confidence_spends fuel sentence v t c conf f :
  proposer model (List.length t) sentence = Decoded c ->
  py_getitem c k_confidence = Ok conf ->
  py_float float_of_str conf = Ok f ->
  float_le f half = true ->
  Correct.outer_body model float_of_str fuel sentence v t =
    (Ok (Continue (Correct.set_attempt (Correct.attempt v + 1)
                     (Correct.set_correction c v))),
     t ++ [EvPropose sentence (Decoded c)]).
Proof.
  intros Hp Hconf Hf Hlow.
  unfold Correct.outer_body, Correct.grammar_correct_proposal,
    bind, ask, lift, ret.
  rewrite Hp, Hconf, Hf, Hlow. reflexivity.
Qed.

(** But there a proposal without the field ends the run with a
    [KeyError]. *)
Lemma correct_missing_confidence_raises fuel sentence v t kv :
  proposer model (List.length t) sentence = Decoded (JObj kv) ->
  lookup k_confidence kv = None ->
  Correct.outer_body model float_of_str fuel sentence v t =
    (Raise KeyError, t ++ [EvPropose sentence (Decoded (JObj kv))]).
Proof.
  intros Hp Hnone.
  unfold Correct.outer_body, Correct.grammar_correct_proposal,
    bind, ask, lift, ret.
  rewrite Hp. cbn [py_getitem]. rewrite Hnone. reflexivity.
Qed.

End ConfidenceGate.

(** C5, where the code departs from it.  A proposer that leaves the
    confidence out makes [grammar_correction_main] raise [KeyError] at the
    first proposal: the attempt is not spent and no entry is produced.
    [process_sentence], on the same proposals, spends its 8 attempts without
    a QA call and returns the fallback entry. *)
Theorem C5_missing_confidence_raises :
  run_correction unsure_model no_str_confidence 9
    (OfGrammarCorrectionMain Correct.unassigned) the_cat [] =
    (Raise KeyError,
     [EvPropose the_cat (Decoded proposal_without_confidence)]) /\
  Correct.grammar_correction_main unsure_model no_str_confidence 9
    [{| Preprocessing.info_sentence := the_cat;
        Preprocessing.info_length := 19 |}] [] =
    (Raise KeyError,
     [EvPropose the_cat (Decoded proposal_without_confidence)]) /\
  (let run := run_correction unsure_model no_str_confidence 9
                (OfProcessSentence 19) the_cat [] in
   exists e,
     fst run = Ok e /\
     view_qa_concerns e = failed_concerns /\
     count is_propose (snd run) = 8 /\
     count is_qa (snd run) = 0).
Proof.
  split; [vm_compute; reflexivity|].
  split; [vm_compute; reflexivity|].
  cbv zeta.
  destruct (run_correction unsure_model no_str_confidence 9
              (OfProcessSentence 19) the_cat []) as [o t'] eqn:Hrun.
  vm_compute in Hrun. injection Hrun as <- <-.
  eexists. repeat split; reflexivity.
Qed.

(** ** The inner QA loop *)

Section InnerLoop.
Variable model : llm.
Variable original_sentence : str.

(** A verdict that has the three fields ends the inner loop. *)
Lemma qa_body_stops_on_verdict v t c cs q :
  Correct.correction v = Some c ->
  py_getitem c k_corrected_sentence = Ok cs ->
  validator model (List.length t) original_sentence cs = Decoded q ->
  has_verdict_keys q = Ok true ->
  match Correct.qa_body model original_sentence v t with
  | (Ok (Continue _), _) => False
  | (_, t') => t' = t ++ [EvQA original_sentence cs (Decoded q)]
  end.
Proof.
  intros Hc Hcs Hq Hkeys.
  unfold Correct.qa_body, Correct.quality_assurance_check,
    bind, ask, lift, ret.
  rewrite Hc. cbn [read]. rewrite Hcs, Hq, Hkeys.
  destruct (verdict_holds q) as [[|]| |]; reflexivity.
Qed.

(** As long as the fields are missing the loop goes on, whatever the
    fuel: [num_attempts] stays at 0. *)
Lemma qa_loop_never_stops c cs :
  py_getitem c k_corrected_sentence = Ok cs ->
  (forall n, exists q,
      validator model n original_sentence cs = Decoded q /\
      has_verdict_keys q = Ok false) ->
  forall fuel v t,
    Correct.correction v = Some c ->
    Correct.num_attempts v = 0 ->
    Correct.qa_yielded_result v = false ->
    let run := while_ fuel Correct.qa_cond
                 (Correct.qa_body model original_sentence) v t in
    fst run = OutOfFuel /\
    count is_qa (snd run) = count is_qa t + Z.of_nat fuel.
Proof.
  intros Hcs Hbad. cbv zeta.
  induction fuel as [|fuel IH]; intros v t Hc Hn Hy.
  - cbn. split; [reflexivity|lia].
  - rewrite while_unfold. unfold Correct.qa_cond at 1 3.
    rewrite Hn. cbn [Z.ltb Z.compare Correct.max_qa_attempts].
    destruct (Hbad (List.length t)) as (q & Hq & Hkeys).
    assert (Hbody : Correct.qa_body model original_sentence v t =
              (Ok (Continue (Correct.set_qa_result q v)),
               t ++ [EvQA original_sentence cs (Decoded q)])).
    { unfold Correct.qa_body, Correct.quality_assurance_check,
        bind, ask, lift, ret.
      rewrite Hc. cbn [read]. rewrite Hcs, Hq, Hkeys.
      cbn [Correct.qa_yielded_result Correct.set_qa_result].
      rewrite Hy. reflexivity. }
    rewrite Hbody.
    destruct (IH (Correct.set_qa_result q v)
                (t ++ [EvQA original_sentence cs (Decoded q)]))
      as [Hout Hcount]; try assumption.
    split; [assumption|].
    rewrite Hcount, count_snoc. cbn [is_qa]. lia.
Qed.

(** Then the pass of the outer loop that made the proposal does not end
    either. *)
Lemma outer_body_never_ends float_of_str fuel v t c conf f cs :
  proposer model (List.length t) original_sentence = Decoded c ->
  py_getitem c k_confidence = Ok conf ->
  py_float float_of_str conf = Ok f ->
  float_le f half = false ->
  py_getitem c k_corrected_sentence = Ok cs ->
  (forall n, exists q,
      validator model n original_sentence cs = Decoded q /\
      has_verdict_keys q = Ok false) ->
  let run := Correct.outer_body model float_of_str fuel original_sentence
               v t in
  fst run = OutOfFuel /\
  count is_qa (snd run) = count is_qa t + Z.of_nat fuel.
Proof.
  intros Hp Hconf Hf Hhigh Hcs Hbad. cbv zeta.
  unfold Correct.outer_body, Correct.grammar_correct_proposal,
    bind, ask, lift, ret.
  rewrite Hp, Hconf, Hf, Hhigh.
  match goal with
  | |- context [while_ fuel Correct.qa_cond ?b ?v1 ?t1] =>
      destruct (qa_loop_never_stops c cs Hcs Hbad fuel v1 t1
                  eq_refl eq_refl eq_refl) as [Hout Hcount];
      destruct (while_ fuel Correct.qa_cond b v1 t1) as [o t']
  end.
  cbn [fst snd] in Hout, Hcount. subst o. cbn [fst snd].
  split; [reflexivity|].
  rewrite Hcount, count_snoc. cbn [is_qa]. lia.
Qed.

End InnerLoop.

(** C3, where the code departs from it.  With a validator that keeps
    leaving the fields out, the inner loop is still running after any
    number of QA calls: for every fuel it is cut off with as many QA calls
    made, so more than 5, and [grammar_correction_main] does not return. *)
Theorem C3_inner_loop_never_stops (fuel : nat) :
  (let v := Correct.set_qa_yielded_result false
              (Correct.set_num_attempts 0
                 (Correct.set_correction confident_proposal
                    Correct.unassigned)) in
   let run := while_ fuel Correct.qa_cond
                (Correct.qa_body malformed_qa_model the_cat) v [] in
   fst run = OutOfFuel /\ count is_qa (snd run) = Z.of_nat fuel) /\
  (let run := Correct.grammar_correction_main malformed_qa_model
                no_str_confidence (S fuel)
                [{| Preprocessing.info_sentence := the_cat;
                    Preprocessing.info_length := 19 |}] [] in
   fst run = OutOfFuel /\ count is_qa (snd run) = Z.of_nat (S fuel)).
Proof.
  assert (Hbad : forall n : nat, exists q,
             validator malformed_qa_model n the_cat (JStr the_cat_corrected)
               = Decoded q /\ has_verdict_keys q = Ok false).
  { intros n. exists (JObj []). split; reflexivity. }
  split.
  - cbv zeta.
    apply (qa_loop_never_stops malformed_qa_model the_cat
             confident_proposal (JStr the_cat_corrected) eq_refl Hbad fuel);
      reflexivity.
  - cbv zeta.
    pose proof (outer_body_never_ends malformed_qa_model the_cat
                  no_str_confidence (S fuel)
                  (Correct.set_attempt 0
                     (Correct.set_QA_passed false Correct.unassigned))
                  [] confident_proposal (JNum (9 # 10)) (Fin (9 # 10))
                  (JStr the_cat_corrected)
                  eq_refl eq_refl eq_refl eq_refl eq_refl Hbad) as Hbody.
    cbv zeta in Hbody.
    unfold Correct.grammar_correction_main.
    cbn [Correct.for_sentences Preprocessing.info_sentence].
    unfold Correct.correct_sentence, bind.
    rewrite while_unfold.
    change (Correct.outer_cond
              (Correct.set_attempt 0
                 (Correct.set_QA_passed false Correct.unassigned)))
      with (@Ok bool true).
    cbv beta iota.
    destruct (Correct.outer_body malformed_qa_model no_str_confidence
                (S fuel) the_cat _ []) as [o t'].
    cbn [fst snd] in Hbody. destruct Hbody as [-> Hcount].
    cbn [fst snd]. split; [reflexivity|exact Hcount].
Qed.

(** ** The segmentation loop *)

Lemma extractions_app a b : extractions (a ++ b) = extractions a ++ extractions b.
Proof.
  induction a as [|e a IH]; simpl; [reflexivity|].
  destruct e; simpl; rewrite ?IH; reflexivity.
Qed.

Lemma attempts_on_S document n :
  attempts_on document (S n) =
  attempts_on document n ++ [(document, bound_of_attempt n)].
Proof.
  unfold attempts_on. rewrite seq_S, map_app. reflexivity.
Qed.

Lemma bound_of_attempt_S n :
  bound_of_attempt n + 200 = bound_of_attempt (S n).
Proof. unfold bound_of_attempt. lia. Qed.

Section SegmentationLoop.
Variable model : llm.
Variable document : str.
Variable t0 : trace.

Lemma seg_body_step v t :
  seg_inv model document t0 v t ->
  Preprocessing.seg_cond v = Ok true ->
  match Preprocessing.seg_body model document v t with
  | (Ok (Continue v'), t') => seg_inv model document t0 v' t'
  | (Ok (Break v'), t') => seg_post model document t0 (Ok v') t'
  | (Raise e, t') => seg_post model document t0 (Raise e) t'
  | (OutOfFuel, t') => seg_post model document t0 OutOfFuel t'
  end.
Proof.
  intros (new & n & Ht & Hat & Hn & Hb & Hex & Hlast) Hc.
  unfold Preprocessing.seg_cond, obind in Hc.
  destruct (py_getitem (Preprocessing.verification v) k_is_valid)
    as [b| |]; try discriminate.
  injection Hc as Hc. apply andb_true_iff in Hc. destruct Hc as [_ Hc].
  apply Z.ltb_lt in Hc. unfold Preprocessing.max_attempts in Hc.
  assert (Hn' : (S n <= 5)%nat) by lia.
  unfold Preprocessing.seg_body, Preprocessing.extract_sentence_from_queue,
    Preprocessing.double_check_preprocessing, bind, ask, ret, raise.
  rewrite Hb. subst t.
  destruct (extractor model (List.length (t0 ++ new))
              (slice_to document (bound_of_attempt n))) as [content|] eqn:He.
  - destruct (Preprocessing.locate (slice_to document (bound_of_attempt n))
                content) as [s e] eqn:Hloc.
    assert (Hex' : forall rv,
               extractions
                 (new ++ [EvExtract document (bound_of_attempt n) (Some content);
                          EvVerify s rv]) = attempts_on document (S n)).
    { intros rv. rewrite extractions_app, Hex, attempts_on_S. reflexivity. }
    assert (Hl : forall rv,
               last_attempt model document n s e
                 (new ++ [EvExtract document (bound_of_attempt n) (Some content);
                          EvVerify s rv])).
    { intros rv. exists new, content, rv. split; [reflexivity|].
      split; [eexists; eassumption|]. symmetry. assumption. }
    destruct (verifier model _ s) as [j| | |] eqn:Hv;
      rewrite <- !app_assoc; cbn [app].
    + eexists; exists (S n). split; [reflexivity|].
      cbn [Preprocessing.attempt Preprocessing.sentence
           Preprocessing.end_index
           Preprocessing.initial_sentence_length_upper_bound].
      rewrite bound_of_attempt_S.
      repeat split; try lia; try apply Hex'.
      exists s, e. repeat split. apply Hl.
    + eexists; exists (S n). split; [reflexivity|].
      cbn [Preprocessing.attempt Preprocessing.sentence
           Preprocessing.end_index
           Preprocessing.initial_sentence_length_upper_bound].
      rewrite bound_of_attempt_S.
      repeat split; try lia; try apply Hex'.
      exists s, e. repeat split. apply Hl.
    + eexists; exists (S n). split; [reflexivity|].
      cbn [Preprocessing.attempt Preprocessing.sentence
           Preprocessing.end_index
           Preprocessing.initial_sentence_length_upper_bound].
      rewrite bound_of_attempt_S.
      repeat split; try lia; try apply Hex'.
      exists s, e. repeat split. apply Hl.
    + eexists; exists (S n). split; [reflexivity|].
      split; [assumption|]. split; [apply Hex'|exact I].
  - rewrite <- app_assoc.
    eexists; exists (S n). split; [reflexivity|].
    split; [assumption|]. split; [|exact I].
    rewrite extractions_app, Hex, attempts_on_S. reflexivity.
Qed.

Lemma seg_while_spec fuel :
  let run := while_ fuel Preprocessing.seg_cond
               (Preprocessing.seg_body model document)
               Preprocessing.seg_init t0 in
  seg_post model document t0 (fst run) (snd run).
Proof.
  cbv zeta. apply while_rule with (I := seg_inv model document t0).
  - intros v t (new & n & Ht & Hat & Hn & Hb & Hex & Hlast) Hc.
    exists new, n. split; [assumption|]. split; [assumption|].
    split; [assumption|].
    unfold Preprocessing.seg_cond, obind in Hc.
    destruct n as [|m].
    + rewrite Hlast, Hat in Hc. discriminate Hc.
    + destruct Hlast as (s & e & Hs & He & Hl).
      exists m, s, e. repeat split; try assumption.
      intros Hfalse. unfold field_true in Hfalse.
      destruct (py_getitem (Preprocessing.verification v) k_is_valid)
        as [b| |]; try discriminate.
      rewrite Hfalse in Hc. injection Hc as Hc. cbn [negb andb] in Hc.
      apply Z.ltb_ge in Hc. unfold Preprocessing.max_attempts in Hc. lia.
  - intros v t e (new & n & Ht & Hat & Hn & Hb & Hex & Hlast) Hc.
    exists new, n. repeat split; assumption.
  - intros v t (new & n & Ht & Hat & Hn & Hb & Hex & Hlast).
    exists new, n. repeat split; assumption.
  - apply seg_body_step.
  - exists [], O. rewrite app_nil_r. repeat split. lia.
Qed.

Lemma seg_while_terminates fuel t :
  (5 < fuel)%nat ->
  fst (while_ fuel Preprocessing.seg_cond
         (Preprocessing.seg_body model document) Preprocessing.seg_init t)
  <> OutOfFuel.
Proof.
  intros Hfuel.
  apply while_enough_fuel
    with (I := fun v _ => Preprocessing.attempt v <= 5)
         (mu := fun v => Z.to_nat (5 - Preprocessing.attempt v)).
  - intros v. unfold Preprocessing.seg_cond, obind.
    destruct (py_getitem (Preprocessing.verification v) k_is_valid) eqn:H;
      try discriminate.
    intros _. eapply py_getitem_returns. eassumption.
  - intros v t' Hhi Hc. unfold Preprocessing.seg_cond, obind in Hc.
    destruct (py_getitem (Preprocessing.verification v) k_is_valid)
      as [b| |]; try discriminate.
    injection Hc as Hc. apply andb_true_iff in Hc. destruct Hc as [_ Hc].
    apply Z.ltb_lt in Hc. unfold Preprocessing.max_attempts in Hc.
    unfold Preprocessing.seg_body, Preprocessing.extract_sentence_from_queue,
      Preprocessing.double_check_preprocessing, bind, ask, ret, raise.
    repeat case_step; try discriminate; try exact I;
      cbn [Preprocessing.attempt]; split; lia.
  - simpl. lia.
  - simpl. lia.
Qed.

End SegmentationLoop.

Section Segmentation.
Variable model : llm.

(** What [segmentation_loop] has done when it ends, however it ends. *)
Lemma segmentation_loop_spec fuel document t :
  let run := Preprocessing.segmentation_loop model fuel document t in
  exists new n,
    snd run = t ++ new /\
    (n <= 5)%nat /\
    extractions new = attempts_on document n /\
    forall s e ver, fst run = Ok (s, e, ver) ->
      exists m,
        n = S m /\
        last_attempt model document m s e new /\
        (field_true ver k_is_valid = false -> n = 5%nat).
Proof.
  cbv zeta.
  pose proof (seg_while_spec model document t fuel) as Hloop.
  cbv zeta in Hloop.
  unfold Preprocessing.segmentation_loop, bind, lift, ret.
  destruct (while_ fuel Preprocessing.seg_cond _ Preprocessing.seg_init t)
    as [o t1].
  cbn [fst snd] in Hloop.
  destruct Hloop as (new & n & Ht & Hn & Hex & Hst).
  exists new, n.
  destruct o as [v| |]; cbn [fst snd];
    try (repeat split; try assumption; discriminate).
  destruct Hst as (m & s & e & -> & Hs & He & Hl & Hall).
  rewrite Hs, He. cbn [read].
  destruct (py_getitem (Preprocessing.verification v) k_is_valid);
    cbn [fst snd]; try (repeat split; try assumption; discriminate).
  repeat split; try assumption.
  intros s' e' ver H. injection H as <- <- <-.
  exists m. repeat split; assumption.
Qed.

Lemma segmentation_loop_returns fuel document t :
  (5 < fuel)%nat ->
  fst (Preprocessing.segmentation_loop model fuel document t) <> OutOfFuel.
Proof.
  intros Hfuel.
  pose proof (seg_while_terminates model document fuel t Hfuel) as Hloop.
  unfold Preprocessing.segmentation_loop, bind, lift, ret.
  destruct (while_ fuel Preprocessing.seg_cond _ Preprocessing.seg_init t)
    as [o t1].
  cbn [fst] in Hloop.
  destruct o as [v| |]; cbn [fst]; try discriminate; [|contradiction].
  destruct (py_getitem (Preprocessing.verification v) k_is_valid) eqn:H1;
    cbn [fst]; try discriminate; try no_fuel.
  destruct (read (Preprocessing.sentence v)) eqn:H2;
    cbn [fst]; try discriminate; try no_fuel.
  destruct (read (Preprocessing.end_index v)) eqn:H3;
    cbn [fst]; try discriminate; try no_fuel.
Qed.

End Segmentation.

(** C7.  The segmentation loop asks for a sentence with the bounds 500,
    700, 900, ... (200 more after each attempt that is not verified), makes
    at most 5 attempts, is not cut off, and returns the sentence and the
    end index of its last attempt; when no attempt was verified that is the
    fifth attempt, with the verification still false. *)
Theorem C7_segmentation_loop (model : llm) (fuel : nat) (document : str)
    (t : trace) :
  let run := Preprocessing.segmentation_loop model fuel document t in
  exists new n,
    snd run = t ++ new /\
    (n <= 5)%nat /\
    extractions new =
      map (fun k => (document, 500 + 200 * Z.of_nat k)) (seq 0 n) /\
    (forall s e ver, fst run = Ok (s, e, ver) ->
       exists m,
         n = S m /\
         last_attempt model document m s e new /\
         (field_true ver k_is_valid = false -> n = 5%nat)) /\
    ((5 < fuel)%nat -> fst run <> OutOfFuel).
Proof.
  cbv zeta.
  destruct (segmentation_loop_spec model fuel document t)
    as (new & n & Hsnd & Hn & Hex & Hok).
  exists new, n. repeat split; try assumption.
  apply segmentation_loop_returns.
Qed.

Lemma C7_segmentation_loop_witness :
  let run := Preprocessing.segmentation_loop doubtful_model 6 the_cat [] in
  exists s e ver,
    fst run = Ok (s, e, ver) /\
    field_true ver k_is_valid = false /\
    extractions (snd run) =
      [(the_cat, 500); (the_cat, 700); (the_cat, 900); (the_cat, 1100);
       (the_cat, 1300)] /\
    last_attempt doubtful_model the_cat 4 s e (snd run).
Proof.
  cbv zeta.
  destruct (C7_segmentation_loop doubtful_model 6 the_cat [])
    as (new & n & Hsnd & Hn & Hex & Hok & Hfuel).
  cbv zeta in Hsnd, Hex, Hok, Hfuel.
  destruct (Preprocessing.segmentation_loop doubtful_model 6 the_cat [])
    as [o t'] eqn:Hrun.
  vm_compute in Hrun. injection Hrun as <- <-.
  cbn [fst snd app] in Hsnd, Hok |- *. subst new.
  do 3 eexists. split; [reflexivity|]. split; [reflexivity|].
  split; [reflexivity|].
  destruct (Hok _ _ _ eq_refl) as (m & Hm & Hl & Hall).
  specialize (Hall eq_refl). subst n. injection Hall as <-.
  exact Hl.
Defined.

(** ** Extraction *)

Lemma starts_with_length sub s :
  starts_with sub s = true -> len sub <= len s.
Proof.
  revert s. induction sub as [|a sub IH]; intros [|b s] H; simpl in *.
  - unfold len; simpl; lia.
  - unfold len; simpl; lia.
  - discriminate.
  - apply andb_true_iff in H. destruct H as [_ H]. apply IH in H.
    unfold len in *. simpl. lia.
Qed.

(** An index that [find] returns is that of a place where the searched
    text fits. *)
Lemma find_from_range sub s i :
  find_from sub s i = -1 \/
  (i <= find_from sub s i /\ find_from sub s i - i + len sub <= len s).
Proof.
  revert i. induction s as [|c s IH]; intros i.
  - simpl. destruct sub; [right; unfold len; simpl; lia | left; reflexivity].
  - cbn [find_from]. destruct (starts_with sub (c :: s)) eqn:Hs.
    + right. apply starts_with_length in Hs. lia.
    + destruct (IH (i + 1)) as [H|[H1 H2]]; [left; assumption|right].
      unfold len in *. simpl List.length. lia.
Qed.

Lemma slice_to_length {A : Type} (s : list A) n :
  len (slice_to s n) <= len s.
Proof.
  unfold slice_to, len. destruct (n <? 0); rewrite length_firstn; lia.
Qed.

Lemma slice_from_length {A : Type} (s : list A) n :
  0 <= n <= len s -> len (slice_from s n) = len s - n.
Proof.
  intros Hn. unfold slice_from, len in *.
  destruct (Z.ltb_spec n 0); [lia|]. rewrite length_skipn. lia.
Qed.

(** The end index that [locate] gives is within the chunk. *)
Lemma locate_range chunk content :
  0 <= snd (Preprocessing.locate chunk content) <= len chunk.
Proof.
  unfold Preprocessing.locate, find.
  destruct (find_from_range (strip content) chunk 0) as [H|[H1 H2]].
  - rewrite H. cbn. pose proof (len_nonneg chunk). lia.
  - destruct (Z.eqb_spec (find_from (strip content) chunk 0) (-1));
      cbn [snd]; pose proof (len_nonneg chunk);
      pose proof (len_nonneg (strip content)); lia.
Qed.

Lemma starts_with_spec sub s :
  starts_with sub s = true <-> exists post, s = sub ++ post.
Proof.
  revert s. induction sub as [|a sub IH]; intros s.
  - simpl. split; [intros _; exists s; reflexivity|reflexivity].
  - destruct s as [|b s]; simpl.
    + split; [discriminate|]. intros [post H]. discriminate H.
    + rewrite andb_true_iff, N.eqb_eq, IH. split.
      * intros [-> [post ->]]. exists post. reflexivity.
      * intros [post H]. injection H as -> ->. split; [reflexivity|].
        exists post. reflexivity.
Qed.

(** [find] returns [-1] exactly when the text occurs nowhere. *)
Lemma find_from_none sub s i :
  0 <= i ->
  (find_from sub s i = -1 <-> ~ exists pre post, s = pre ++ sub ++ post).
Proof.
  revert i. induction s as [|c s IH]; intros i Hi.
  - simpl. destruct sub as [|a sub].
    + split; [lia|]. intros H. exfalso. apply H. exists [], []. reflexivity.
    + split; [|reflexivity]. intros _ (pre & post & H).
      destruct pre; discriminate H.
  - cbn [find_from]. destruct (starts_with sub (c :: s)) eqn:Hs.
    + split; [lia|]. intros H. exfalso. apply H.
      apply starts_with_spec in Hs. destruct Hs as [post Hpost].
      exists [], post. exact Hpost.
    + rewrite IH by lia. split.
      * intros Hno (pre & post & H). destruct pre as [|p pre].
        -- assert (Hyes : starts_with sub (c :: s) = true)
             by (apply starts_with_spec; exists post; exact H).
           congruence.
        -- injection H as _ H. apply Hno. exists pre, post. exact H.
      * intros Hno (pre & post & H). apply Hno.
        exists (c :: pre), post. rewrite H. reflexivity.
Qed.

Lemma find_none s sub :
  find s sub = -1 <-> ~ exists pre post, s = pre ++ sub ++ post.
Proof. apply find_from_none. lia. Qed.

(** C8.  When the sentence that the extractor returned, stripped, occurs
    nowhere in the chunk, [extract_sentence_from_queue] does not raise: it
    returns that sentence with the length of the chunk as end index. *)
Theorem C8_drift_consumes_chunk (model : llm) (text : str) (max_chunk : Z)
    (t : trace) (content : str) :
  let chunk := slice_to text max_chunk in
  extractor model (List.length t) chunk = Some content ->
  (~ exists pre post, chunk = pre ++ strip content ++ post) ->
  Preprocessing.extract_sentence_from_queue model text max_chunk t =
    (Ok (strip content, len chunk),
     t ++ [EvExtract text max_chunk (Some content)]).
Proof.
  cbv zeta. intros He Hno. apply find_none in Hno.
  unfold Preprocessing.extract_sentence_from_queue, bind, ask, ret.
  rewrite He. unfold Preprocessing.locate. rewrite Hno. reflexivity.
Qed.

Lemma C8_drift_consumes_chunk_witness :
  (~ exists pre post,
       slice_to the_cat 500 =
       pre ++ strip (str_of "A cat sat on a mat.") ++ post) /\
  fst (Preprocessing.extract_sentence_from_queue drifting_model the_cat 500 [])
    = Ok (str_of "A cat sat on a mat.", 19).
Proof.
  assert (Hno : ~ exists pre post,
                    slice_to the_cat 500 =
                    pre ++ strip (str_of "A cat sat on a mat.") ++ post).
  { apply find_none. vm_compute. reflexivity. }
  split; [exact Hno|].
  rewrite (C8_drift_consumes_chunk drifting_model the_cat 500 []
             (str_of "A cat sat on a mat.") eq_refl Hno).
  vm_compute. reflexivity.
Defined.

(** ** The document drivers *)

Lemma slice_from_slice_from {A : Type} (s : list A) a b :
  0 <= a -> 0 <= b -> slice_from (slice_from s a) b = slice_from s (a + b).
Proof.
  intros Ha Hb. unfold slice_from.
  destruct (Z.ltb_spec a 0); [lia|]. destruct (Z.ltb_spec b 0); [lia|].
  destruct (Z.ltb_spec (a + b) 0); [lia|].
  rewrite skipn_skipn. f_equal. lia.
Qed.

Lemma slice_to_nonempty {A : Type} (s : list A) n :
  s <> [] -> 1 <= n -> slice_to s n <> [].
Proof.
  intros Hs Hn. unfold slice_to. destruct (Z.ltb_spec n 0); [lia|].
  destruct s as [|a s]; [contradiction|].
  destruct (Z.to_nat n) as [|k] eqn:Hk; [lia|]. discriminate.
Qed.

Lemma len_pos {A : Type} (s : list A) : s <> [] -> 1 <= len s.
Proof. destruct s; [contradiction|]. intros _. unfold len. simpl. lia. Qed.

Lemma strip_nonempty s : strip s <> [] -> s <> [].
Proof. intros H ->. apply H. reflexivity. Qed.

Lemma bound_of_attempt_pos m : 1 <= bound_of_attempt m.
Proof. unfold bound_of_attempt. lia. Qed.

(** Some text that is found, or not found, in a chunk that is not empty
    ends at index 1 at least. *)
Lemma locate_progress chunk content :
  chunk <> [] -> strip content <> [] ->
  1 <= snd (Preprocessing.locate chunk content).
Proof.
  intros Hc Hs. unfold Preprocessing.locate, find.
  pose proof (len_pos _ Hc). pose proof (len_pos _ Hs).
  destruct (find_from_range (strip content) chunk 0) as [H1|[H1 H2]].
  - rewrite H1. cbn. assumption.
  - destruct (Z.eqb_spec (find_from (strip content) chunk 0) (-1));
      cbn [snd]; lia.
Qed.

Section Driver.
Variable model : llm.
Variable float_of_str : str -> option pyfloat.

(** The end index that the segmentation loop returns is within the
    document, and past its first character when the extractor is
    responsive. *)
Lemma segmentation_loop_range fuel document t s e ver t' :
  Preprocessing.segmentation_loop model fuel document t = (Ok (s, e, ver), t') ->
  0 <= e <= len document /\
  (responsive model -> document <> [] -> 1 <= e).
Proof.
  intros Hrun.
  destruct (segmentation_loop_spec model fuel document t)
    as (new & n & _ & _ & _ & Hok).
  rewrite Hrun in Hok. cbn [fst] in Hok.
  destruct (Hok s e ver eq_refl)
    as (m & _ & (pre & content & rv & _ & (k & Hk) & Hloc) & _).
  assert (He : e = snd (Preprocessing.locate
                          (slice_to document (bound_of_attempt m)) content))
    by (rewrite <- Hloc; reflexivity).
  split.
  - pose proof (locate_range (slice_to document (bound_of_attempt m)) content).
    pose proof (slice_to_length document (bound_of_attempt m)). lia.
  - intros Hresp Hdoc. rewrite He. apply locate_progress.
    + apply slice_to_nonempty; [assumption|apply bound_of_attempt_pos].
    + eapply Hresp. eassumption.
Qed.

Lemma process_sentence_range fuel document t r rest e t' :
  Main.process_sentence model float_of_str fuel document t
    = (Ok (r, rest, e), t') ->
  rest = slice_from document e /\
  0 <= e <= len document /\
  (responsive model -> document <> [] -> 1 <= e).
Proof.
  unfold Main.process_sentence, bind at 1.
  destruct (Preprocessing.segmentation_loop model fuel document t)
    as [[[[s e0] ver]| |] t1] eqn:Hseg; try discriminate.
  unfold bind, ret.
  destruct (Main.correct_sentence model float_of_str fuel s
              (Preprocessing.calculate_sentence_length s) t1)
    as [[[r0 v]| |] t2]; try discriminate.
  intros H. injection H as <- <- <- <-.
  split; [reflexivity|].
  eapply segmentation_loop_range. eassumption.
Qed.

Lemma process_sentence_returns fuel document t :
  (8 < fuel)%nat ->
  fst (Main.process_sentence model float_of_str fuel document t) <> OutOfFuel.
Proof.
  intros Hfuel.
  unfold Main.process_sentence, bind at 1.
  pose proof (segmentation_loop_returns model fuel document t) as Hseg.
  destruct (Preprocessing.segmentation_loop model fuel document t)
    as [[[[s e0] ver]| |] t1]; cbn [fst] in *; try discriminate;
    [|exfalso; apply Hseg; [lia|reflexivity]].
  unfold bind, ret.
  pose proof (process_sentence_correction_returns model float_of_str fuel s
                (Preprocessing.calculate_sentence_length s) t1 Hfuel) as Hc.
  unfold run_correction, bind, ret in Hc.
  destruct (Main.correct_sentence model float_of_str fuel s
              (Preprocessing.calculate_sentence_length s) t1)
    as [[[r0 v]| |] t2]; cbn [fst] in *; try discriminate.
  contradiction.
Qed.

(** One pass of the driver of [main] moves the cursor by the end index that
    [process_sentence] returned. *)
Lemma main_body_step doc fuel v t :
  cursor_inv doc v ->
  match Main.main_body model float_of_str fuel v t with
  | (Ok (Continue v'), _) =>
      cursor_inv doc v' /\
      exists e, 0 <= e <= len (Main.document v) /\
        Main.document v' = slice_from (Main.document v) e /\
        Main.chars_processed v' = Main.chars_processed v + e /\
        (responsive model -> Main.document v <> [] -> 1 <= e)
  | (Ok (Break _), _) => False
  | _ => True
  end.
Proof.
  intros (Hrange & Hdoc & Hcount).
  unfold Main.main_body, bind, lift, ret.
  destruct (Main.process_sentence model float_of_str fuel (Main.document v) t)
    as [[[[r rest] e]| |] t1] eqn:Hp; try exact I.
  destruct (Main.write_entry r) as [[]| |]; try exact I.
  apply process_sentence_range in Hp. destruct Hp as (Hrest & He & Hprog).
  split.
  - unfold cursor_inv. cbn [Main.chars_processed Main.document
      Main.sentence_count Main.progress_log].
    rewrite Hdoc in He. rewrite slice_from_length in He by lia.
    split; [lia|]. split.
    + rewrite Hrest, Hdoc. apply slice_from_slice_from; lia.
    + rewrite len_app, Hcount. reflexivity.
  - exists e. cbn [Main.chars_processed Main.document]. repeat split;
      try assumption; lia.
Qed.

(** When the driver of [main] ends, what it consumed and what is left make
    up the document, and what is left is white space. *)
Lemma main_loop_spec fuel doc t v t' :
  Main.main_loop model float_of_str fuel doc t = (Ok v, t') ->
  cursor_inv doc v /\ strip (Main.document v) = [].
Proof.
  intros Hrun.
  pose proof (while_rule Main.main_cond (Main.main_body model float_of_str fuel)
                (fun v _ => cursor_inv doc v)
                (fun o _ => match o with
                            | Ok v => cursor_inv doc v /\
                                      strip (Main.document v) = []
                            | _ => True
                            end)) as Hrule.
  unfold Main.main_loop in Hrun.
  specialize (Hrule
    ltac:(intros s t1 Hinv Hc; split; [assumption|];
          unfold Main.main_cond in Hc;
          destruct (strip (Main.document s)); [reflexivity|discriminate])
    ltac:(intros; exact I)
    ltac:(intros; exact I)).
  assert (Hbody : forall s t1, cursor_inv doc s ->
            Main.main_cond s = Ok true ->
            match Main.main_body model float_of_str fuel s t1 with
            | (Ok (Continue s'), _) => cursor_inv doc s'
            | (Ok (Break s'), _) =>
                cursor_inv doc s' /\ strip (Main.document s') = []
            | _ => True
            end).
  { intros s t1 Hinv _. pose proof (main_body_step doc fuel s t1 Hinv) as H.
    destruct (Main.main_body model float_of_str fuel s t1)
      as [[[s'|s']| |] t2]; try exact I; [apply H|contradiction]. }
  specialize (Hrule Hbody fuel (Main.main_init doc) t).
  rewrite Hrun in Hrule. cbn [fst snd] in Hrule. apply Hrule.
  unfold cursor_inv, Main.main_init. cbn.
  pose proof (len_nonneg doc). repeat split; try lia.
Qed.

(** With a responsive extractor the driver of [main] is not cut off when
    its fuel covers the length of the document. *)
Lemma main_loop_returns fuel doc t :
  responsive model ->
  (9 + List.length doc <= fuel)%nat ->
  fst (Main.main_loop model float_of_str fuel doc t) <> OutOfFuel.
Proof.
  intros Hresp Hfuel. unfold Main.main_loop.
  apply while_enough_fuel
    with (I := fun v _ => cursor_inv doc v)
         (mu := fun v => List.length (Main.document v)).
  - intros v. discriminate.
  - intros v t1 Hinv Hc.
    pose proof (main_body_step doc fuel v t1 Hinv) as Hstep.
    pose proof (process_sentence_returns fuel (Main.document v) t1) as Hret.
    unfold Main.main_body, bind, lift, ret in Hstep |- *.
    destruct (Main.process_sentence model float_of_str fuel
                (Main.document v) t1) as [[[[r rest] e]| |] t2];
      cbn [fst] in Hret; try exact I; [|exfalso; apply Hret; [lia|reflexivity]].
    destruct (Main.write_entry r) as [[]| |] eqn:Hwrite; try exact I;
      [|exact (write_entry_returns _ Hwrite)].
    destruct Hstep as (Hinv' & e' & He' & Hd' & _ & Hprog).
    split; [assumption|].
    cbn [Main.document] in Hd' |- *.
    assert (Hne : Main.document v <> []).
    { unfold Main.main_cond in Hc. apply strip_nonempty.
      destruct (strip (Main.document v)); discriminate. }
    specialize (Hprog Hresp Hne).
    pose proof (slice_from_length (Main.document v) e' He') as Hlen.
    rewrite <- Hd' in Hlen. unfold len in Hlen. lia.
  - unfold cursor_inv, Main.main_init. cbn.
    pose proof (len_nonneg doc). repeat split; try lia.
  - cbn. lia.
Qed.

End Driver.

Section PreprocessingDriver.
Variable model : llm.

(** When the document loop of [preprocessing_main] ends, its document is
    what is left of the input after some prefix, and strips to fewer than
    3 characters. *)
Lemma pre_loop_spec fuel doc t v t' :
  while_ fuel Preprocessing.pre_cond (Preprocessing.pre_body model fuel)
    {| Preprocessing.pre_document := doc; Preprocessing.pre_results := [] |} t
    = (Ok v, t') ->
  suffix_inv doc v /\ len (strip (Preprocessing.pre_document v)) < 3.
Proof.
  intros Hrun.
  pose proof (while_rule Preprocessing.pre_cond
                (Preprocessing.pre_body model fuel)
                (fun v _ => suffix_inv doc v)
                (fun o _ => match o with
                            | Ok v =>
                                suffix_inv doc v /\
                                len (strip (Preprocessing.pre_document v)) < 3
                            | _ => True
                            end)) as Hrule.
  specialize (Hrule
    ltac:(intros s t1 Hinv Hc; split; [assumption|];
          unfold Preprocessing.pre_cond in Hc;
          destruct (strip (Preprocessing.pre_document s));
          [reflexivity|discriminate])
    ltac:(intros; exact I)
    ltac:(intros; exact I)).
  assert (Hbody : forall s t1, suffix_inv doc s ->
            Preprocessing.pre_cond s = Ok true ->
            match Preprocessing.pre_body model fuel s t1 with
            | (Ok (Continue s'), _) => suffix_inv doc s'
            | (Ok (Break s'), _) =>
                suffix_inv doc s' /\
                len (strip (Preprocessing.pre_document s')) < 3
            | _ => True
            end).
  { intros s t1 (n & Hn & Hdoc) _.
    unfold Preprocessing.pre_body, bind, ret.
    destruct (Preprocessing.segmentation_loop model fuel
                (Preprocessing.pre_document s) t1)
      as [[[[x e] ver]| |] t2] eqn:Hseg; try exact I.
    apply segmentation_loop_range in Hseg. destruct Hseg as [He _].
    cbn [Preprocessing.pre_document].
    assert (Hsuf : suffix_inv doc
              {| Preprocessing.pre_document :=
                   slice_from (Preprocessing.pre_document s) e;
                 Preprocessing.pre_results :=
                   Preprocessing.pre_results s ++
                   [{| Preprocessing.info_sentence := x;
                       Preprocessing.info_length :=
                         Preprocessing.calculate_sentence_length x |}] |}).
    { exists (n + e). cbn [Preprocessing.pre_document].
      rewrite Hdoc in He |- *. rewrite slice_from_length in He by lia.
      split; [lia|]. apply slice_from_slice_from; lia. }
    destruct (Z.ltb_spec
                (len (strip (slice_from (Preprocessing.pre_document s) e))) 3).
    - split; assumption.
    - assumption. }
  specialize (Hrule Hbody fuel
                {| Preprocessing.pre_document := doc;
                   Preprocessing.pre_results := [] |} t).
  rewrite Hrun in Hrule. cbn [fst snd] in Hrule. apply Hrule.
  exists 0. cbn. pose proof (len_nonneg doc). split; [lia|reflexivity].
Qed.

Lemma extract_range text max_chunk t s e t' :
  Preprocessing.extract_sentence_from_queue model text max_chunk t
    = (Ok (s, e), t') ->
  0 <= e <= len text /\
  (responsive model -> text <> [] -> 1 <= max_chunk -> 1 <= e).
Proof.
  unfold Preprocessing.extract_sentence_from_queue, bind, ask, ret, raise.
  destruct (extractor model (List.length t) (slice_to text max_chunk))
    as [content|] eqn:He; [|discriminate].
  intros H. injection H as Hloc _.
  assert (Hsnd : e = snd (Preprocessing.locate (slice_to text max_chunk)
                            content)) by (rewrite Hloc; reflexivity).
  split.
  - pose proof (locate_range (slice_to text max_chunk) content).
    pose proof (slice_to_length text max_chunk). lia.
  - intros Hresp Htext Hmax. rewrite Hsnd. apply locate_progress.
    + apply slice_to_nonempty; assumption.
    + eapply Hresp. eassumption.
Qed.

End PreprocessingDriver.

(** C2, as the code has it.  The driver of [main] loops until what is left
    of the document is white space only; each pass removes from the front
    of the document exactly the [end_index] characters that segmentation
    returned and adds them to [chars_processed]; so at the end the
    characters consumed and the white space left make up the original
    document.  Each pass of [preprocessing_main] removes the [end_index]
    characters of its sentence the same way and records the sentence with
    its length; it leaves the loop as soon as what is left strips to fewer
    than 3 characters, so that at its end the characters consumed and
    what is left, fewer than 3 characters apart from white space, make up
    the original document. *)
Theorem C2_driver_accounts_for_document (model : llm)
    (float_of_str : str -> option pyfloat) (fuel : nat) (doc : str)
    (t : trace) :
  (forall v t',
      Main.main_loop model float_of_str fuel doc t = (Ok v, t') ->
      strip (Main.document v) = [] /\
      Main.document v = slice_from doc (Main.chars_processed v) /\
      Main.chars_processed v + len (Main.document v) = len doc) /\
  (forall v t1 s e ver t2 v' t3,
      Preprocessing.segmentation_loop model fuel (Main.document v) t1
        = (Ok (s, e, ver), t2) ->
      Main.main_body model float_of_str fuel v t1 = (Ok (Continue v'), t3) ->
      Main.document v' = slice_from (Main.document v) e /\
      Main.chars_processed v' = Main.chars_processed v + e /\
      len (Main.document v') = len (Main.document v) - e) /\
  (forall v t1 s e ver t2 c t3,
      Preprocessing.segmentation_loop model fuel
        (Preprocessing.pre_document v) t1 = (Ok (s, e, ver), t2) ->
      Preprocessing.pre_body model fuel v t1 = (Ok c, t3) ->
      exists v',
        (c = Continue v' \/ c = Break v') /\
        t3 = t2 /\
        Preprocessing.pre_document v'
          = slice_from (Preprocessing.pre_document v) e /\
        len (Preprocessing.pre_document v')
          = len (Preprocessing.pre_document v) - e /\
        Preprocessing.pre_results v'
          = Preprocessing.pre_results v ++
            [{| Preprocessing.info_sentence := s;
                Preprocessing.info_length := len s |}] /\
        (c = Break v' <->
         len (strip (Preprocessing.pre_document v')) < 3)) /\
  (forall v t',
      while_ fuel Preprocessing.pre_cond (Preprocessing.pre_body model fuel)
        {| Preprocessing.pre_document := doc;
           Preprocessing.pre_results := [] |} t = (Ok v, t') ->
      (exists n, 0 <= n <= len doc /\
                 Preprocessing.pre_document v = slice_from doc n /\
                 n + len (Preprocessing.pre_document v) = len doc) /\
      len (strip (Preprocessing.pre_document v)) < 3).
Proof.
  split; [|split; [|split]].
  - intros v t' Hrun. apply main_loop_spec in Hrun.
    destruct Hrun as [(Hrange & Hdoc & _) Hstrip].
    split; [assumption|]. split; [assumption|].
    rewrite Hdoc at 1. rewrite slice_from_length by assumption. lia.
  - intros v t1 s e ver t2 v' t3 Hseg Hbody.
    pose proof (segmentation_loop_range model fuel _ _ _ _ _ _ Hseg)
      as [He _].
    unfold Main.main_body, Main.process_sentence, bind, lift, ret in Hbody.
    rewrite Hseg in Hbody.
    destruct (Main.correct_sentence model float_of_str fuel s
                (Preprocessing.calculate_sentence_length s) t2)
      as [[[r0 v0]| |] t4]; try discriminate.
    destruct (Main.write_entry r0) as [[]| |]; try discriminate.
    injection Hbody as <- _. cbn [Main.document Main.chars_processed].
    split; [reflexivity|]. split; [reflexivity|].
    apply slice_from_length. assumption.
  - intros v t1 s e ver t2 c t3 Hseg Hbody.
    pose proof (segmentation_loop_range model fuel _ _ _ _ _ _ Hseg)
      as [He _].
    unfold Preprocessing.pre_body, bind, ret in Hbody.
    rewrite Hseg in Hbody. cbv zeta in Hbody.
    cbn [Preprocessing.pre_document] in Hbody.
    unfold Preprocessing.calculate_sentence_length in Hbody.
    destruct (Z.ltb_spec
                (len (strip (slice_from (Preprocessing.pre_document v) e)))
                3) as [Hlt|Hge];
      injection Hbody as <- <-; eexists;
      (split; [first [left; reflexivity|right; reflexivity]|]);
      cbn [Preprocessing.pre_document Preprocessing.pre_results];
      (split; [reflexivity|]); (split; [reflexivity|]);
      (split; [apply slice_from_length; assumption|]);
      (split; [reflexivity|]).
    + split; [intros _; exact Hlt|reflexivity].
    + split; [discriminate|lia].
  - intros v t' Hrun. apply pre_loop_spec in Hrun.
    destruct Hrun as [(n & Hn & Hdoc) Hshort].
    split; [|exact Hshort].
    exists n. split; [exact Hn|]. split; [exact Hdoc|].
    rewrite Hdoc. rewrite slice_from_length by exact Hn. lia.
Qed.

Lemma C2_driver_accounts_for_document_witness :
  let run := Main.main_loop agreeable_model no_str_confidence 10
               the_cat_line [] in
  let pre := while_ 10 Preprocessing.pre_cond
               (Preprocessing.pre_body agreeable_model 10)
               {| Preprocessing.pre_document := the_cat_ab;
                  Preprocessing.pre_results := [] |} [] in
  (exists v,
      fst run = Ok v /\
      strip (Main.document v) = [] /\
      Main.chars_processed v + len (Main.document v) = len the_cat_line) /\
  (exists v,
      fst pre = Ok v /\
      (exists n, 0 <= n <= len the_cat_ab /\
                 Preprocessing.pre_document v = slice_from the_cat_ab n /\
                 n + len (Preprocessing.pre_document v) = len the_cat_ab) /\
      len (strip (Preprocessing.pre_document v)) < 3).
Proof.
  cbv zeta.
  destruct (C2_driver_accounts_for_document agreeable_model no_str_confidence
              10 the_cat_line []) as [Hmain _].
  destruct (C2_driver_accounts_for_document agreeable_model no_str_confidence
              10 the_cat_ab []) as (_ & _ & _ & Hpre).
  split.
  - destruct (Main.main_loop agreeable_model no_str_confidence 10
                the_cat_line []) as [o t'] eqn:Hrun.
    vm_compute in Hrun. injection Hrun as <- <-.
    eexists. split; [reflexivity|].
    destruct (Hmain _ _ eq_refl) as (Hstrip & _ & Hsum).
    split; assumption.
  - destruct (while_ 10 Preprocessing.pre_cond
                (Preprocessing.pre_body agreeable_model 10)
                {| Preprocessing.pre_document := the_cat_ab;
                   Preprocessing.pre_results := [] |} [])
      as [o t'] eqn:Hrun.
    vm_compute in Hrun. injection Hrun as <- <-.
    eexists. split; [reflexivity|].
    exact (Hpre _ _ eq_refl).
Defined.

(** C2 as the spec states it fails in two ways.  On a document that ends
    with white space the driver of [main] stops with 19 characters
    consumed out of 20, the space at the end being left.  On a document
    that ends with two letters after its sentence [preprocessing_main]
    leaves its loop after one pass, with 19 characters consumed out of 22
    and a remainder that does not strip to the empty string. *)
Lemma C2_counterexample :
  let run := Main.main_loop agreeable_model no_str_confidence 10
               the_cat_line [] in
  let pre := while_ 10 Preprocessing.pre_cond
               (Preprocessing.pre_body agreeable_model 10)
               {| Preprocessing.pre_document := the_cat_ab;
                  Preprocessing.pre_results := [] |} [] in
  (exists v,
      fst run = Ok v /\
      strip (Main.document v) = [] /\
      Main.chars_processed v = 19 /\
      len the_cat_line = 20 /\
      Main.chars_processed v <> len the_cat_line) /\
  (exists v,
      fst pre = Ok v /\
      map Preprocessing.info_length (Preprocessing.pre_results v) = [19] /\
      len the_cat_ab = 22 /\
      Preprocessing.pre_document v = str_of " ab" /\
      strip (Preprocessing.pre_document v) = str_of "ab").
Proof.
  cbv zeta. split.
  - destruct (Main.main_loop agreeable_model no_str_confidence 10
                the_cat_line []) as [o t'] eqn:Hrun.
    vm_compute in Hrun. injection Hrun as <- <-.
    eexists. repeat split; try reflexivity. vm_compute. discriminate.
  - destruct (while_ 10 Preprocessing.pre_cond
                (Preprocessing.pre_body agreeable_model 10)
                {| Preprocessing.pre_document := the_cat_ab;
                   Preprocessing.pre_results := [] |} [])
      as [o t'] eqn:Hrun.
    vm_compute in Hrun. injection Hrun as <- <-.
    eexists. repeat split; vm_compute; reflexivity.
Qed.

(** C9, as the code has it.  When the extractor answers every call with
    text that is not white space only, each extraction from a document that
    is not empty returns an end index of at least 1 within the document,
    each pass of the driver leaves a shorter document, and the driver of
    [main] is not cut off once its fuel covers the length of the
    document. *)
Theorem C9_progress_of_responsive_extractor (model : llm)
    (float_of_str : str -> option pyfloat) :
  responsive model ->
  (forall text max_chunk t s e t',
      text <> [] -> 1 <= max_chunk ->
      Preprocessing.extract_sentence_from_queue model text max_chunk t
        = (Ok (s, e), t') ->
      1 <= e <= len text) /\
  (forall fuel document t r rest e t',
      document <> [] ->
      Main.process_sentence model float_of_str fuel document t
        = (Ok (r, rest, e), t') ->
      1 <= e /\ len rest < len document) /\
  (forall fuel document t,
      (9 + List.length document <= fuel)%nat ->
      fst (Main.main_loop model float_of_str fuel document t) <> OutOfFuel).
Proof.
  intros Hresp. split; [|split].
  - intros text max_chunk t s e t' Htext Hmax Hrun.
    apply extract_range in Hrun. destruct Hrun as [He Hprog].
    specialize (Hprog Hresp Htext Hmax). lia.
  - intros fuel document t r rest e t' Hdoc Hrun.
    apply process_sentence_range in Hrun.
    destruct Hrun as (-> & He & Hprog). specialize (Hprog Hresp Hdoc).
    rewrite slice_from_length by assumption. lia.
  - intros fuel document t Hfuel. apply main_loop_returns; assumption.
Qed.

Lemma C9_progress_of_responsive_extractor_witness :
  responsive agreeable_model /\
  fst (Main.main_loop agreeable_model no_str_confidence 29 the_cat_line [])
    <> OutOfFuel.
Proof.
  assert (Hresp : responsive agreeable_model).
  { intros n chunk content H. injection H as <-. vm_compute. discriminate. }
  split; [exact Hresp|].
  apply (proj2 (proj2 (C9_progress_of_responsive_extractor agreeable_model
                         no_str_confidence Hresp))).
  vm_compute. lia.
Defined.

(** With the extractor that answers with white space, a pass of the driver
    leaves the document as it was. *)
Lemma blank_driver_step v t :
  Main.document v = the_cat ->
  exists v' t',
    Main.main_body blank_model no_str_confidence 9 v t
      = (Ok (Continue v'), t') /\
    Main.document v' = the_cat.
Proof.
  destruct v as [d n c l]. cbn [Main.document]. intros ->.
  unfold Main.main_body, bind, lift, ret. cbn [Main.document].
  destruct (Main.process_sentence blank_model no_str_confidence 9 the_cat t)
    as [o t'] eqn:Hp.
  vm_compute in Hp. injection Hp as <- <-.
  cbn [truthy Main.qa_concerns].
  eexists. eexists. split; reflexivity.
Qed.

Lemma blank_driver_never_ends k :
  forall v t,
    Main.document v = the_cat ->
    fst (while_ k Main.main_cond
           (Main.main_body blank_model no_str_confidence 9) v t) = OutOfFuel.
Proof.
  induction k as [|k IH]; intros v t Hdoc; [reflexivity|].
  rewrite while_unfold. unfold Main.main_cond. rewrite Hdoc.
  change (strip the_cat) with the_cat. cbn [the_cat str_of map
    list_ascii_of_string].
  destruct (blank_driver_step v t Hdoc) as (v' & t' & -> & Hdoc').
  apply IH. assumption.
Qed.

(** C9 as the spec states it fails when the extractor answers with white
    space only: the sentence is empty, it is found at index 0 of the chunk,
    and the end index is 0, so [process_sentence] hands the whole document
    back and the loop of the driver, with [process_sentence] given the fuel
    it needs, is cut off whatever its own fuel. *)
Lemma C9_counterexample :
  the_cat <> [] /\
  extractor blank_model 0 (slice_to the_cat 500) = Some (str_of "  ") /\
  fst (Preprocessing.extract_sentence_from_queue blank_model the_cat 500 [])
    = Ok ([], 0) /\
  ~ 1 <= 0 /\
  (exists r,
     fst (Main.process_sentence blank_model no_str_confidence 9 the_cat [])
       = Ok (r, the_cat, 0)) /\
  (forall k,
     fst (while_ k Main.main_cond
            (Main.main_body blank_model no_str_confidence 9)
            (Main.main_init the_cat) []) = OutOfFuel).
Proof.
  split; [vm_compute; discriminate|].
  split; [reflexivity|].
  split; [vm_compute; reflexivity|].
  split; [lia|].
  split.
  - destruct (Main.process_sentence blank_model no_str_confidence 9
                the_cat []) as [o t'] eqn:Hrun.
    vm_compute in Hrun. injection Hrun as <- <-.
    eexists. reflexivity.
  - intros k. apply blank_driver_never_ends. reflexivity.
Qed.

(** ** Every recorded call is a call that the model answered *)

Lemma answers_from_app model n a b :
  answers_from model n (a ++ b) <->
  answers_from model n a /\ answers_from model (n + List.length a) b.
Proof.
  revert n. induction a as [|e a IH]; intros n; cbn [app answers_from List.length].
  - rewrite Nat.add_0_r. tauto.
  - rewrite IH. replace (S n + List.length a)%nat
      with (n + S (List.length a))%nat by lia. tauto.
Qed.

Section Honest.
Variable model : llm.

Lemma honest_ret {A : Type} (a : A) : honest model (ret a).
Proof. intros t. exists []. rewrite app_nil_r. split; [reflexivity|exact I]. Qed.

Lemma honest_raise {A : Type} (e : exn) : honest model (@raise A e).
Proof. intros t. exists []. rewrite app_nil_r. split; [reflexivity|exact I]. Qed.

Lemma honest_lift {A : Type} (o : outcome A) : honest model (lift o).
Proof. intros t. exists []. rewrite app_nil_r. split; [reflexivity|exact I]. Qed.

Lemma honest_bind {A B : Type} (c : M A) (k : A -> M B) :
  honest model c -> (forall a, honest model (k a)) -> honest model (bind c k).
Proof.
  intros Hc Hk t. unfold bind.
  destruct (Hc t) as (n1 & H1 & F1).
  destruct (c t) as [[a| |] t1]; cbn [snd] in H1; subst t1;
    try (exists n1; split; [reflexivity|assumption]).
  destruct (Hk a (t ++ n1)) as (n2 & H2 & F2).
  exists (n1 ++ n2). rewrite H2, app_assoc. split; [reflexivity|].
  apply answers_from_app. split; [assumption|].
  rewrite length_app in F2. assumption.
Qed.

Lemma honest_while {S : Type} (cond : S -> outcome bool)
    (body : S -> M (ctl S)) :
  (forall s, honest model (body s)) ->
  forall fuel s, honest model (while_ fuel cond body s).
Proof.
  intros Hbody. induction fuel as [|fuel IH]; intros s.
  - intros t. exists []. rewrite app_nil_r. split; [reflexivity|exact I].
  - cbn [while_]. apply honest_bind; [apply honest_lift|].
    intros [|]; [|apply honest_ret].
    apply honest_bind; [apply Hbody|].
    intros [s'|s']; [apply IH|apply honest_ret].
Qed.

Lemma honest_extract text max_chunk :
  honest model (Preprocessing.extract_sentence_from_queue model text max_chunk).
Proof.
  intros t.
  unfold Preprocessing.extract_sentence_from_queue, bind, ask, ret, raise.
  exists [EvExtract text max_chunk (extractor model (List.length t) (slice_to text max_chunk))]. split.
  - destruct (extractor model (List.length t) (slice_to text max_chunk));
      reflexivity.
  - cbn. split; [reflexivity|exact I].
Qed.

Lemma honest_double_check sentence :
  honest model (Preprocessing.double_check_preprocessing model sentence).
Proof.
  intros t.
  unfold Preprocessing.double_check_preprocessing, bind, ask, ret, raise.
  exists [EvVerify sentence (verifier model (List.length t) sentence)]. split.
  - destruct (verifier model (List.length t) sentence); reflexivity.
  - cbn. split; [reflexivity|exact I].
Qed.

Lemma honest_proposal sentence :
  honest model (Correct.grammar_correct_proposal model sentence).
Proof.
  intros t.
  unfold Correct.grammar_correct_proposal, bind, ask, ret, raise.
  exists [EvPropose sentence (proposer model (List.length t) sentence)]. split.
  - destruct (proposer model (List.length t) sentence); reflexivity.
  - cbn. split; [reflexivity|exact I].
Qed.

Lemma honest_qa original corrected :
  honest model (Correct.quality_assurance_check model original corrected).
Proof.
  intros t.
  unfold Correct.quality_assurance_check, bind, ask, ret, raise.
  exists [EvQA original corrected
            (validator model (List.length t) original corrected)]. split.
  - destruct (validator model (List.length t) original corrected);
      reflexivity.
  - cbn. split; [reflexivity|exact I].
Qed.

End Honest.

(** Splits a goal of honesty along the structure of the computation. *)
Ltac honesty :=
  repeat first
    [ apply honest_ret | apply honest_raise | apply honest_lift
    | apply honest_extract | apply honest_double_check
    | apply honest_proposal | apply honest_qa
    | apply honest_while; intros
    | apply honest_bind; [|intros]
    | match goal with
      | |- honest _ (match ?x with _ => _ end) => destruct x
      | |- honest _ (let _ := _ in _) => cbv zeta
      end ].

Section HonestProgram.
Variable model : llm.
Variable float_of_str : str -> option pyfloat.

Lemma honest_segmentation_loop fuel document :
  honest model (Preprocessing.segmentation_loop model fuel document).
Proof.
  unfold Preprocessing.segmentation_loop, Preprocessing.seg_body. honesty.
Qed.

Lemma honest_pre_loop fuel v :
  honest model (while_ fuel Preprocessing.pre_cond
                  (Preprocessing.pre_body model fuel) v).
Proof.
  apply honest_while. intros s. unfold Preprocessing.pre_body.
  apply honest_bind; [apply honest_segmentation_loop|]. intros [[x e] j].
  honesty.
Qed.

Lemma honest_main_correct_sentence fuel sentence lengths :
  honest model (Main.correct_sentence model float_of_str fuel sentence lengths).
Proof.
  unfold Main.correct_sentence, Main.corr_body. honesty.
Qed.

Lemma honest_process_sentence fuel document :
  honest model (Main.process_sentence model float_of_str fuel document).
Proof.
  unfold Main.process_sentence.
  apply honest_bind; [apply honest_segmentation_loop|]. intros [[s e] j].
  apply honest_bind; [apply honest_main_correct_sentence|]. intros [r v].
  honesty.
Qed.

Lemma honest_main_loop fuel document :
  honest model (Main.main_loop model float_of_str fuel document).
Proof.
  unfold Main.main_loop. apply honest_while. intros s.
  unfold Main.main_body.
  apply honest_bind; [apply honest_process_sentence|]. intros [[r rest] e].
  honesty.
Qed.

Lemma honest_correct_sentence fuel sentence v :
  honest model (Correct.correct_sentence model float_of_str fuel sentence v).
Proof.
  unfold Correct.correct_sentence, Correct.outer_body, Correct.qa_body.
  honesty.
Qed.

Lemma honest_for_sentences fuel sentences :
  forall v results,
    honest model (Correct.for_sentences model float_of_str fuel sentences
                    v results).
Proof.
  induction sentences as [|s rest IH]; intros v results;
    cbn [Correct.for_sentences]; [apply honest_ret|].
  apply honest_bind; [apply honest_correct_sentence|]. intros [e v'].
  apply IH.
Qed.

Lemma honest_run_correction fuel loop sentence :
  honest model (run_correction model float_of_str fuel loop sentence).
Proof.
  destruct loop; unfold run_correction.
  - apply honest_bind; [apply honest_main_correct_sentence|].
    intros [r v]. apply honest_ret.
  - apply honest_bind; [apply honest_correct_sentence|].
    intros [e v]. apply honest_ret.
Qed.

End HonestProgram.

(** The verdicts of answered calls are answers of the validator. *)
Lemma verdicts_answered model n new q :
  answers_from model n new ->
  In q (verdicts new) ->
  exists k o c, validator model k o c = Decoded q.
Proof.
  revert n. induction new as [|e new IH]; intros n Hans Hin; [contradiction|].
  destruct Hans as [He Hrest].
  destruct e as [| | |o c r]; cbn [verdicts] in Hin; try (eapply IH; eassumption).
  destruct r as [j| | |]; try (eapply IH; eassumption).
  destruct Hin as [<-|Hin]; [|eapply IH; eassumption].
  exists n, o, c. symmetry. exact He.
Qed.

(** ** When QA never accepts *)

Section NeverAccepts.
Variable model : llm.
Variable float_of_str : str -> option pyfloat.

(** A run of a correction loop under a validator that never accepts has
    no accepted verdict. *)
Lemma never_accepts_no_verdict fuel loop sentence t e t' :
  never_accepts model ->
  run_correction model float_of_str fuel loop sentence t = (Ok e, t') ->
  existsb accepted (verdicts (since t t')) = false.
Proof.
  intros Hnever Hrun.
  destruct (honest_run_correction model float_of_str fuel loop sentence t)
    as (new & Hsnd & Hans).
  rewrite Hrun in Hsnd. cbn [snd] in Hsnd. subst t'. rewrite since_app.
  destruct (existsb accepted (verdicts new)) eqn:Hex; [|reflexivity].
  apply existsb_exists in Hex. destruct Hex as (q & Hin & Hacc).
  destruct (verdicts_answered model _ new q Hans Hin) as (k & o & c & Hq).
  rewrite (Hnever k o c q Hq) in Hacc. discriminate Hacc.
Qed.

Lemma main_correct_sentence_view fuel sentence lengths t r v t' :
  Main.correct_sentence model float_of_str fuel sentence lengths t
    = (Ok (r, v), t') ->
  Main.prepare_result sentence lengths v = Ok r /\
  run_correction model float_of_str fuel (OfProcessSentence lengths) sentence t
    = (Ok {| view_original := Main.original r;
             view_final := Main.final r;
             view_has_changes := Main.has_changes r;
             view_qa_concerns := Main.qa_concerns r;
             view_passed := Main.QA_passed v |}, t').
Proof.
  intros Hrun. split.
  - unfold Main.correct_sentence, bind, lift, ret in Hrun.
    destruct (while_ fuel Main.corr_cond _ Main.corr_init t)
      as [[v0| |] t1]; try discriminate.
    destruct (Main.prepare_result sentence lengths v0) as [r0| |] eqn:Hr;
      try discriminate.
    injection Hrun as <- <- <-. exact Hr.
  - unfold run_correction, bind. rewrite Hrun. reflexivity.
Qed.

Lemma correct_sentence_view fuel sentence v0 t e v t' :
  Correct.correct_sentence model float_of_str fuel sentence v0 t
    = (Ok (e, v), t') ->
  run_correction model float_of_str fuel (OfGrammarCorrectionMain v0)
    sentence t
    = (Ok {| view_original := Correct.original e;
             view_final := Correct.final e;
             view_has_changes := Correct.has_changes e;
             view_qa_concerns := Correct.qa_concerns e;
             view_passed := Correct.QA_passed v |}, t').
Proof.
  intros Hrun. unfold run_correction, bind. rewrite Hrun. reflexivity.
Qed.

(** X1.  Under a validator that never accepts, [process_sentence] returns
    the sentence as it extracted it, unchanged, with the fixed concern, no
    explanation and the length of that sentence. *)
Theorem process_sentence_keeps_original fuel document t r rest e t' :
  never_accepts model ->
  Main.process_sentence model float_of_str fuel document t
    = (Ok (r, rest, e), t') ->
  Main.final r = JStr (Main.original r) /\
  Main.has_changes r = false /\
  Main.qa_concerns r = failed_concerns /\
  Main.explanation r = JStr [] /\
  Main.length r = len (Main.original r).
Proof.
  intros Hnever Hrun.
  unfold Main.process_sentence, bind at 1 in Hrun.
  destruct (Preprocessing.segmentation_loop model fuel document t)
    as [[[[s e0] ver]| |] t1]; try discriminate.
  unfold bind, ret in Hrun.
  destruct (Main.correct_sentence model float_of_str fuel s
              (Preprocessing.calculate_sentence_length s) t1)
    as [[[r0 v]| |] t2] eqn:Hcorr; try discriminate.
  injection Hrun as <- _ _ _.
  apply main_correct_sentence_view in Hcorr. destruct Hcorr as [Hprep Hview].
  pose proof (never_accepts_no_verdict _ _ _ _ _ _ Hnever Hview) as Hnone.
  pose proof (passed_is_accepted _ _ _ _ _ _ _ _ Hview) as Hpassed.
  rewrite Hnone in Hpassed. cbn [view_passed] in Hpassed.
  unfold Main.prepare_result in Hprep. rewrite Hpassed in Hprep.
  injection Hprep as <-. cbn. repeat split; reflexivity.
Qed.

End NeverAccepts.

Lemma critical_model_never_accepts : never_accepts critical_model.
Proof. intros n o c q H. injection H as <-. reflexivity. Qed.

Lemma process_sentence_keeps_original_witness :
  never_accepts critical_model /\
  exists r rest e,
    fst (Main.process_sentence critical_model no_str_confidence 9
           the_cat_line []) = Ok (r, rest, e) /\
    Main.final r = JStr (Main.original r) /\
    Main.has_changes r = false.
Proof.
  split; [exact critical_model_never_accepts|].
  destruct (Main.process_sentence critical_model no_str_confidence 9
              the_cat_line []) as [o t'] eqn:Hrun.
  assert (Hvalue := Hrun). vm_compute in Hvalue. injection Hvalue as <- <-.
  do 3 eexists. split; [reflexivity|].
  destruct (process_sentence_keeps_original critical_model no_str_confidence
              9 the_cat_line [] _ _ _ _ critical_model_never_accepts Hrun)
    as (Hfinal & Hch & _).
  split; assumption.
Defined.

(** ** The batch: one entry per sentence *)

Section Batch.
Variable model : llm.
Variable float_of_str : str -> option pyfloat.

(** What holds of every entry that [correct_sentence] returns holds of
    the entries of the batch, sentence by sentence. *)
Lemma for_sentences_entries (P : str -> Correct.result_entry -> Prop) fuel :
  (forall s v t e v' t',
      Correct.correct_sentence model float_of_str fuel s v t
        = (Ok (e, v'), t') -> P s e) ->
  forall sentences v acc t results t',
    Correct.for_sentences model float_of_str fuel sentences v acc t
      = (Ok results, t') ->
    exists entries,
      results = acc ++ entries /\
      Forall2 P (map Preprocessing.info_sentence sentences) entries.
Proof.
  intros HP. induction sentences as [|s rest IH];
    intros v acc t results t' Hrun; cbn [Correct.for_sentences] in Hrun.
  - injection Hrun as <- _. exists []. rewrite app_nil_r.
    split; [reflexivity|constructor].
  - unfold bind in Hrun.
    destruct (Correct.correct_sentence model float_of_str fuel
                (Preprocessing.info_sentence s) v t)
      as [[[e v']| |] t1] eqn:Hone; try discriminate.
    apply IH in Hrun. destruct Hrun as (entries & -> & Hall).
    exists (e :: entries). rewrite <- app_assoc. split; [reflexivity|].
    cbn [map]. constructor; [|assumption].
    eapply HP. eassumption.
Qed.

Lemma forall2_eq_map {A B : Type} (f : B -> A) (l : list A) (l' : list B) :
  Forall2 (fun a b => f b = a) l l' -> map f l' = l.
Proof.
  induction 1 as [|a b l l' Hab _ IH]; cbn [map]; [reflexivity|].
  rewrite Hab, IH. reflexivity.
Qed.

(** X6.  When [grammar_correction_main] returns, its list has one entry
    for each sentence it was given, in the same order, each with that
    sentence as [original]. *)
Theorem grammar_correction_main_one_entry_per_sentence
    fuel sentences t results t' :
  Correct.grammar_correction_main model float_of_str fuel sentences t
    = (Ok results, t') ->
  map Correct.original results = map Preprocessing.info_sentence sentences /\
  List.length results = List.length sentences.
Proof.
  intros Hrun. unfold Correct.grammar_correction_main in Hrun.
  apply (for_sentences_entries (fun s e => Correct.original e = s)) in Hrun.
  - destruct Hrun as (entries & -> & Hall). cbn [app].
    apply forall2_eq_map in Hall. split; [exact Hall|].
    rewrite <- (length_map Correct.original), Hall, length_map. reflexivity.
  - intros s v t0 e v' t1 Hone. apply correct_sentence_view in Hone.
    apply entry_spec_of_run in Hone.
    destruct Hone as (new & _ & _ & Horig & _). exact Horig.
Qed.

Lemma str_join_strs sep l : str_join sep (map JStr l) = Ok (join_strs sep l).
Proof.
  unfold str_join.
  assert (H : all_strs (map JStr l) = Some l).
  { induction l as [|a l IH]; cbn; [reflexivity|]. rewrite IH. reflexivity. }
  rewrite H. reflexivity.
Qed.

(** X7.  Under a validator that never accepts, the batch followed by
    [assemble_corrected_paper] gives back the sentences, joined by single
    spaces. *)
Theorem batch_keeps_paper fuel sentences t results t' :
  never_accepts model ->
  Correct.grammar_correction_main model float_of_str fuel sentences t
    = (Ok results, t') ->
  assemble_corrected_paper results =
    Ok (join_strs (str_of " ")
          (map Preprocessing.info_sentence sentences)).
Proof.
  intros Hnever Hrun. unfold Correct.grammar_correction_main in Hrun.
  apply (for_sentences_entries (fun s e => Correct.final e = JStr s)) in Hrun.
  - destruct Hrun as (entries & -> & Hall). cbn [app].
    unfold assemble_corrected_paper.
    assert (Hmap : map Correct.final entries =
                   map JStr (map Preprocessing.info_sentence sentences)).
    { induction Hall as [|a b l l' Hab _ IH]; cbn [map]; [reflexivity|].
      rewrite Hab, IH. reflexivity. }
    rewrite Hmap. apply str_join_strs.
  - intros s v t0 e v' t1 Hone. apply correct_sentence_view in Hone.
    pose proof (never_accepts_no_verdict model float_of_str _ _ _ _ _ _
                  Hnever Hone) as Hnone.
    pose proof (passed_is_accepted _ _ _ _ _ _ _ _ Hone) as Hpassed.
    rewrite Hnone in Hpassed. cbn [view_passed] in Hpassed.
    apply entry_spec_of_run in Hone.
    destruct Hone as (new & _ & _ & _ & Hst).
    cbn [view_passed view_final] in Hst. rewrite Hpassed in Hst.
    destruct Hst as (_ & _ & Hfinal & _). exact Hfinal.
Qed.

End Batch.

Lemma grammar_correction_main_one_entry_per_sentence_witness :
  let run := Correct.grammar_correction_main agreeable_model
               no_str_confidence 9 two_sentences [] in
  exists results,
    fst run = Ok results /\
    map Correct.original results = [the_cat; str_of "It purr."] /\
    List.length results = 2%nat.
Proof.
  cbv zeta.
  destruct (Correct.grammar_correction_main agreeable_model
              no_str_confidence 9 two_sentences []) as [o t'] eqn:Hrun.
  assert (Hvalue := Hrun). vm_compute in Hvalue. injection Hvalue as <- <-.
  eexists. split; [reflexivity|].
  exact (grammar_correction_main_one_entry_per_sentence agreeable_model
           no_str_confidence 9 two_sentences [] _ _ Hrun).
Defined.

Lemma batch_keeps_paper_witness :
  let run := Correct.grammar_correction_main critical_model
               no_str_confidence 9 two_sentences [] in
  never_accepts critical_model /\
  exists results,
    fst run = Ok results /\
    assemble_corrected_paper results
      = Ok (str_of "The cat sit on mat. It purr.").
Proof.
  cbv zeta. split; [exact critical_model_never_accepts|].
  destruct (Correct.grammar_correction_main critical_model
              no_str_confidence 9 two_sentences []) as [o t'] eqn:Hrun.
  assert (Hvalue := Hrun). vm_compute in Hvalue. injection Hvalue as <- <-.
  eexists. split; [reflexivity|].
  exact (batch_keeps_paper critical_model no_str_confidence 9 two_sentences
           [] _ _ critical_model_never_accepts Hrun).
Defined.

(** ** Answers of the shape of their schema *)

Lemma has_field_lookup kv k p :
  has_field kv k p = true -> exists v, lookup k kv = Some v /\ p v = true.
Proof.
  unfold has_field. destruct (lookup k kv) as [v|]; [|discriminate].
  intros H. exists v. split; [reflexivity|assumption].
Qed.

Lemma is_str_inv j : is_str j = true -> exists s, j = JStr s.
Proof. destruct j; try discriminate. intros _. eexists. reflexivity. Qed.

Lemma is_bool_inv j : is_bool j = true -> exists b, j = JBool b.
Proof. destruct j; try discriminate. intros _. eexists. reflexivity. Qed.

Lemma is_float_ok float_of_str j :
  is_float j = true -> exists f, py_float float_of_str j = Ok f.
Proof.
  destruct j; try discriminate; cbn [is_float py_float].
  - intros H. apply negb_true_iff in H. rewrite H. eexists. reflexivity.
  - intros _. eexists. reflexivity.
  - intros _. eexists. reflexivity.
Qed.

Lemma grammar_correction_fields c :
  GrammarCorrection c = true ->
  exists kv cs conf ex,
    c = JObj kv /\
    lookup k_corrected_sentence kv = Some (JStr cs) /\
    lookup k_confidence kv = Some conf /\ is_float conf = true /\
    lookup k_explanation kv = Some (JStr ex).
Proof.
  destruct c; try discriminate. cbn [GrammarCorrection]. intros H.
  apply andb_true_iff in H. destruct H as [H H3].
  apply andb_true_iff in H. destruct H as [H1 H2].
  apply has_field_lookup in H1, H2, H3.
  destruct H1 as (x1 & L1 & P1). destruct H2 as (x2 & L2 & P2).
  destruct H3 as (x3 & L3 & P3).
  apply is_str_inv in P1, P3. destruct P1 as [cs ->]. destruct P3 as [ex ->].
  exists kv, cs, x2, ex. repeat split; assumption.
Qed.

Lemma quality_assurance_fields q :
  QualityAssurance q = true ->
  exists kv a b c l,
    q = JObj kv /\
    lookup k_is_valid kv = Some (JBool a) /\
    lookup k_maintains_meaning kv = Some (JBool b) /\
    lookup k_technical_accuracy kv = Some (JBool c) /\
    lookup k_concerns kv = Some (JArr l) /\ forallb is_str l = true.
Proof.
  destruct q; try discriminate. cbn [QualityAssurance]. intros H.
  apply andb_true_iff in H. destruct H as [H H4].
  apply andb_true_iff in H. destruct H as [H H3].
  apply andb_true_iff in H. destruct H as [H1 H2].
  apply has_field_lookup in H1, H2, H3, H4.
  destruct H1 as (x1 & L1 & P1). destruct H2 as (x2 & L2 & P2).
  destruct H3 as (x3 & L3 & P3). destruct H4 as (x4 & L4 & P4).
  apply is_bool_inv in P1, P2, P3.
  destruct P1 as [a ->]. destruct P2 as [b ->]. destruct P3 as [c ->].
  destruct x4; try discriminate. cbn [is_list_of_str] in P4.
  exists kv, a, b, c, l. repeat split; assumption.
Qed.

(** A verdict of the schema has the three fields, and holds when its
    three booleans are true. *)
Lemma quality_assurance_tests q :
  QualityAssurance q = true ->
  has_verdict_keys q = Ok true /\ verdict_holds q = Ok (accepted q).
Proof.
  intros H. apply quality_assurance_fields in H.
  destruct H as (kv & a & b & c & l & -> & La & Lb & Lc & _).
  unfold has_verdict_keys, verdict_holds, accepted, field_true, py_in,
    py_getitem, obind.
  rewrite La, Lb, Lc. cbn [truthy]. split; [reflexivity|].
  destruct a, b, c; reflexivity.
Qed.

Section ConformingMain.
Variable model : llm.
Variable float_of_str : str -> option pyfloat.
Hypothesis Hconf : conforming model.

(** With such answers a pass of the loop of [process_sentence] ends
    without an exception. *)
Lemma corr_body_conforming sentence v t :
  main_wf v ->
  exists c t',
    Main.corr_body model float_of_str sentence v t = (Ok c, t') /\
    match c with
    | Continue v' => main_wf v' /\ Main.QA_passed v' = Main.QA_passed v
    | Break v' =>
        main_wf v' /\ Main.QA_passed v' = true /\
        exists c q, Main.correction v' = Some c /\ Main.qa_result v' = Some q
    end.
Proof.
  intros [Hwc Hwq].
  destruct Hconf as (_ & _ & Hprop & Hval).
  destruct (Hprop (List.length t) sentence) as (c & Hp & Hgc).
  destruct (grammar_correction_fields c Hgc)
    as (kv & cs & conf & ex & -> & Lcs & Lconf & Hfl & Lex).
  destruct (is_float_ok float_of_str conf Hfl) as (f & Hf).
  unfold Main.corr_body, Correct.grammar_correct_proposal,
    Correct.quality_assurance_check, bind, ask, lift, ret.
  rewrite Hp. cbn [py_in py_getitem]. rewrite Lconf. cbn [negb].
  rewrite Hf.
  assert (Hwc' : forall v0 c0,
             Main.correction (Main.set_correction (JObj kv) v0) = Some c0 ->
             GrammarCorrection c0 = true).
  { intros v0 c0 H. injection H as <-. exact Hgc. }
  destruct (float_le f half).
  - eexists. eexists. split; [reflexivity|]. split; [|reflexivity].
    split; [apply Hwc'|exact Hwq].
  - rewrite Lcs.
    destruct (Hval (List.length (t ++ [EvPropose sentence (Decoded (JObj kv))]))
                sentence (JStr cs)) as (q & Hq & Hqa).
    rewrite Hq.
    destruct (quality_assurance_tests q Hqa) as [Hkeys Hholds].
    rewrite Hkeys. cbn [negb]. rewrite Hholds.
    assert (Hwq' : forall q0,
               Some q = Some q0 -> QualityAssurance q0 = true).
    { intros q0 H. injection H as <-. exact Hqa. }
    destruct (accepted q).
    + eexists. eexists. split; [reflexivity|].
      split; [split; [apply Hwc'|exact Hwq']|].
      split; [reflexivity|]. exists (JObj kv), q. split; reflexivity.
    + eexists. eexists. split; [reflexivity|]. split; [|reflexivity].
      split; [apply Hwc'|exact Hwq'].
Qed.

Lemma corr_loop_conforming fuel sentence t :
  match fst (while_ fuel Main.corr_cond
               (Main.corr_body model float_of_str sentence)
               Main.corr_init t) with
  | Ok v =>
      main_wf v /\
      (Main.QA_passed v = true ->
       exists c q, Main.correction v = Some c /\ Main.qa_result v = Some q)
  | Raise _ => False
  | OutOfFuel => True
  end.
Proof.
  apply (while_rule Main.corr_cond
           (Main.corr_body model float_of_str sentence)
           (fun v _ => main_wf v /\ Main.QA_passed v = false)
           (fun o _ =>
              match o with
              | Ok v =>
                  main_wf v /\
                  (Main.QA_passed v = true ->
                   exists c q,
                     Main.correction v = Some c /\
                     Main.qa_result v = Some q)
              | Raise _ => False
              | OutOfFuel => True
              end)).
  - intros v t1 [Hwf Hq] _. split; [assumption|]. congruence.
  - intros v t1 e _ Hc. discriminate Hc.
  - intros; exact I.
  - intros v t1 [Hwf Hq] _.
    destruct (corr_body_conforming sentence v t1 Hwf) as (c & t' & -> & Hc).
    destruct c as [v'|v'].
    + destruct Hc as [Hwf' Hq']. split; [assumption|congruence].
    + destruct Hc as (Hwf' & _ & Hsome). split; [assumption|].
      intros _. exact Hsome.
  - split; [|reflexivity]. split; intros x H; discriminate H.
Qed.

(** The entry of a sentence is then made of strings. *)
Lemma main_correct_sentence_conforming fuel sentence lengths t :
  (8 < fuel)%nat ->
  exists r v t',
    Main.correct_sentence model float_of_str fuel sentence lengths t
      = (Ok (r, v), t') /\
    is_str (Main.final r) = true /\
    is_list_of_str (Main.qa_concerns r) = true /\
    is_str (Main.explanation r) = true.
Proof.
  intros Hfuel.
  pose proof (corr_loop_conforming fuel sentence t) as Hloop.
  pose proof (corr_loop_terminates model float_of_str sentence fuel t Hfuel)
    as Hterm.
  unfold Main.correct_sentence, bind, lift, ret.
  destruct (while_ fuel Main.corr_cond _ Main.corr_init t) as [[v| |] t1];
    cbn [fst] in Hloop, Hterm; try contradiction.
  destruct Hloop as [[Hwc Hwq] Hsome].
  unfold Main.prepare_result.
  destruct (Main.QA_passed v).
  - destruct (Hsome eq_refl) as (c & q & Hc & Hq).
    rewrite Hc, Hq. cbn [read obind].
    destruct (grammar_correction_fields c (Hwc c Hc))
      as (kv & cs & conf & ex & -> & Lcs & _ & _ & Lex).
    destruct (quality_assurance_fields q (Hwq q Hq))
      as (kv' & a & b & c' & l & -> & _ & _ & _ & Ll & Hl).
    cbn [py_getitem py_get obind]. rewrite Lcs, Ll, Lex. cbn [obind].
    do 3 eexists. split; [reflexivity|]. cbn. repeat split. exact Hl.
  - do 3 eexists. split; [reflexivity|]. repeat split.
Qed.

End ConformingMain.

(** ** Writing the entries *)

Lemma lstrip_incl s c : In c (lstrip s) -> In c s.
Proof.
  induction s as [|a s IH]; [intros []|].
  cbn [lstrip]. destruct (isspace a); [|intros H; exact H].
  intros H. right. apply IH. exact H.
Qed.

Lemma strip_incl s c : In c (strip s) -> In c s.
Proof.
  unfold strip, rstrip. intros H.
  apply in_rev in H. apply lstrip_incl in H. apply in_rev in H.
  apply lstrip_incl in H. exact H.
Qed.

Lemma encodable_strip s : encodable s = true -> encodable (strip s) = true.
Proof.
  unfold encodable. intros H. apply negb_true_iff in H.
  apply negb_true_iff. apply not_true_iff_false. intros Hex.
  apply existsb_exists in Hex. destruct Hex as (c & Hin & Hc).
  apply strip_incl in Hin.
  apply not_true_iff_false in H. apply H. apply existsb_exists.
  exists c. split; assumption.
Qed.

Lemma utf8_lookup kv k v :
  utf8 (JObj kv) = true -> lookup k kv = Some v -> utf8 v = true.
Proof.
  cbn [utf8]. induction kv as [|[k' v'] kv IH]; [discriminate|].
  cbn [forallb lookup fst snd]. intros H.
  apply andb_true_iff in H. destruct H as [H Hkv].
  apply andb_true_iff in H. destruct H as [_ Hv'].
  destruct (str_eqb k k').
  - intros E. injection E as <-. exact Hv'.
  - apply IH. exact Hkv.
Qed.

Lemma utf8_getitem j k v :
  utf8 j = true -> py_getitem j k = Ok v -> utf8 v = true.
Proof.
  destruct j; try discriminate. intros Hj. cbn [py_getitem].
  destruct (lookup k kv) as [x|] eqn:Hx; [|discriminate].
  intros E. injection E as <-. eapply utf8_lookup; eassumption.
Qed.

Lemma utf8_get j k d v :
  utf8 j = true -> utf8 d = true -> py_get j k d = Ok v -> utf8 v = true.
Proof.
  destruct j; try discriminate. intros Hj Hd. cbn [py_get].
  destruct (lookup k kv) as [x|] eqn:Hx; intros E; injection E as <-;
    [eapply utf8_lookup; eassumption|exact Hd].
Qed.

Lemma py_write_utf8 j : utf8 j = true -> py_write j = Ok tt.
Proof.
  destruct j; try reflexivity. cbn [utf8 py_write]. intros ->. reflexivity.
Qed.

Lemma py_write_joined_utf8 j :
  is_list_of_str j = true -> utf8 j = true -> py_write_joined j = Ok tt.
Proof.
  destruct j; try discriminate. cbn [is_list_of_str utf8]. intros Hstr Hutf.
  unfold py_write_joined. cbn [py_join_check].
  assert (H1 : forallb (fun x => match x with
                                 | JStr _ => true
                                 | _ => false
                                 end) l = true) by exact Hstr.
  rewrite H1. cbn [obind].
  assert (H2 : forallb (fun x => match x with
                                 | JStr s => encodable s
                                 | _ => true
                                 end) l = true).
  { clear Hstr H1. induction l as [|a l IH]; [reflexivity|].
    cbn [forallb] in Hutf |- *.
    apply andb_true_iff in Hutf. destruct Hutf as [Ha Hl].
    rewrite (IH Hl), andb_true_r. destruct a; try reflexivity. exact Ha. }
  rewrite H2. reflexivity.
Qed.

(** An entry of strings that UTF-8 encodes is written without an
    exception. *)
Lemma write_entry_writable r :
  writable r ->
  is_list_of_str (Main.qa_concerns r) = true ->
  Main.write_entry r = Ok tt.
Proof.
  intros (Horig & Hfinal & Hexpl & Hconc) Hlist. unfold Main.write_entry.
  assert (H1 : py_write (JStr (Main.original r)) = Ok tt)
    by (apply py_write_utf8; exact Horig).
  rewrite H1, (py_write_utf8 _ Hfinal), (py_write_utf8 _ Hexpl),
    (py_write_joined_utf8 _ Hlist Hconc).
  cbn [obind].
  destruct (Main.has_changes r), (truthy (Main.explanation r)),
    (truthy (Main.qa_concerns r)); reflexivity.
Qed.

Section Clean.
Variable model : llm.
Variable float_of_str : str -> option pyfloat.
Hypothesis Hclean : encodable_answers model.

Lemma corr_body_clean sentence v t :
  main_clean v ->
  match Main.corr_body model float_of_str sentence v t with
  | (Ok (Continue v'), _) | (Ok (Break v'), _) => main_clean v'
  | _ => True
  end.
Proof.
  intros [Hc Hq]. destruct Hclean as (_ & Hprop & Hval).
  unfold Main.corr_body, Correct.grammar_correct_proposal,
    Correct.quality_assurance_check, bind, ask, lift, ret, raise.
  repeat (case_step; cbv beta iota zeta); try exact I;
    repeat match goal with
           | H : (_, _) = (_, _) |- _ => injection H as <- <-
           end;
    (split; intros x Hx;
     cbn [Main.correction Main.qa_result Main.spend Main.set_correction
          Main.set_qa_result Main.set_QA_passed] in Hx;
     first [ injection Hx as <-;
             first [ eapply Hprop; eassumption | eapply Hval; eassumption ]
           | apply Hc; exact Hx
           | apply Hq; exact Hx ]).
Qed.

(** The sentence that segmentation returns comes from an answer of the
    extractor. *)
Lemma segmentation_loop_encodable fuel document t s e ver t' :
  Preprocessing.segmentation_loop model fuel document t
    = (Ok (s, e, ver), t') ->
  encodable s = true.
Proof.
  intros Hrun.
  pose proof (segmentation_loop_spec model fuel document t) as Hspec.
  cbv zeta in Hspec. rewrite Hrun in Hspec. cbn [fst snd] in Hspec.
  destruct Hspec as (new & n & _ & _ & _ & Hlast).
  destruct (Hlast s e ver eq_refl)
    as (m & _ & (pre & content & rv & _ & (k & Hk) & Hloc) & _).
  destruct Hclean as (Hext & _ & _).
  assert (Hs : s = strip content).
  { unfold Preprocessing.locate in Hloc.
    destruct (_ =? -1); injection Hloc as -> _; reflexivity. }
  rewrite Hs. apply encodable_strip. eapply Hext. exact Hk.
Qed.

(** The entry of a sentence that UTF-8 encodes is made of such text. *)
Lemma main_correct_sentence_writable fuel sentence lengths t r v t' :
  encodable sentence = true ->
  Main.correct_sentence model float_of_str fuel sentence lengths t
    = (Ok (r, v), t') ->
  writable r.
Proof.
  intros Hs. unfold Main.correct_sentence, bind at 1.
  pose proof (while_rule Main.corr_cond
                (Main.corr_body model float_of_str sentence)
                (fun v _ => main_clean v)
                (fun o _ => match o with
                            | Ok v => main_clean v
                            | _ => True
                            end)
                ltac:(intros s0 t0 H _; exact H)
                ltac:(intros; exact I)
                ltac:(intros; exact I)) as Hrule.
  specialize (Hrule
    ltac:(intros s0 t0 H _;
          pose proof (corr_body_clean sentence s0 t0 H) as Hb;
          destruct (Main.corr_body model float_of_str sentence s0 t0)
            as [[[s1|s1]| |] t1]; exact Hb)
    fuel Main.corr_init t).
  destruct (while_ fuel Main.corr_cond _ Main.corr_init t) as [[v0| |] t1];
    try discriminate.
  cbn [fst snd] in Hrule.
  assert (Hv0 : main_clean v0).
  { apply Hrule. split; intros x Hx; discriminate Hx. }
  destruct Hv0 as [Hc Hq].
  unfold bind, lift, ret, Main.prepare_result.
  destruct (Main.QA_passed v0).
  - destruct (Main.correction v0) as [c|]; cbn [read obind];
      [|discriminate].
    destruct (py_getitem c k_corrected_sentence) as [cs| |] eqn:Hcs;
      cbn [obind]; try discriminate.
    destruct (Main.qa_result v0) as [q|]; cbn [read obind]; [|discriminate].
    destruct (py_get q k_concerns (JArr [])) as [concerns| |] eqn:Hconc;
      cbn [obind]; try discriminate.
    destruct (py_get c k_explanation (JStr [])) as [expl| |] eqn:Hexpl;
      cbn [obind]; try discriminate.
    intros H. injection H as <- _ _.
    unfold writable. cbn [Main.original Main.final Main.explanation
                          Main.qa_concerns].
    split; [exact Hs|]. split; [|split].
    + eapply utf8_getitem; [apply Hc; reflexivity|exact Hcs].
    + eapply utf8_get; [| |exact Hexpl]; [apply Hc; reflexivity|reflexivity].
    + eapply utf8_get; [| |exact Hconc]; [apply Hq; reflexivity|reflexivity].
  - cbn [obind]. intros H. injection H as <- _ _.
    unfold writable. cbn [Main.original Main.final Main.explanation
                          Main.qa_concerns].
    split; [exact Hs|]. split; [exact Hs|]. split; reflexivity.
Qed.

End Clean.

Section ConformingDriver.
Variable model : llm.
Variable float_of_str : str -> option pyfloat.
Hypothesis Hconf : conforming model.

Lemma seg_while_conforming fuel document t :
  match fst (while_ fuel Preprocessing.seg_cond
               (Preprocessing.seg_body model document)
               Preprocessing.seg_init t) with
  | Ok v => exists b,
      py_getitem (Preprocessing.verification v) k_is_valid = Ok (JBool b)
  | Raise _ => False
  | OutOfFuel => True
  end.
Proof.
  apply (while_rule Preprocessing.seg_cond
           (Preprocessing.seg_body model document)
           (fun v _ => exists b,
              py_getitem (Preprocessing.verification v) k_is_valid
                = Ok (JBool b))
           (fun o _ =>
              match o with
              | Ok v => exists b,
                  py_getitem (Preprocessing.verification v) k_is_valid
                    = Ok (JBool b)
              | Raise _ => False
              | OutOfFuel => True
              end)).
  - intros v t1 Hv _. exact Hv.
  - intros v t1 e [b Hb] Hc. unfold Preprocessing.seg_cond in Hc.
    rewrite Hb in Hc. discriminate Hc.
  - intros; exact I.
  - intros v t1 _ _. destruct Hconf as (Hext & Hver & _).
    unfold Preprocessing.seg_body, Preprocessing.extract_sentence_from_queue,
      Preprocessing.double_check_preprocessing, bind, ask, ret, raise.
    destruct (extractor model (List.length t1) _) as [content|] eqn:He;
      [|exfalso; eapply Hext; eassumption].
    destruct (Preprocessing.locate _ content) as [s e].
    match goal with
    | |- context [verifier model ?n s] => specialize (Hver n s);
        destruct (verifier model n s) as [j| | |]
    end; cbn [Preprocessing.verification]; try contradiction.
    + destruct j; try discriminate. cbn [PreprocessingVerification] in Hver.
      apply has_field_lookup in Hver. destruct Hver as (x & Lx & Px).
      apply is_bool_inv in Px. destruct Px as [b ->].
      exists b. cbn [py_getitem]. rewrite Lx. reflexivity.
    + exists false. reflexivity.
    + exists false. reflexivity.
  - exists false. reflexivity.
Qed.

Lemma segmentation_loop_conforming fuel document t :
  (5 < fuel)%nat ->
  exists s e ver t',
    Preprocessing.segmentation_loop model fuel document t
      = (Ok (s, e, ver), t').
Proof.
  intros Hfuel.
  pose proof (seg_while_conforming fuel document t) as Hc.
  pose proof (seg_while_terminates model document fuel t Hfuel) as Hterm.
  pose proof (seg_while_spec model document t fuel) as Hspec.
  cbv zeta in Hspec.
  unfold Preprocessing.segmentation_loop, bind, lift, ret.
  destruct (while_ fuel Preprocessing.seg_cond _ Preprocessing.seg_init t)
    as [[v| |] t1]; cbn [fst snd] in Hc, Hterm, Hspec; try contradiction.
  destruct Hc as [b Hb].
  destruct Hspec as (new & n & _ & _ & _ & m & s & e & _ & Hs & He & _).
  rewrite Hb, Hs, He. cbn [read]. do 4 eexists. reflexivity.
Qed.

(** X2.  With answers of the shape of their schema [process_sentence]
    returns, and its entry is made of strings. *)
Theorem process_sentence_returns_on_conforming fuel document t :
  (8 < fuel)%nat ->
  exists r rest e t',
    Main.process_sentence model float_of_str fuel document t
      = (Ok (r, rest, e), t') /\
    is_str (Main.final r) = true /\
    is_list_of_str (Main.qa_concerns r) = true /\
    is_str (Main.explanation r) = true.
Proof.
  intros Hfuel.
  destruct (segmentation_loop_conforming fuel document t)
    as (s & e & ver & t1 & Hseg); [lia|].
  destruct (main_correct_sentence_conforming model float_of_str Hconf fuel s
              (Preprocessing.calculate_sentence_length s) t1 Hfuel)
    as (r & v & t2 & Hcorr & Hfinal & Hconc & Hexpl).
  unfold Main.process_sentence, bind, ret. rewrite Hseg, Hcorr.
  do 4 eexists. split; [reflexivity|]. repeat split; assumption.
Qed.

(** X4.  With answers of the shape of their schema whose text UTF-8
    encodes (no lone surrogate, so that the progress file takes it) and
    a responsive extractor, the driver of [main] returns: it has
    accounted for the document, and every entry it logged has a string
    as [final]. *)
Theorem main_loop_returns_on_conforming fuel doc t :
  responsive model ->
  encodable_answers model ->
  (9 + List.length doc <= fuel)%nat ->
  exists v t',
    Main.main_loop model float_of_str fuel doc t = (Ok v, t') /\
    strip (Main.document v) = [] /\
    Main.chars_processed v + len (Main.document v) = len doc /\
    Forall (fun r => is_str (Main.final r) = true) (Main.progress_log v).
Proof.
  intros Hresp Hclean Hfuel.
  pose proof (main_loop_returns model float_of_str fuel doc t Hresp Hfuel)
    as Hterm.
  assert (Hlog :
    match fst (Main.main_loop model float_of_str fuel doc t) with
    | Ok v => Forall (fun r => is_str (Main.final r) = true)
                (Main.progress_log v)
    | Raise _ => False
    | OutOfFuel => True
    end).
  { unfold Main.main_loop.
    apply (while_rule Main.main_cond (Main.main_body model float_of_str fuel)
             (fun v _ => Forall (fun r => is_str (Main.final r) = true)
                           (Main.progress_log v))
             (fun o _ =>
                match o with
                | Ok v => Forall (fun r => is_str (Main.final r) = true)
                            (Main.progress_log v)
                | Raise _ => False
                | OutOfFuel => True
                end)).
    - intros v t1 Hv _. exact Hv.
    - intros v t1 e _ Hc. discriminate Hc.
    - intros; exact I.
    - intros v t1 Hv _.
      destruct (segmentation_loop_conforming fuel (Main.document v) t1)
        as (s & e & ver & t2 & Hseg); [lia|].
      destruct (main_correct_sentence_conforming model float_of_str Hconf
                  fuel s (Preprocessing.calculate_sentence_length s) t2)
        as (r & v2 & t3 & Hcorr & Hfinal & Hconc & _); [lia|].
      assert (Hwrite : Main.write_entry r = Ok tt).
      { apply write_entry_writable; [|exact Hconc].
        eapply main_correct_sentence_writable; [exact Hclean| |exact Hcorr].
        eapply segmentation_loop_encodable; [exact Hclean|exact Hseg]. }
      unfold Main.main_body, Main.process_sentence, bind, lift, ret.
      rewrite Hseg, Hcorr, Hwrite. cbn [Main.progress_log].
      apply Forall_app. split; [assumption|]. constructor; [assumption|].
      constructor.
    - constructor. }
  destruct (Main.main_loop model float_of_str fuel doc t) as [[v| |] t']
    eqn:Hrun; cbn [fst] in Hterm, Hlog; try contradiction;
    try (exfalso; apply Hterm; reflexivity).
  exists v, t'. split; [reflexivity|].
  destruct (main_loop_spec model float_of_str fuel doc t v t' Hrun)
    as [(Hrange & Hdoc & _) Hstrip].
  split; [assumption|]. split; [|assumption].
  rewrite Hdoc at 1. rewrite slice_from_length by assumption. lia.
Qed.

End ConformingDriver.

Lemma agreeable_model_conforming : conforming agreeable_model.
Proof.
  split; [|split; [|split]].
  - intros n chunk H. discriminate H.
  - intros n s. exact eq_refl.
  - intros n s. eexists. split; reflexivity.
  - intros n o cs. eexists. split; reflexivity.
Qed.

Lemma agreeable_model_responsive : responsive agreeable_model.
Proof.
  intros n chunk content H. injection H as <-. vm_compute. discriminate.
Qed.

Lemma process_sentence_returns_on_conforming_witness :
  exists r rest e t',
    Main.process_sentence agreeable_model no_str_confidence 9 the_cat_line []
      = (Ok (r, rest, e), t') /\
    is_str (Main.final r) = true /\
    is_list_of_str (Main.qa_concerns r) = true /\
    is_str (Main.explanation r) = true.
Proof.
  apply (process_sentence_returns_on_conforming agreeable_model
           no_str_confidence agreeable_model_conforming 9 the_cat_line []).
  lia.
Defined.

Lemma agreeable_model_encodable : encodable_answers agreeable_model.
Proof.
  split; [|split].
  - intros n chunk content H. injection H as <-. reflexivity.
  - intros n s c H. injection H as <-. reflexivity.
  - intros n o cs q H. injection H as <-. reflexivity.
Qed.

Lemma main_loop_returns_on_conforming_witness :
  exists v t',
    Main.main_loop agreeable_model no_str_confidence 29 the_cat_line []
      = (Ok v, t') /\
    strip (Main.document v) = [] /\
    Main.chars_processed v + len (Main.document v) = len the_cat_line /\
    Forall (fun r => is_str (Main.final r) = true) (Main.progress_log v).
Proof.
  apply (main_loop_returns_on_conforming agreeable_model no_str_confidence
           agreeable_model_conforming 29 the_cat_line []
           agreeable_model_responsive agreeable_model_encodable).
  vm_compute. lia.
Defined.


(** ** [grammar_correction_main] under answers of the shape of their schema *)

Section ConformingBatch.
Variable model : llm.
Variable float_of_str : str -> option pyfloat.
Hypothesis Hconf : conforming model.

(** The inner loop then ends in its first pass, after one QA call. *)
Lemma qa_loop_conforming fuel original v t c :
  (0 < fuel)%nat ->
  correct_wf v ->
  Correct.correction v = Some c ->
  Correct.num_attempts v = 0 ->
  exists v' ev,
    while_ fuel Correct.qa_cond (Correct.qa_body model original) v t
      = (Ok v', t ++ [ev]) /\
    is_qa ev = true /\ is_propose ev = false /\
    correct_wf v' /\
    Correct.correction v' = Some c /\
    (exists q, Correct.qa_result v' = Some q) /\
    (Correct.QA_passed v' = true \/
     Correct.QA_passed v' = Correct.QA_passed v /\
     Correct.attempt v' = Correct.attempt v + 1).
Proof.
  intros Hfuel [Hwc Hwq] Hc Hn.
  destruct fuel as [|fuel]; [lia|].
  rewrite while_unfold. unfold Correct.qa_cond. rewrite Hn.
  change (0 <? Correct.max_qa_attempts) with true. cbv iota.
  destruct Hconf as (_ & _ & _ & Hval).
  destruct (grammar_correction_fields c (Hwc c Hc))
    as (kv & cs & conf & ex & -> & Lcs & _ & _ & _).
  unfold Correct.qa_body, Correct.quality_assurance_check, bind, ask, lift,
    ret.
  rewrite Hc. cbn [read py_getitem]. rewrite Lcs.
  destruct (Hval (List.length t) original (JStr cs)) as (q & Hq & Hqa).
  rewrite Hq.
  destruct (quality_assurance_tests q Hqa) as [Hkeys Hholds].
  rewrite Hkeys, Hholds.
  assert (Hwq' : forall q0, Some q = Some q0 -> QualityAssurance q0 = true).
  { intros q0 H. injection H as <-. exact Hqa. }
  destruct (accepted q); cbn [Correct.qa_yielded_result
    Correct.set_qa_yielded_result].
  - do 2 eexists. split; [reflexivity|]. repeat split.
    + exact Hwc.
    + exact Hwq'.
    + exact Hc.
    + eexists; reflexivity.
    + left; reflexivity.
  - do 2 eexists. split; [reflexivity|]. repeat split.
    + exact Hwc.
    + exact Hwq'.
    + exact Hc.
    + eexists; reflexivity.
    + right. split; reflexivity.
Qed.

(** A pass of the outer loop ends without an exception, keeps the
    invariant and leaves fewer passes. *)
Lemma outer_body_conforming fuel original t0 v t :
  (0 < fuel)%nat ->
  batch_inv t0 v t ->
  Correct.outer_cond v = Ok true ->
  exists v' t',
    Correct.outer_body model float_of_str fuel original v t
      = (Ok (Continue v'), t') /\
    batch_inv t0 v' t' /\
    (passes_left v' < passes_left v)%nat.
Proof.
  intros Hfuel (new & -> & [Hwc Hwq] & Hle & Hst) Hcond.
  unfold Correct.outer_cond in Hcond. injection Hcond as Hcond.
  apply andb_true_iff in Hcond. destruct Hcond as [Hq Hlt].
  apply negb_true_iff in Hq. apply Z.ltb_lt in Hlt.
  rewrite Hq in Hst. destruct Hst as (Hcount & Hhi & _).
  pose proof (count_nonneg is_propose new) as Hpos.
  destruct Hconf as (_ & _ & Hprop & _).
  destruct (Hprop (List.length (t0 ++ new)) original) as (c & Hp & Hgc).
  destruct (grammar_correction_fields c Hgc)
    as (kv & cs & conf & ex & Hckv & Lcs & Lconf & Hfl & Lex).
  destruct (is_float_ok float_of_str conf Hfl) as (f & Hf).
  assert (Hwc' : forall c0, Some c = Some c0 -> GrammarCorrection c0 = true).
  { intros c0 H. injection H as <-. exact Hgc. }
  unfold Correct.outer_body.
  unfold Correct.grammar_correct_proposal at 1.
  unfold bind at 1. unfold bind at 1. unfold ask at 1. rewrite Hp.
  unfold ret at 1. unfold bind at 1. unfold lift at 1.
  assert (Hget : py_getitem c k_confidence = Ok conf).
  { subst c. cbn [py_getitem]. rewrite Lconf. reflexivity. }
  rewrite Hget. unfold bind at 1. unfold lift at 1. rewrite Hf.
  unfold passes_left, Correct.max_attempts in *. rewrite Hq.
  destruct (float_le f half).
  - unfold ret. do 2 eexists. split; [reflexivity|]. split.
    + exists (new ++ [EvPropose original (Decoded c)]).
      rewrite app_assoc. split; [reflexivity|].
      split; [split; [exact Hwc'|exact Hwq]|].
      rewrite !count_app.
      change (count is_propose [EvPropose original (Decoded c)]) with 1.
      change (count is_qa [EvPropose original (Decoded c)]) with 0.
      split; [lia|].
      cbn [Correct.QA_passed Correct.set_attempt Correct.set_correction
           Correct.attempt Correct.correction].
      rewrite Hq. unfold Correct.max_attempts.
      split; [lia|]. split; [lia|].
      intros _. exists c. reflexivity.
    + cbn [Correct.QA_passed Correct.set_attempt Correct.set_correction
           Correct.attempt].
      rewrite Hq. lia.
  - set (v1 := Correct.set_qa_yielded_result false
                 (Correct.set_num_attempts 0 (Correct.set_correction c v))).
    destruct (qa_loop_conforming fuel original v1
                ((t0 ++ new) ++ [EvPropose original (Decoded c)]) c Hfuel)
      as (v' & ev & Hrun & Hev & Hev' & Hwf' & Hc' & (q & Hq') & Hres);
      [split; [exact Hwc'|exact Hwq]|reflexivity|reflexivity|].
    unfold bind, ret. rewrite Hrun.
    do 2 eexists. split; [reflexivity|].
    assert (Hcnt1 : count is_propose [ev] = 0).
    { unfold count. cbn [filter]. rewrite Hev'. reflexivity. }
    assert (Hcnt2 : count is_qa [ev] = 1).
    { unfold count. cbn [filter]. rewrite Hev. reflexivity. }
    split.
    + exists (new ++ [EvPropose original (Decoded c); ev]).
      split; [rewrite app_two, !app_assoc; reflexivity|].
      split; [exact Hwf'|].
      rewrite app_two, !count_app, Hcnt1, Hcnt2.
      change (count is_propose [EvPropose original (Decoded c)]) with 1.
      change (count is_qa [EvPropose original (Decoded c)]) with 0.
      split; [lia|].
      destruct Hres as [Hpass|[Hsame Hatt]].
      * rewrite Hpass. unfold Correct.max_attempts.
        split; [lia|]. exists c, q. split; assumption.
      * rewrite Hsame. subst v1.
        cbn [Correct.QA_passed Correct.set_qa_yielded_result
             Correct.set_num_attempts Correct.set_correction
             Correct.attempt] in Hatt |- *.
        rewrite Hq. rewrite Hatt. unfold Correct.max_attempts.
        split; [lia|]. split; [lia|].
        intros _. exists c. exact Hc'.
    + destruct Hres as [Hpass|[Hsame Hatt]].
      * rewrite Hpass. lia.
      * rewrite Hsame. subst v1.
        cbn [Correct.QA_passed Correct.set_qa_yielded_result
             Correct.set_num_attempts Correct.set_correction
             Correct.attempt] in Hatt |- *.
        rewrite Hq, Hatt. lia.
Qed.

(** The entry of a sentence: [correct_sentence] returns, its entry is made
    of strings, and it has made five proposals at most and one QA call at
    most for each. *)
Lemma correct_sentence_conforming fuel original v t :
  (5 < fuel)%nat ->
  correct_wf v ->
  exists e v' new,
    Correct.correct_sentence model float_of_str fuel original v t
      = (Ok (e, v'), t ++ new) /\
    correct_wf v' /\
    is_str (Correct.final e) = true /\
    is_list_of_str (Correct.qa_concerns e) = true /\
    count is_qa new <= count is_propose new /\
    count is_propose new <= Correct.max_attempts.
Proof.
  intros Hfuel Hwf.
  set (v1 := Correct.set_attempt 0 (Correct.set_QA_passed false v)).
  assert (Hinit : batch_inv t v1 t).
  { exists []. rewrite app_nil_r. split; [reflexivity|].
    split; [exact Hwf|]. split; [reflexivity|].
    cbn. split; [reflexivity|]. split; [discriminate|]. intros H; discriminate H. }
  assert (Hterm :
    fst (while_ fuel Correct.outer_cond
           (Correct.outer_body model float_of_str fuel original) v1 t)
    <> OutOfFuel).
  { apply (while_enough_fuel Correct.outer_cond
             (Correct.outer_body model float_of_str fuel original)
             (batch_inv t) passes_left).
    - intros s H. discriminate H.
    - intros s t1 HI Hc.
      destruct (outer_body_conforming fuel original t s t1) as
        (v' & t' & -> & HI' & Hlt); [lia|assumption|assumption|].
      split; assumption.
    - exact Hinit.
    - unfold passes_left. cbn. lia. }
  assert (Hspec :
    match fst (while_ fuel Correct.outer_cond
                 (Correct.outer_body model float_of_str fuel original) v1 t)
    with
    | Ok v' =>
        batch_inv t v'
          (snd (while_ fuel Correct.outer_cond
                  (Correct.outer_body model float_of_str fuel original) v1 t))
        /\ (Correct.QA_passed v' = false ->
            Correct.attempt v' = Correct.max_attempts)
    | Raise _ => False
    | OutOfFuel => True
    end).
  { apply (while_rule Correct.outer_cond
             (Correct.outer_body model float_of_str fuel original)
             (batch_inv t)
             (fun o t1 =>
                match o with
                | Ok v' =>
                    batch_inv t v' t1 /\
                    (Correct.QA_passed v' = false ->
                     Correct.attempt v' = Correct.max_attempts)
                | Raise _ => False
                | OutOfFuel => True
                end)).
    - intros s t1 HI Hc. split; [assumption|]. intros Hq.
      destruct HI as (new & _ & _ & _ & Hst). rewrite Hq in Hst.
      unfold Correct.outer_cond in Hc. injection Hc as Hc. rewrite Hq in Hc.
      cbn [negb andb] in Hc. apply Z.ltb_ge in Hc. lia.
    - intros s t1 e _ Hc. discriminate Hc.
    - intros; exact I.
    - intros s t1 HI Hc.
      destruct (outer_body_conforming fuel original t s t1) as
        (v' & t' & -> & HI' & _); [lia|assumption|assumption|].
      exact HI'.
    - exact Hinit. }
  unfold Correct.correct_sentence. fold v1. unfold bind, lift, ret.
  destruct (while_ fuel Correct.outer_cond _ v1 t) as [[v'| |] t1];
    cbn [fst snd] in Hterm, Hspec; try contradiction.
  destruct Hspec as [(new & -> & [Hwc Hwq] & Hle & Hst) Hend].
  unfold Correct.store_results, Correct.max_attempts in *.
  destruct (Correct.QA_passed v') eqn:Hq.
  - destruct Hst as (Hhi & c & q & Hc & Hq').
    rewrite Hc, Hq'. cbn [read obind].
    destruct (grammar_correction_fields c (Hwc c Hc))
      as (kv & cs & conf & ex & -> & Lcs & _ & _ & _).
    destruct (quality_assurance_fields q (Hwq q Hq'))
      as (kv' & a & b & c' & l & -> & _ & _ & _ & Ll & Hl).
    cbn [py_getitem py_get obind]. rewrite Lcs, Ll. cbn [obind].
    do 3 eexists. split; [reflexivity|].
    split; [split; assumption|]. cbn [Correct.final Correct.qa_concerns].
    repeat split; assumption.
  - destruct Hst as (Hcount & Hhi & Hsome).
    destruct Hsome as (c & Hc); [rewrite (Hend eq_refl); lia|].
    rewrite Hc. cbn [read obind].
    destruct (grammar_correction_fields c (Hwc c Hc))
      as (kv & cs & conf & ex & -> & Lcs & _ & _ & _).
    cbn [py_getitem obind]. rewrite Lcs. cbn [obind].
    do 3 eexists. split; [reflexivity|].
    split; [split; assumption|]. cbn [Correct.final Correct.qa_concerns].
    repeat split; try assumption. lia.
Qed.

Lemma for_sentences_conforming fuel sentences :
  (5 < fuel)%nat ->
  forall v acc t,
    correct_wf v ->
    Forall (fun e => is_str (Correct.final e) = true) acc ->
    exists results new,
      Correct.for_sentences model float_of_str fuel sentences v acc t
        = (Ok results, t ++ new) /\
      Forall (fun e => is_str (Correct.final e) = true) results /\
      count is_qa new <= count is_propose new /\
      count is_propose new <= Correct.max_attempts * len sentences.
Proof.
  intros Hfuel. induction sentences as [|s rest IH]; intros v acc t Hwf Hacc;
    cbn [Correct.for_sentences].
  - exists acc, []. rewrite app_nil_r. split; [reflexivity|].
    split; [assumption|]. split; [reflexivity|]. cbn. lia.
  - destruct (correct_sentence_conforming fuel
                (Preprocessing.info_sentence s) v t Hfuel Hwf)
      as (e & v' & new & Hone & Hwf' & Hfinal & _ & Hle & Hhi).
    unfold bind. rewrite Hone.
    destruct (IH v' (acc ++ [e]) (t ++ new) Hwf') as
      (results & new' & Hrest & Hall & Hle' & Hhi').
    { apply Forall_app. split; [assumption|]. constructor; [assumption|].
      constructor. }
    exists results, (new ++ new'). rewrite app_assoc.
    split; [exact Hrest|]. split; [assumption|].
    rewrite !count_app. split; [lia|].
    unfold len in *. cbn [List.length]. unfold Correct.max_attempts in *. lia.
Qed.

Lemma str_join_returns sep items :
  Forall (fun j => is_str j = true) items ->
  exists s, str_join sep items = Ok s.
Proof.
  intros Hall. unfold str_join.
  assert (H : exists l, all_strs items = Some l).
  { induction Hall as [|j items Hj _ [l IH]]; [exists []; reflexivity|].
    destruct j; try discriminate. cbn [all_strs]. rewrite IH.
    eexists; reflexivity. }
  destruct H as [l ->]. eexists; reflexivity.
Qed.

(** X8.  With answers of the shape of their schema the batch returns and
    [assemble_corrected_paper] joins its entries; the batch has made five
    proposals at most for each sentence and one QA call at most for each
    proposal. *)
Theorem batch_returns_on_conforming fuel sentences t :
  (5 < fuel)%nat ->
  exists results new paper,
    Correct.grammar_correction_main model float_of_str fuel sentences t
      = (Ok results, t ++ new) /\
    assemble_corrected_paper results = Ok paper /\
    count is_qa new <= count is_propose new /\
    count is_propose new <= Correct.max_attempts * len sentences.
Proof.
  intros Hfuel. unfold Correct.grammar_correction_main.
  destruct (for_sentences_conforming fuel sentences Hfuel Correct.unassigned
              [] t) as (results & new & Hrun & Hall & Hle & Hhi).
  { split; intros x H; discriminate H. }
  { constructor. }
  destruct (str_join_returns (str_of " ") (map Correct.final results))
    as [paper Hpaper].
  { apply Forall_map. exact Hall. }
  exists results, new, paper. repeat split; assumption.
Qed.

End ConformingBatch.

Lemma batch_returns_on_conforming_witness :
  exists results new paper,
    Correct.grammar_correction_main agreeable_model no_str_confidence 6
      two_sentences [] = (Ok results, [] ++ new) /\
    assemble_corrected_paper results = Ok paper /\
    count is_qa new <= count is_propose new /\
    count is_propose new <= Correct.max_attempts * len two_sentences.
Proof.
  apply (batch_returns_on_conforming agreeable_model no_str_confidence
           agreeable_model_conforming 6 two_sentences []).
  lia.
Defined.


(** ** The number of calls of [process_sentence] and of [main] *)

Section Calls.

Lemma calls_weaken {A : Type} n m (c : M A) :
  n <= m -> calls_at_most n c -> calls_at_most m c.
Proof.
  intros Hle Hc t. destruct (Hc t) as (new & H & Hn).
  exists new. split; [assumption|lia].
Qed.

Lemma calls_ret {A : Type} (a : A) : calls_at_most 0 (ret a).
Proof. intros t. exists []. rewrite app_nil_r. split; [reflexivity|cbn; lia]. Qed.

Lemma calls_raise {A : Type} e : calls_at_most 0 (@raise A e).
Proof. intros t. exists []. rewrite app_nil_r. split; [reflexivity|cbn; lia]. Qed.

Lemma calls_lift {A : Type} (o : outcome A) : calls_at_most 0 (lift o).
Proof.
  intros t. exists []. rewrite app_nil_r. split; [|cbn; lia].
  destruct o; reflexivity.
Qed.

Lemma calls_ask {R : Type} (oracle : nat -> R) (ev : R -> event) :
  calls_at_most 1 (ask oracle ev).
Proof. intros t. eexists. split; [reflexivity|cbn; lia]. Qed.

Lemma calls_bind {A B : Type} n m (c : M A) (k : A -> M B) :
  0 <= m ->
  calls_at_most n c -> (forall a, calls_at_most m (k a)) ->
  calls_at_most (n + m) (bind c k).
Proof.
  intros Hm Hc Hk t. unfold bind.
  destruct (Hc t) as (n1 & H1 & L1).
  destruct (c t) as [[a| |] t1]; cbn [snd] in H1; subst t1;
    try (exists n1; split; [reflexivity|lia]).
  destruct (Hk a (t ++ n1)) as (n2 & H2 & L2).
  exists (n1 ++ n2). rewrite H2, app_assoc, len_app.
  split; [reflexivity|lia].
Qed.

(** A loop whose passes make [b] calls at most each and decrease a
    measure that is positive whenever the condition holds. *)
Lemma calls_while {S : Type} (cond : S -> outcome bool)
    (body : S -> M (ctl S)) (mu : S -> Z) (b : Z) :
  0 <= b ->
  (forall s, cond s = Ok true -> 1 <= mu s) ->
  (forall s, cond s = Ok true -> calls_at_most b (body s)) ->
  (forall s t s' t', cond s = Ok true ->
     body s t = (Ok (Continue s'), t') -> mu s' <= mu s - 1) ->
  forall fuel s, calls_at_most (b * Z.max 0 (mu s)) (while_ fuel cond body s).
Proof.
  intros Hb Hpos Hbody Hdec.
  induction fuel as [|fuel IH]; intros s t.
  - exists []. rewrite app_nil_r. split; [reflexivity|]. cbn. nia.
  - rewrite while_unfold.
    destruct (cond s) as [[|]| |] eqn:Hc;
      try (exists []; rewrite app_nil_r; split; [reflexivity|cbn; nia]).
    specialize (Hpos s Hc). specialize (Hdec s t).
    destruct (Hbody s Hc t) as (n1 & H1 & L1).
    destruct (body s t) as [[[s'|s']| |] t1]; cbn [snd] in H1; subst t1;
      try (exists n1; split; [reflexivity|nia]).
    specialize (Hdec s' (t ++ n1) Hc eq_refl).
    destruct (IH s' (t ++ n1)) as (n2 & H2 & L2).
    exists (n1 ++ n2). rewrite H2, app_assoc, len_app.
    split; [reflexivity|]. pose proof (len_nonneg n2). nia.
Qed.

Variable model : llm.
Variable float_of_str : str -> option pyfloat.

Lemma calls_extract text max_chunk :
  calls_at_most 1
    (Preprocessing.extract_sentence_from_queue model text max_chunk).
Proof.
  unfold Preprocessing.extract_sentence_from_queue.
  apply (calls_bind 1 0); [lia|apply calls_ask|].
  intros [content|]; [apply calls_ret|apply calls_raise].
Qed.

Lemma calls_double_check s :
  calls_at_most 1 (Preprocessing.double_check_preprocessing model s).
Proof.
  unfold Preprocessing.double_check_preprocessing.
  apply (calls_bind 1 0); [lia|apply calls_ask|].
  intros [j| | |]; first [apply calls_ret|apply calls_raise].
Qed.

Lemma calls_proposal s :
  calls_at_most 1 (Correct.grammar_correct_proposal model s).
Proof.
  unfold Correct.grammar_correct_proposal.
  apply (calls_bind 1 0); [lia|apply calls_ask|].
  intros [j| | |]; first [apply calls_ret|apply calls_raise].
Qed.

Lemma calls_qa o c :
  calls_at_most 1 (Correct.quality_assurance_check model o c).
Proof.
  unfold Correct.quality_assurance_check.
  apply (calls_bind 1 0); [lia|apply calls_ask|].
  intros [j| | |]; first [apply calls_ret|apply calls_raise].
Qed.

Lemma calls_seg_body document v :
  calls_at_most 2 (Preprocessing.seg_body model document v).
Proof.
  unfold Preprocessing.seg_body.
  apply (calls_bind 1 1); [lia|apply calls_extract|].
  intros [s e].
  apply (calls_bind 1 0); [lia|apply calls_double_check|].
  intros ver. apply calls_ret.
Qed.

Lemma calls_segmentation_loop fuel document :
  calls_at_most 10 (Preprocessing.segmentation_loop model fuel document).
Proof.
  unfold Preprocessing.segmentation_loop.
  apply (calls_bind 10 0); [lia| |].
  - apply (calls_while Preprocessing.seg_cond
             (Preprocessing.seg_body model document)
             (fun v => Preprocessing.max_attempts - Preprocessing.attempt v)
             2).
    + lia.
    + intros s Hc. unfold Preprocessing.seg_cond, obind in Hc.
      destruct (py_getitem _ _); try discriminate.
      injection Hc as Hc. apply andb_true_iff in Hc.
      destruct Hc as [_ Hc]. apply Z.ltb_lt in Hc. lia.
    + intros s _. apply calls_seg_body.
    + intros s t s' t' _.
      unfold Preprocessing.seg_body,
        Preprocessing.extract_sentence_from_queue,
        Preprocessing.double_check_preprocessing, bind, ask, ret, raise.
      repeat case_step; intros H; try discriminate H;
        injection H as <- _; cbn [Preprocessing.attempt]; lia.
  - intros v.
    apply (calls_bind 0 0); [lia|apply calls_lift|]. intros _.
    apply (calls_bind 0 0); [lia|apply calls_lift|]. intros s.
    apply (calls_bind 0 0); [lia|apply calls_lift|]. intros e.
    apply calls_ret.
Qed.

Lemma calls_corr_body sentence v :
  calls_at_most 2 (Main.corr_body model float_of_str sentence v).
Proof.
  unfold Main.corr_body.
  apply (calls_bind 1 1); [lia|apply calls_proposal|]. intros c.
  apply (calls_bind 0 1); [lia|apply calls_lift|]. intros has.
  destruct (negb has); [apply (calls_weaken 0); [lia|apply calls_ret]|].
  apply (calls_bind 0 1); [lia|apply calls_lift|]. intros conf.
  apply (calls_bind 0 1); [lia|apply calls_lift|]. intros f.
  destruct (float_le f half);
    [apply (calls_weaken 0); [lia|apply calls_ret]|].
  apply (calls_bind 0 1); [lia|apply calls_lift|]. intros cs.
  apply (calls_bind 1 0); [lia|apply calls_qa|]. intros q.
  apply (calls_bind 0 0); [lia|apply calls_lift|]. intros present.
  destruct (negb present); [apply calls_ret|].
  apply (calls_bind 0 0); [lia|apply calls_lift|]. intros ok.
  destruct ok; apply calls_ret.
Qed.

Lemma corr_body_spends sentence v t v' t' :
  Main.corr_body model float_of_str sentence v t = (Ok (Continue v'), t') ->
  Main.correction_attempt v' = Main.correction_attempt v + 1.
Proof.
  unfold Main.corr_body, Correct.grammar_correct_proposal,
    Correct.quality_assurance_check, bind, ask, lift, ret, raise.
  repeat case_step; intros H; try discriminate H;
    injection H as <- _; reflexivity.
Qed.

Lemma calls_main_correct_sentence fuel sentence lengths :
  calls_at_most 16
    (Main.correct_sentence model float_of_str fuel sentence lengths).
Proof.
  unfold Main.correct_sentence.
  apply (calls_bind 16 0); [lia| |].
  - apply (calls_while Main.corr_cond
             (Main.corr_body model float_of_str sentence)
             (fun v => Main.max_correction_attempts
                       - Main.correction_attempt v) 2).
    + lia.
    + intros s Hc. unfold Main.corr_cond in Hc. injection Hc as Hc.
      apply andb_true_iff in Hc. destruct Hc as [_ Hc].
      apply Z.ltb_lt in Hc. lia.
    + intros s _. apply calls_corr_body.
    + intros s t s' t' _ H. apply corr_body_spends in H. lia.
  - intros v.
    apply (calls_bind 0 0); [lia|apply calls_lift|]. intros r.
    apply calls_ret.
Qed.

(** X3.  However the model answers and however it ends,
    [process_sentence] makes 26 calls at most: 10 to segment and 16 to
    correct. *)
Theorem process_sentence_call_budget fuel document :
  calls_at_most 26 (Main.process_sentence model float_of_str fuel document).
Proof.
  unfold Main.process_sentence.
  apply (calls_bind 10 16); [lia|apply calls_segmentation_loop|].
  intros [[s e] ver].
  apply (calls_bind 16 0); [lia|apply calls_main_correct_sentence|].
  intros [r v]. apply calls_ret.
Qed.

(** X5.  With a responsive extractor the driver of [main] makes 26 calls
    at most for each character of the document. *)
Theorem main_loop_call_budget fuel doc :
  responsive model ->
  calls_at_most (26 * len doc) (Main.main_loop model float_of_str fuel doc).
Proof.
  intros Hresp. unfold Main.main_loop.
  pose proof (len_nonneg doc) as Hdoc.
  replace (len doc) with (Z.max 0 (len (Main.document (Main.main_init doc))))
    by (cbn [Main.document Main.main_init]; lia).
  apply (calls_while Main.main_cond (Main.main_body model float_of_str fuel)
           (fun v => len (Main.document v)) 26).
  - lia.
  - intros s Hc. unfold Main.main_cond in Hc. apply len_pos.
    intros Hnil. rewrite Hnil in Hc. discriminate Hc.
  - intros s _. unfold Main.main_body.
    apply (calls_bind 26 0); [lia| |].
    + unfold Main.process_sentence.
      apply (calls_bind 10 16); [lia|apply calls_segmentation_loop|].
      intros [[x e] ver].
      apply (calls_bind 16 0); [lia|apply calls_main_correct_sentence|].
      intros [r v]. apply calls_ret.
    + intros [[r rest] e].
      apply (calls_bind 0 0); [lia|apply calls_lift|]. intros _.
      apply calls_ret.
  - intros s t s' t' Hc. unfold Main.main_body, bind, lift, ret.
    destruct (Main.process_sentence model float_of_str fuel
                (Main.document s) t) as [[[[r rest] e]| |] t1] eqn:Hp;
      try discriminate.
    destruct (Main.write_entry r); try discriminate.
    intros H. injection H as <- _. cbn [Main.document].
    apply process_sentence_range in Hp.
    destruct Hp as (-> & Hrange & Hprog).
    assert (Hne : Main.document s <> []).
    { unfold Main.main_cond in Hc. intros Hnil. rewrite Hnil in Hc.
      discriminate Hc. }
    specialize (Hprog Hresp Hne).
    rewrite slice_from_length by lia. lia.
Qed.

End Calls.

Lemma main_loop_call_budget_witness :
  calls_at_most (26 * len the_cat_line)
    (Main.main_loop agreeable_model no_str_confidence 29 the_cat_line).
Proof.
  apply (main_loop_call_budget agreeable_model no_str_confidence 29
           the_cat_line agreeable_model_responsive).
Defined.


(** ** A sentence that occurs in its chunk *)

(** [find_from] gives the first occurrence. *)
Lemma find_from_found sub s i :
  find_from sub s i <> -1 ->
  exists pre post,
    s = pre ++ sub ++ post /\
    find_from sub s i = i + len pre /\
    forall pre' post', s = pre' ++ sub ++ post' -> len pre <= len pre'.
Proof.
  revert i. induction s as [|c s IH]; intros i; cbn [find_from].
  - destruct sub as [|a sub]; [|intros H; contradiction H; reflexivity].
    intros _. exists [], []. split; [reflexivity|]. split; [cbn; lia|].
    intros pre' post' _. pose proof (len_nonneg pre'). cbn. lia.
  - destruct (starts_with sub (c :: s)) eqn:Hsw.
    + intros _. apply starts_with_spec in Hsw. destruct Hsw as [post Hpost].
      exists [], post. split; [exact Hpost|]. split; [cbn; lia|].
      intros pre' post' _. pose proof (len_nonneg pre'). cbn. lia.
    + intros Hfound. destruct (IH (i + 1) Hfound) as (pre & post & Hs & Hidx & Hmin).
      exists (c :: pre), post. split; [rewrite Hs; reflexivity|].
      split; [rewrite Hidx; unfold len; cbn [List.length]; lia|].
      intros pre' post' Heq. destruct pre' as [|c' pre'].
      * exfalso. assert (Hsw' : starts_with sub (c :: s) = true).
        { apply starts_with_spec. exists post'. exact Heq. }
        rewrite Hsw in Hsw'. discriminate Hsw'.
      * injection Heq as _ Heq. specialize (Hmin pre' post' Heq).
        unfold len in *. cbn [List.length]. lia.
Qed.

Lemma slice_to_app {A : Type} (a b : list A) : slice_to (a ++ b) (len a) = a.
Proof.
  unfold slice_to. pose proof (len_nonneg a) as H.
  destruct (Z.ltb_spec (len a) 0); [lia|].
  unfold len. rewrite Nat2Z.id. rewrite firstn_app, Nat.sub_diag.
  rewrite firstn_all. cbn [firstn]. apply app_nil_r.
Qed.

Lemma slice_from_app {A : Type} (a b : list A) :
  slice_from (a ++ b) (len a) = b.
Proof.
  unfold slice_from. pose proof (len_nonneg a) as H.
  destruct (Z.ltb_spec (len a) 0); [lia|].
  unfold len. rewrite Nat2Z.id. rewrite skipn_app, Nat.sub_diag.
  rewrite skipn_all. reflexivity.
Qed.

Lemma slice_to_slice_from {A : Type} (s : list A) n :
  s = slice_to s n ++ slice_from s n.
Proof.
  unfold slice_to, slice_from.
  destruct (n <? 0); symmetry; apply firstn_skipn.
Qed.

(** X9.  When the sentence that the extractor returned, stripped, occurs
    in the chunk, [extract_sentence_from_queue] returns it with the index
    where its first occurrence ends: the text is what precedes that
    occurrence, the sentence, and what [text[end_index:]] keeps. *)
Theorem extract_found_cuts_after_first_occurrence (model : llm) (text : str)
    (max_chunk : Z) (t : trace) (content : str) :
  let chunk := slice_to text max_chunk in
  extractor model (List.length t) chunk = Some content ->
  (exists pre post, chunk = pre ++ strip content ++ post) ->
  exists pre e,
    Preprocessing.extract_sentence_from_queue model text max_chunk t =
      (Ok (strip content, e),
       t ++ [EvExtract text max_chunk (Some content)]) /\
    e = len pre + len (strip content) /\
    text = pre ++ strip content ++ slice_from text e /\
    forall pre' post',
      chunk = pre' ++ strip content ++ post' -> len pre <= len pre'.
Proof.
  cbv zeta. intros He Hocc.
  assert (Hfound : find (slice_to text max_chunk) (strip content) <> -1).
  { intros Hnone. apply find_none in Hnone. contradiction. }
  unfold find in Hfound.
  destruct (find_from_found _ _ 0 Hfound) as (pre & post & Hchunk & Hidx & Hmin).
  exists pre, (len pre + len (strip content)).
  split; [|split; [reflexivity|split; [|exact Hmin]]].
  - unfold Preprocessing.extract_sentence_from_queue, bind, ask, ret.
    rewrite He. unfold Preprocessing.locate, find.
    destruct (Z.eqb_spec (find_from (strip content) (slice_to text max_chunk) 0)
                (-1)) as [Heq|_]; [contradiction|].
    rewrite Hidx. reflexivity.
  - pose proof (slice_to_slice_from text max_chunk) as Htext.
    rewrite Hchunk in Htext.
    replace (len pre + len (strip content))
      with (len (pre ++ strip content)) by apply len_app.
    rewrite Htext at 2.
    replace ((pre ++ strip content ++ post) ++ slice_from text max_chunk)
      with ((pre ++ strip content) ++ post ++ slice_from text max_chunk)
      by (rewrite <- !app_assoc; reflexivity).
    rewrite slice_from_app. rewrite Htext at 1.
    rewrite <- !app_assoc. reflexivity.
Qed.

Lemma extract_found_cuts_after_first_occurrence_witness :
  exists pre e,
    Preprocessing.extract_sentence_from_queue agreeable_model the_cat_line
      500 [] =
      (Ok (strip the_cat, e),
       [] ++ [EvExtract the_cat_line 500 (Some the_cat)]) /\
    e = len pre + len (strip the_cat) /\
    the_cat_line = pre ++ strip the_cat ++ slice_from the_cat_line e /\
    forall pre' post',
      slice_to the_cat_line 500 = pre' ++ strip the_cat ++ post' ->
      len pre <= len pre'.
Proof.
  apply (extract_found_cuts_after_first_occurrence agreeable_model
           the_cat_line 500 [] the_cat eq_refl).
  exists [], (str_of " "). vm_compute. reflexivity.
Defined.


(** ** [preprocessing_main] under answers of the shape of their schema *)

Section ConformingPreprocessing.
Variable model : llm.
Hypothesis Hconf : conforming model.
Hypothesis Hresp : responsive model.

Lemma pre_body_conforming fuel v t :
  (5 < fuel)%nat ->
  Preprocessing.pre_cond v = Ok true ->
  exists c t',
    Preprocessing.pre_body model fuel v t = (Ok c, t') /\
    let v' := match c with Continue v' => v' | Break v' => v' end in
    (exists s,
        Preprocessing.pre_results v' =
          Preprocessing.pre_results v ++
          [{| Preprocessing.info_sentence := s;
              Preprocessing.info_length := len s |}]) /\
    len (Preprocessing.pre_document v')
      <= len (Preprocessing.pre_document v) - 1.
Proof.
  intros Hfuel Hc.
  assert (Hne : Preprocessing.pre_document v <> []).
  { unfold Preprocessing.pre_cond in Hc. intros Hnil. rewrite Hnil in Hc.
    discriminate Hc. }
  destruct (segmentation_loop_conforming model Hconf fuel
              (Preprocessing.pre_document v) t Hfuel)
    as (s & e & ver & t1 & Hseg).
  pose proof (segmentation_loop_range model fuel _ _ _ _ _ _ Hseg)
    as [Hrange Hprog].
  specialize (Hprog Hresp Hne).
  unfold Preprocessing.pre_body, bind, ret. rewrite Hseg.
  cbn [Preprocessing.pre_document].
  destruct (len (strip (slice_from (Preprocessing.pre_document v) e)) <? 3);
    do 2 eexists; (split; [reflexivity|]); cbv zeta;
    cbn [Preprocessing.pre_document Preprocessing.pre_results];
    (split; [exists s; reflexivity|]);
    rewrite slice_from_length by lia; lia.
Qed.

(** X10.  With answers of the shape of their schema and a responsive
    extractor [preprocessing_main] returns.  Every entry carries the
    length of its sentence, and there are no more entries than the
    document has characters. *)
Theorem preprocessing_main_returns_on_conforming fuel doc t :
  (5 + List.length doc < fuel)%nat ->
  exists results t',
    Preprocessing.preprocessing_main model fuel doc t = (Ok results, t') /\
    Forall (fun i => Preprocessing.info_length i
                     = len (Preprocessing.info_sentence i)) results /\
    len results <= len doc.
Proof.
  intros Hfuel.
  set (P := fun i => Preprocessing.info_length i
                     = len (Preprocessing.info_sentence i)).
  set (I := fun (v : Preprocessing.pre_vars) (_ : trace) =>
              Forall P (Preprocessing.pre_results v) /\
              len (Preprocessing.pre_results v)
                + len (Preprocessing.pre_document v) <= len doc).
  set (v0 := {| Preprocessing.pre_document := doc;
                Preprocessing.pre_results := [] |}).
  assert (Hinit : I v0 t).
  { split; [constructor|]. cbn. unfold len. lia. }
  assert (Hstep : forall v t1, I v t1 -> Preprocessing.pre_cond v = Ok true ->
            exists c t2,
              Preprocessing.pre_body model fuel v t1 = (Ok c, t2) /\
              I (match c with Continue v' => v' | Break v' => v' end) t2 /\
              len (Preprocessing.pre_document
                     (match c with Continue v' => v' | Break v' => v' end))
                <= len (Preprocessing.pre_document v) - 1).
  { intros v t1 [Hall Hsum] Hc.
    destruct (pre_body_conforming fuel v t1) as (c & t2 & Hb & Hres & Hlen);
      [lia|assumption|].
    cbv zeta in Hres, Hlen. destruct Hres as [s Hres].
    exists c, t2. split; [assumption|]. split; [|assumption].
    split.
    - rewrite Hres. apply Forall_app. split; [assumption|].
      constructor; [reflexivity|constructor].
    - rewrite Hres, len_app. cbn [len List.length Z.of_nat] in *.
      change (len [{| Preprocessing.info_sentence := s;
                      Preprocessing.info_length := len s |}]) with 1.
      lia. }
  assert (Hterm :
    fst (while_ fuel Preprocessing.pre_cond
           (Preprocessing.pre_body model fuel) v0 t) <> OutOfFuel).
  { apply (while_enough_fuel Preprocessing.pre_cond
             (Preprocessing.pre_body model fuel) I
             (fun v => List.length (Preprocessing.pre_document v))).
    - intros s H. discriminate H.
    - intros s t1 HI Hc.
      destruct (Hstep s t1 HI Hc) as (c & t2 & -> & HI' & Hlen).
      destruct c as [v'|v']; [|exact Logic.I].
      split; [assumption|]. unfold len in Hlen. lia.
    - exact Hinit.
    - cbn. lia. }
  assert (Hspec :
    match fst (while_ fuel Preprocessing.pre_cond
                 (Preprocessing.pre_body model fuel) v0 t) with
    | Ok v => I v t
    | Raise _ => False
    | OutOfFuel => True
    end).
  { apply (while_rule Preprocessing.pre_cond
             (Preprocessing.pre_body model fuel)
             (fun v _ => I v t)
             (fun o _ => match o with
                         | Ok v => I v t
                         | Raise _ => False
                         | OutOfFuel => True
                         end)).
    - intros s t1 HI _. exact HI.
    - intros s t1 e _ Hc. discriminate Hc.
    - intros; exact Logic.I.
    - intros s t1 HI Hc.
      destruct (Hstep s t1 HI Hc) as (c & t2 & -> & HI' & _).
      destruct c as [v'|v']; exact HI'.
    - exact Hinit. }
  unfold Preprocessing.preprocessing_main, bind, ret. fold v0.
  destruct (while_ fuel Preprocessing.pre_cond _ v0 t) as [[v| |] t'];
    cbn [fst] in Hterm, Hspec; try contradiction.
  destruct Hspec as [Hall Hsum].
  exists (Preprocessing.pre_results v), t'. split; [reflexivity|].
  split; [exact Hall|].
  pose proof (len_nonneg (Preprocessing.pre_document v)). lia.
Qed.

End ConformingPreprocessing.

Lemma preprocessing_main_returns_on_conforming_witness :
  exists results t',
    Preprocessing.preprocessing_main agreeable_model 26 the_cat_line []
      = (Ok results, t') /\
    Forall (fun i => Preprocessing.info_length i
                     = len (Preprocessing.info_sentence i)) results /\
    len results <= len the_cat_line.
Proof.
  apply (preprocessing_main_returns_on_conforming agreeable_model
           agreeable_model_conforming agreeable_model_responsive 26
           the_cat_line []).
  vm_compute. lia.
Defined.


(** ** utils.py: [convert_json_values] *)

(** Induction on a decoded value, with the items of a list and the values
    of a dict as smaller values. *)
Lemma json_induction (P : json -> Prop) :
  P JNull ->
  (forall b, P (JBool b)) ->
  (forall q, P (JNum q)) ->
  (forall n, P (JInf n)) ->
  P JNaN ->
  (forall s, P (JStr s)) ->
  (forall l, Forall P l -> P (JArr l)) ->
  (forall kv, Forall (fun item => P (snd item)) kv -> P (JObj kv)) ->
  forall j, P j.
Proof.
  intros Hnull Hbool Hnum Hinf Hnan Hstr Harr Hobj.
  fix IH 1. intros [|b|q|n| |s|l|kv].
  - exact Hnull.
  - apply Hbool.
  - apply Hnum.
  - apply Hinf.
  - exact Hnan.
  - apply Hstr.
  - apply Harr. induction l as [|a l IHl]; constructor; [apply IH|exact IHl].
  - apply Hobj. induction kv as [|[k v] kv IHkv]; constructor;
      [apply IH|exact IHkv].
Qed.

Section ConvertJsonValues.
Variable lower : str -> str.
Variable int_of_str : str -> option Z.
Variable float_of_str : str -> option pyfloat.

(** What [convert_json_values] makes of a [str] it leaves alone on a
    second pass. *)
Lemma convert_str_fixed s :
  Utils.convert_json_values lower int_of_str float_of_str
    (Utils.convert_str lower int_of_str float_of_str s)
  = Utils.convert_str lower int_of_str float_of_str s.
Proof.
  unfold Utils.convert_str.
  destruct (str_eqb (lower s) (str_of "true")) eqn:Ht; [reflexivity|].
  destruct (str_eqb (lower s) (str_of "false")) eqn:Hf; [reflexivity|].
  destruct (existsb (N.eqb 46) s) eqn:Hdot.
  - destruct (float_of_str s) as [[q| | |]|] eqn:Hfl; try reflexivity.
    cbn [Utils.convert_json_values]. unfold Utils.convert_str.
    rewrite Ht, Hf, Hdot, Hfl. reflexivity.
  - destruct (int_of_str s) as [z|] eqn:Hint; [reflexivity|].
    cbn [Utils.convert_json_values]. unfold Utils.convert_str.
    rewrite Ht, Hf, Hdot, Hint. reflexivity.
Qed.

(** X11.  Converting twice is converting once, whatever [str.lower],
    [int] and [float] do. *)
Theorem convert_json_values_idempotent j :
  Utils.convert_json_values lower int_of_str float_of_str
    (Utils.convert_json_values lower int_of_str float_of_str j)
  = Utils.convert_json_values lower int_of_str float_of_str j.
Proof.
  induction j as [|b|q|n| |s|l IH|kv IH] using json_induction;
    try reflexivity.
  - apply convert_str_fixed.
  - cbn [Utils.convert_json_values]. f_equal.
    induction IH as [|a l Ha _ IHl]; [reflexivity|].
    cbn [map]. rewrite Ha, IHl. reflexivity.
  - cbn [Utils.convert_json_values]. f_equal.
    induction IH as [|a kv Ha _ IHkv]; [reflexivity|].
    cbn [map fst snd]. rewrite Ha, IHkv. reflexivity.
Qed.

(** X12.  The converted dict has the keys of the dict, and under each
    the converted value: [convert_json_values(d)[k]] is
    [convert_json_values(d[k])], and a [KeyError] alike. *)
Theorem convert_json_values_getitem kv k :
  py_getitem
    (Utils.convert_json_values lower int_of_str float_of_str (JObj kv)) k =
  match py_getitem (JObj kv) k with
  | Ok v => Ok (Utils.convert_json_values lower int_of_str float_of_str v)
  | other => other
  end.
Proof.
  cbn [Utils.convert_json_values py_getitem].
  induction kv as [|[k' v] kv IH]; [reflexivity|].
  cbn [map lookup fst snd].
  destruct (str_eqb k k'); [reflexivity|exact IH].
Qed.

End ConvertJsonValues.


(** ** minimal_setup.py *)

Lemma halve_other c d :
  c <> 92%N ->
  MinimalSetup.halve_backslashes (c :: d)
  = c :: MinimalSetup.halve_backslashes d.
Proof.
  intros Hc. apply N.eqb_neq in Hc.
  destruct d as [|c' d]; [reflexivity|].
  cbn [MinimalSetup.halve_backslashes]. rewrite Hc. reflexivity.
Qed.

(** X18.  Restoring the backslashes, as the script does before it
    compares a segment with its correction, undoes the doubling that
    [extract_sentences] ends with. *)
Theorem halve_double_backslashes s :
  MinimalSetup.halve_backslashes (MinimalSetup.double_backslashes s) = s.
Proof.
  induction s as [|c s IH]; [reflexivity|].
  cbn [MinimalSetup.double_backslashes].
  destruct (N.eqb_spec c 92) as [->|Hc].
  - change (MinimalSetup.halve_backslashes
              (92%N :: 92%N :: MinimalSetup.double_backslashes s))
      with (92%N :: MinimalSetup.halve_backslashes
                      (MinimalSetup.double_backslashes s)).
    rewrite IH. reflexivity.
  - rewrite halve_other by assumption. rewrite IH. reflexivity.
Qed.

Section FloatOrder.

Lemma float_gt_irrefl a : MinimalSetup.float_gt a a = false.
Proof.
  destruct a as [q| | |]; try reflexivity.
  cbn [MinimalSetup.float_gt]. apply negb_false_iff.
  apply Qle_bool_iff. apply Qle_refl.
Qed.

Lemma float_gt_trans a b c :
  MinimalSetup.float_gt a b = true -> MinimalSetup.float_gt b c = true ->
  MinimalSetup.float_gt a c = true.
Proof.
  destruct a as [x| | |], b as [y| | |], c as [z| | |];
    cbn [MinimalSetup.float_gt]; try discriminate; try reflexivity.
  intros H1 H2. apply negb_true_iff in H1, H2. apply negb_true_iff.
  apply not_true_iff_false. intros H. apply Qle_bool_iff in H.
  apply not_true_iff_false in H1, H2.
  apply H1. apply Qle_bool_iff.
  apply Qle_trans with z; [assumption|].
  destruct (Qlt_le_dec z y) as [Hlt|Hle]; [apply Qlt_le_weak; assumption|].
  exfalso. apply H2. apply Qle_bool_iff. assumption.
Qed.

(** What is not above [b] is not above what is above [b]. *)
Lemma float_gt_below x b c :
  MinimalSetup.float_gt x b = false -> MinimalSetup.float_gt c b = true ->
  MinimalSetup.float_gt x c = false.
Proof.
  destruct x as [x| | |], b as [y| | |], c as [z| | |];
    cbn [MinimalSetup.float_gt]; try discriminate; try reflexivity.
  intros H1 H2. apply negb_false_iff in H1. apply negb_true_iff in H2.
  apply negb_false_iff. apply Qle_bool_iff in H1. apply Qle_bool_iff.
  apply not_true_iff_false in H2.
  apply Qle_trans with y; [assumption|].
  destruct (Qlt_le_dec y z) as [Hlt|Hle]; [apply Qlt_le_weak; assumption|].
  exfalso. apply H2. apply Qle_bool_iff. assumption.
Qed.

End FloatOrder.

Section CheckGrammar.
Variable invoke : nat -> str -> option MinimalSetup.GrammarCorrection.
Variable sent : str.
Variable n : nat.

Lemma attempts_spec fuel :
  forall v,
    check_inv invoke sent n v ->
    0 <= MinimalSetup.num_attempts v <= MinimalSetup.max_attempts ->
    MinimalSetup.calls v
      = (n + Z.to_nat (MinimalSetup.num_attempts v))%nat ->
    match MinimalSetup.attempts invoke fuel sent v with
    | Ok v' =>
        check_inv invoke sent n v' /\
        (MinimalSetup.calls v' <= n + 5)%nat /\
        ((MinimalSetup.calls v' < n + 5)%nat ->
         MinimalSetup.float_gt (MinimalSetup.highest_confidence v')
           (Fin (6 # 10)) = true)
    | _ => True
    end.
Proof.
  unfold MinimalSetup.max_attempts.
  induction fuel as [|fuel IH]; intros v Hinv Hnum Hcalls; [exact I|].
  cbn [MinimalSetup.attempts]. unfold MinimalSetup.max_attempts.
  destruct (Z.ltb_spec (MinimalSetup.num_attempts v) 5) as [Hlt|Hge].
  2:{ split; [assumption|]. split; lia. }
  destruct (invoke (MinimalSetup.calls v) sent) as [c|] eqn:Hask;
    [|exact I].
  cbv zeta.
  cbn [MinimalSetup.num_attempts MinimalSetup.highest_confidence
       MinimalSetup.correction_with_high_confidence MinimalSetup.calls].
  set (better := MinimalSetup.float_gt (MinimalSetup.confidence c)
                   (MinimalSetup.highest_confidence v)).
  assert (Hinv' : forall k,
    check_inv invoke sent n
      {| MinimalSetup.num_attempts := k;
         MinimalSetup.highest_confidence :=
           if better then MinimalSetup.confidence c
           else MinimalSetup.highest_confidence v;
         MinimalSetup.correction_with_high_confidence :=
           if better then Some c
           else MinimalSetup.correction_with_high_confidence v;
         MinimalSetup.calls := S (MinimalSetup.calls v) |}).
  { intros k. destruct Hinv as [Hall Hkept].
    unfold check_inv.
    cbn [MinimalSetup.highest_confidence
         MinimalSetup.correction_with_high_confidence MinimalSetup.calls].
    destruct better eqn:Hb; subst better.
    - split.
      + intros j c' Hj Hc'.
        destruct (Nat.eq_dec j (MinimalSetup.calls v)) as [->|Hne].
        * rewrite Hask in Hc'. injection Hc' as <-. apply float_gt_irrefl.
        * apply float_gt_below with (MinimalSetup.highest_confidence v);
            [|assumption].
          apply (Hall j c'); [lia|assumption].
      + split; [reflexivity|]. split.
        * destruct (MinimalSetup.correction_with_high_confidence v) as [c0|].
          -- destruct Hkept as (Hh & Hpos & _).
             apply float_gt_trans with (MinimalSetup.highest_confidence v);
               [assumption|]. rewrite Hh. assumption.
          -- rewrite Hkept in Hb. assumption.
        * exists (MinimalSetup.calls v). split; [lia|assumption].
    - split.
      + intros j c' Hj Hc'.
        destruct (Nat.eq_dec j (MinimalSetup.calls v)) as [->|Hne].
        * rewrite Hask in Hc'. injection Hc' as <-. assumption.
        * apply (Hall j c'); [lia|assumption].
      + destruct (MinimalSetup.correction_with_high_confidence v) as [c0|];
          [|assumption].
        destruct Hkept as (Hh & Hpos & j & Hj & Hc0).
        split; [assumption|]. split; [assumption|].
        exists j. split; [lia|assumption]. }
  destruct (MinimalSetup.float_gt
              (if better then MinimalSetup.confidence c
               else MinimalSetup.highest_confidence v) (Fin (6 # 10)))
    eqn:Hstop.
  - split; [apply Hinv'|].
    cbn [MinimalSetup.calls MinimalSetup.highest_confidence].
    split; [lia|]. intros _. assumption.
  - apply IH.
    + apply Hinv'.
    + cbn [MinimalSetup.num_attempts]. lia.
    + cbn [MinimalSetup.num_attempts MinimalSetup.calls]. lia.
Qed.

(** X13.  What [check_grammar] yields for a sentence comes from one of
    the five calls at most that it made for it: one whose confidence is
    above 0 and that no other of these calls exceeds; and when it made
    fewer than five calls that confidence is above 0.6. *)
Theorem check_sentence_yields_highest fuel seg expl n' :
  MinimalSetup.check_sentence invoke fuel sent n = Ok (seg, expl, n') ->
  (n < n' <= n + 5)%nat /\
  exists j c,
    (n <= j < n')%nat /\
    invoke j sent = Some c /\
    seg = MinimalSetup.corrected_segment c /\
    expl = MinimalSetup.explanation c /\
    MinimalSetup.float_gt (MinimalSetup.confidence c) (Fin (0 # 1)) = true /\
    (forall j' c', (n <= j' < n')%nat -> invoke j' sent = Some c' ->
       MinimalSetup.float_gt (MinimalSetup.confidence c')
         (MinimalSetup.confidence c) = false) /\
    ((n' < n + 5)%nat ->
     MinimalSetup.float_gt (MinimalSetup.confidence c) (Fin (6 # 10)) = true).
Proof.
  unfold MinimalSetup.check_sentence, obind.
  pose proof (attempts_spec fuel (MinimalSetup.init n)) as Hspec.
  destruct (MinimalSetup.attempts invoke fuel sent (MinimalSetup.init n))
    as [v| |]; try discriminate.
  destruct Hspec as ([Hall Hkept] & Hhi & Hstop).
  { split; [|reflexivity]. intros j c Hj. cbn in Hj. lia. }
  { unfold MinimalSetup.max_attempts. cbn. lia. }
  { cbn. lia. }
  destruct (MinimalSetup.correction_with_high_confidence v) as [c|];
    [|discriminate].
  intros H. injection H as <- <- <-.
  destruct Hkept as (Hh & Hpos & j & Hj & Hc).
  split; [lia|]. exists j, c. rewrite Hh in Hall, Hstop.
  repeat split; try assumption; lia.
Qed.

(** X14.  When none of five answers has a confidence above 0, no
    correction is kept and what [check_grammar] yields is read from
    [None]: an [AttributeError]. *)
Theorem check_sentence_without_positive_confidence fuel :
  (5 < fuel)%nat ->
  (forall j, (n <= j < n + 5)%nat ->
     exists c, invoke j sent = Some c /\
       MinimalSetup.float_gt (MinimalSetup.confidence c) (Fin (0 # 1))
         = false) ->
  MinimalSetup.check_sentence invoke fuel sent n = Raise AttributeError.
Proof.
  intros Hfuel Hnone.
  assert (Hloop : forall k fuel' v,
    (k <= 5)%nat -> (5 - k < fuel')%nat ->
    MinimalSetup.num_attempts v = Z.of_nat k ->
    MinimalSetup.calls v = (n + k)%nat ->
    MinimalSetup.highest_confidence v = Fin (0 # 1) ->
    MinimalSetup.correction_with_high_confidence v = None ->
    exists v',
      MinimalSetup.attempts invoke fuel' sent v = Ok v' /\
      MinimalSetup.correction_with_high_confidence v' = None).
  { intros k fuel'. revert k.
    induction fuel' as [|fuel' IH]; intros k v Hk Hf Hnum Hcalls Hh Hkept;
      [lia|].
    cbn [MinimalSetup.attempts]. unfold MinimalSetup.max_attempts.
    destruct (Z.ltb_spec (MinimalSetup.num_attempts v) 5) as [Hlt|Hge].
    2:{ exists v. split; [reflexivity|assumption]. }
    destruct (Hnone (MinimalSetup.calls v)) as (c & Hc & Hlow); [lia|].
    rewrite Hc. cbv zeta.
    cbn [MinimalSetup.num_attempts MinimalSetup.highest_confidence
         MinimalSetup.correction_with_high_confidence MinimalSetup.calls].
    rewrite Hh, Hlow. cbn [MinimalSetup.float_gt Qle_bool negb].
    change (negb (Qle_bool (0 # 1) (6 # 10))) with false. cbv iota.
    apply (IH (S k)).
    - lia.
    - lia.
    - cbn [MinimalSetup.num_attempts]. lia.
    - cbn [MinimalSetup.calls]. lia.
    - reflexivity.
    - cbn [MinimalSetup.correction_with_high_confidence]. assumption. }
  destruct (Hloop 0%nat fuel (MinimalSetup.init n)) as (v' & Hrun & Hkept);
    try reflexivity; try lia.
  { cbn. lia. }
  unfold MinimalSetup.check_sentence. rewrite Hrun. cbn [obind].
  rewrite Hkept. reflexivity.
Qed.

End CheckGrammar.

Lemma check_sentence_yields_highest_witness :
  MinimalSetup.check_sentence sure_invoke 6 the_cat 0
    = Ok (the_cat_corrected, str_of "Subject-verb agreement.", 1%nat) /\
  (0 < 1 <= 0 + 5)%nat.
Proof.
  split; [vm_compute; reflexivity|].
  apply (check_sentence_yields_highest sure_invoke the_cat 0 6
           the_cat_corrected (str_of "Subject-verb agreement.") 1).
  vm_compute. reflexivity.
Defined.

Lemma check_sentence_without_positive_confidence_witness :
  MinimalSetup.check_sentence unsure_invoke 6 the_cat 0
    = Raise AttributeError.
Proof.
  apply (check_sentence_without_positive_confidence unsure_invoke the_cat 0 6).
  - lia.
  - intros j _. eexists. split; reflexivity.
Defined.


(** ** minimal_setup.py: [extract_sentences] *)

Section Strip.

Lemma lstrip_split s :
  exists pre, s = pre ++ lstrip s /\ forallb isspace pre = true.
Proof.
  induction s as [|c s (pre & Hs & Hpre)]; [exists []; split; reflexivity|].
  cbn [lstrip]. destruct (isspace c) eqn:Hc.
  - exists (c :: pre). split; [cbn; rewrite <- Hs; reflexivity|].
    cbn. rewrite Hc. exact Hpre.
  - exists []. split; reflexivity.
Qed.

Lemma lstrip_length s : len (lstrip s) <= len s.
Proof.
  destruct (lstrip_split s) as (pre & Hs & _).
  rewrite Hs at 2. rewrite len_app. pose proof (len_nonneg pre). lia.
Qed.

Lemma lstrip_idempotent s : lstrip (lstrip s) = lstrip s.
Proof.
  induction s as [|c s IH]; [reflexivity|].
  cbn [lstrip]. destruct (isspace c) eqn:Hc; [exact IH|].
  cbn [lstrip]. rewrite Hc. reflexivity.
Qed.

Lemma lstrip_snoc s c :
  isspace c = false -> lstrip (s ++ [c]) = lstrip s ++ [c].
Proof.
  intros Hc. induction s as [|a s IH]; cbn [app lstrip].
  - rewrite Hc. reflexivity.
  - destruct (isspace a); [exact IH|reflexivity].
Qed.

Lemma rstrip_cons c s : isspace c = false -> rstrip (c :: s) = c :: rstrip s.
Proof.
  intros Hc. unfold rstrip. cbn [rev]. rewrite lstrip_snoc by assumption.
  rewrite rev_app_distr. reflexivity.
Qed.

Lemma rstrip_idempotent s : rstrip (rstrip s) = rstrip s.
Proof. unfold rstrip. rewrite rev_involutive, lstrip_idempotent. reflexivity. Qed.

Lemma lstrip_rstrip_lstrip s : lstrip (rstrip (lstrip s)) = rstrip (lstrip s).
Proof.
  induction s as [|c s IH]; [reflexivity|].
  cbn [lstrip]. destruct (isspace c) eqn:Hc; [exact IH|].
  rewrite rstrip_cons by assumption. cbn [lstrip]. rewrite Hc. reflexivity.
Qed.

Lemma strip_idempotent s : strip (strip s) = strip s.
Proof.
  unfold strip. rewrite lstrip_rstrip_lstrip. apply rstrip_idempotent.
Qed.

Lemma without_spaces_app a b :
  without_spaces (a ++ b) = without_spaces a ++ without_spaces b.
Proof. apply filter_app. Qed.

Lemma without_spaces_of_spaces pre :
  forallb isspace pre = true -> without_spaces pre = [].
Proof.
  induction pre as [|c pre IH]; [reflexivity|].
  cbn. intros H. apply andb_true_iff in H. destruct H as [Hc Hpre].
  rewrite Hc. cbn. apply IH. assumption.
Qed.

Lemma without_spaces_lstrip s : without_spaces (lstrip s) = without_spaces s.
Proof.
  destruct (lstrip_split s) as (pre & Hs & Hpre).
  rewrite Hs at 2. rewrite without_spaces_app.
  rewrite (without_spaces_of_spaces pre) by assumption. reflexivity.
Qed.

Lemma without_spaces_rev s : without_spaces (rev s) = rev (without_spaces s).
Proof.
  induction s as [|c s IH]; [reflexivity|].
  cbn [rev]. rewrite without_spaces_app, IH. unfold without_spaces.
  cbn [filter]. destruct (negb (isspace c)); cbn [rev app];
    [reflexivity|apply app_nil_r].
Qed.

Lemma without_spaces_strip s : without_spaces (strip s) = without_spaces s.
Proof.
  unfold strip, rstrip.
  rewrite without_spaces_rev, without_spaces_lstrip, without_spaces_rev,
    rev_involutive.
  apply without_spaces_lstrip.
Qed.

(** What follows the leading white space. *)
Lemma slice_from_lstrip s :
  slice_from s (len s - len (lstrip s)) = lstrip s.
Proof.
  destruct (lstrip_split s) as (pre & Hs & _).
  assert (Hlen : len s - len (lstrip s) = len pre).
  { rewrite Hs at 1. rewrite len_app. lia. }
  rewrite Hlen. rewrite Hs at 1. apply slice_from_app.
Qed.

End Strip.

Section Backslashes.

Lemma double_backslashes_app a b :
  MinimalSetup.double_backslashes (a ++ b)
  = MinimalSetup.double_backslashes a ++ MinimalSetup.double_backslashes b.
Proof.
  induction a as [|c a IH]; [reflexivity|].
  cbn [app MinimalSetup.double_backslashes]. rewrite IH.
  destruct (c =? 92)%N; reflexivity.
Qed.

Lemma double_backslashes_rev s :
  MinimalSetup.double_backslashes (rev s)
  = rev (MinimalSetup.double_backslashes s).
Proof.
  induction s as [|c s IH]; [reflexivity|].
  cbn [rev MinimalSetup.double_backslashes].
  rewrite double_backslashes_app, IH.
  cbn [MinimalSetup.double_backslashes].
  destruct (N.eqb_spec c 92) as [->|_]; cbn [rev]; [|reflexivity].
  rewrite <- app_assoc. reflexivity.
Qed.

Lemma double_backslashes_lstrip s :
  lstrip (MinimalSetup.double_backslashes s)
  = MinimalSetup.double_backslashes (lstrip s).
Proof.
  induction s as [|c s IH]; [reflexivity|].
  cbn [MinimalSetup.double_backslashes lstrip].
  destruct (N.eqb_spec c 92) as [->|Hc]; [reflexivity|].
  cbn [lstrip]. destruct (isspace c) eqn:Hsp; [exact IH|].
  cbn [MinimalSetup.double_backslashes].
  apply N.eqb_neq in Hc. rewrite Hc. reflexivity.
Qed.

Lemma double_backslashes_strip s :
  strip (MinimalSetup.double_backslashes s)
  = MinimalSetup.double_backslashes (strip s).
Proof.
  unfold strip, rstrip.
  rewrite double_backslashes_lstrip, <- double_backslashes_rev,
    double_backslashes_lstrip, <- double_backslashes_rev.
  reflexivity.
Qed.

Lemma double_backslashes_plain s :
  (forall c, In c s -> c <> 92%N) -> MinimalSetup.double_backslashes s = s.
Proof.
  induction s as [|c s IH]; intros Hs; [reflexivity|].
  cbn [MinimalSetup.double_backslashes].
  destruct (N.eqb_spec c 92) as [Hc|_].
  - exfalso. apply (Hs c); [left; reflexivity|assumption].
  - rewrite IH; [reflexivity|]. intros x Hx. apply Hs. right. assumption.
Qed.

Lemma trimmed_double_backslashes s :
  trimmed s -> trimmed (MinimalSetup.double_backslashes s).
Proof.
  intros [Hne Hst]. split.
  - destruct s as [|c s]; [contradiction Hne; reflexivity|].
    cbn [MinimalSetup.double_backslashes].
    destruct (c =? 92)%N; discriminate.
  - rewrite double_backslashes_strip, Hst. reflexivity.
Qed.

End Backslashes.


Section ExtractSentences.

Lemma nth_error_skipn {A : Type} (l : list A) n x :
  nth_error l n = Some x -> skipn n l = x :: skipn (S n) l.
Proof.
  revert l. induction n as [|n IH]; intros [|a l] H; try discriminate.
  - injection H as ->. reflexivity.
  - cbn [nth_error] in H. apply IH in H. exact H.
Qed.

(** The character at an index in range heads what is left from there. *)
Lemma char_at_slice text i :
  0 <= i < len text ->
  exists ch,
    Segments.char_at text i = Some ch /\
    slice_from text i = ch :: slice_from text (i + 1).
Proof.
  intros Hi. unfold Segments.char_at, slice_from.
  destruct (Z.ltb_spec i 0); [lia|]. destruct (Z.ltb_spec (i + 1) 0); [lia|].
  destruct (nth_error text (Z.to_nat i)) as [ch|] eqn:Hch.
  - exists ch. split; [reflexivity|].
    replace (Z.to_nat (i + 1)) with (S (Z.to_nat i)) by lia.
    apply nth_error_skipn. assumption.
  - apply nth_error_None in Hch. unfold len in Hi. lia.
Qed.

Lemma match_env_end kw s name m_end :
  Segments.match_env kw s = Some (name, m_end) -> 1 <= m_end.
Proof.
  unfold Segments.match_env. destruct (starts_with _ s); [|discriminate].
  destruct (Segments.take_name _) as [|c name'] eqn:Hname; [discriminate|].
  destruct (_ <? _); [|discriminate].
  intros H. injection H as <- <-.
  pose proof (len_nonneg (Segments.opening kw)).
  pose proof (len_nonneg (c :: name')). lia.
Qed.

Lemma spaces_after_nonneg text i : 0 <= Segments.spaces_after text i.
Proof.
  unfold Segments.spaces_after.
  pose proof (lstrip_length (slice_from text (i + 1))). lia.
Qed.

(** A pass moves the index on, and keeps the segments it found. *)
Lemma step_advances text st :
  0 <= Segments.i st < len text ->
  Segments.i st + 1 <= Segments.i (Segments.step text st).
Proof.
  intros Hi. unfold Segments.step.
  destruct (char_at_slice text (Segments.i st) Hi) as (ch & -> & _).
  cbv zeta.
  repeat (case_step; cbv beta iota);
    cbn [Segments.i];
    repeat match goal with
           | H : Segments.match_env _ _ = Some _ |- _ =>
               apply match_env_end in H
           end;
    try match goal with
        | |- context [Segments.spaces_after text ?j] =>
            pose proof (spaces_after_nonneg text j)
        end;
    lia.
Qed.

Lemma loop_returns text fuel :
  forall st,
    0 <= Segments.i st ->
    (Z.to_nat (len text - Segments.i st) < fuel)%nat ->
    Segments.loop fuel text st <> None.
Proof.
  induction fuel as [|fuel IH]; intros st Hi Hfuel; [lia|].
  cbn [Segments.loop].
  destruct (Z.ltb_spec (Segments.i st) (len text)) as [Hlt|Hge];
    [|discriminate].
  pose proof (step_advances text st (conj Hi Hlt)).
  apply IH; lia.
Qed.

(** X15.  [extract_sentences] returns: its loop makes one pass at most
    for each character of the text. *)
Theorem extract_sentences_returns fuel text :
  (List.length text < fuel)%nat ->
  exists segs, Segments.extract_sentences fuel text = Some segs.
Proof.
  intros Hfuel. unfold Segments.extract_sentences.
  pose proof (loop_returns text fuel Segments.init) as Hloop.
  destruct (Segments.loop fuel text Segments.init) as [st|].
  - eexists. reflexivity.
  - exfalso. apply Hloop; [cbn; lia| |reflexivity].
    cbn [Segments.i Segments.init]. unfold len. lia.
Qed.

Lemma step_keeps_trimmed text st :
  Forall trimmed (Segments.segments st) ->
  Forall trimmed (Segments.segments (Segments.step text st)).
Proof.
  intros Hall. unfold Segments.step.
  destruct (Segments.char_at text (Segments.i st)) as [ch|]; [|assumption].
  cbv zeta.
  repeat (case_step; cbv beta iota); cbn [Segments.segments];
    try assumption;
    (apply Forall_app; split; [assumption|]; constructor; [|constructor];
     split; [|apply strip_idempotent];
     match goal with
     | H : Segments.nonempty ?s = true |- ?s <> [] =>
         intros Hnil; rewrite Hnil in H; discriminate H
     end).
Qed.

Lemma loop_keeps_trimmed text fuel :
  forall st st',
    Forall trimmed (Segments.segments st) ->
    Segments.loop fuel text st = Some st' ->
    Forall trimmed (Segments.segments st').
Proof.
  induction fuel as [|fuel IH]; intros st st' Hall; [discriminate|].
  cbn [Segments.loop]. destruct (_ <? _).
  - apply IH. apply step_keeps_trimmed. assumption.
  - intros H. injection H as <-. assumption.
Qed.

(** X16.  No segment that [extract_sentences] returns is empty or has
    white space at either end. *)
Theorem extract_sentences_trimmed fuel text segs :
  Segments.extract_sentences fuel text = Some segs ->
  Forall trimmed segs.
Proof.
  unfold Segments.extract_sentences.
  destruct (Segments.loop fuel text Segments.init) as [st|] eqn:Hloop;
    [|discriminate].
  apply loop_keeps_trimmed in Hloop; [|constructor].
  intros H. injection H as <-.
  apply Forall_forall. intros s Hs. apply in_map_iff in Hs.
  destruct Hs as (raw & <- & Hraw). apply trimmed_double_backslashes.
  destruct (Segments.nonempty (strip (Segments.current_segment st)))
    eqn:Hleft.
  - apply in_app_or in Hraw. destruct Hraw as [Hraw|[<-|[]]].
    + eapply Forall_forall in Hloop; eassumption.
    + split; [|apply strip_idempotent].
      intros Hnil. rewrite Hnil in Hleft. discriminate Hleft.
  - eapply Forall_forall in Hloop; eassumption.
Qed.

End ExtractSentences.

Section PlainText.
Variable text : str.
Hypothesis Hplain : forall c, In c text -> c <> 92%N.

Lemma plain_no_opening kw i ch :
  Segments.char_at text i = Some ch ->
  forall r, starts_with (Segments.opening kw) (ch :: r) = false.
Proof.
  intros Hch r. unfold Segments.char_at in Hch. apply nth_error_In in Hch.
  apply Hplain in Hch. unfold Segments.opening. cbn [app starts_with].
  destruct (N.eqb_spec 92 ch) as [Heq|_]; [|reflexivity].
  exfalso. apply Hch. symmetry. assumption.
Qed.

(** What the loop of [extract_sentences] keeps of a text without
    backslashes: the segments, the current segment and what is left to
    read make up the text, white space apart. *)
Lemma plain_pass_keeps i ch (found : list str) cur :
  slice_from text i = ch :: slice_from text (i + 1) ->
  without_spaces (List.concat found ++ cur) ++ without_spaces (slice_from text i)
    = without_spaces text ->
  without_spaces (List.concat found ++ cur ++ [ch])
    ++ without_spaces (slice_from text (i + 1))
  = without_spaces text.
Proof.
  intros Hslice <-. rewrite Hslice, <- !without_spaces_app, <- !app_assoc.
  reflexivity.
Qed.

Lemma plain_cut_keeps i ch (found found' : list str) cur :
  0 <= i < len text ->
  slice_from text i = ch :: slice_from text (i + 1) ->
  List.concat found' = List.concat found ++ strip (cur ++ [ch]) ->
  without_spaces (List.concat found ++ cur) ++ without_spaces (slice_from text i)
    = without_spaces text ->
  0 <= i + Segments.spaces_after text i + 1 <= len text /\
  without_spaces (List.concat found' ++ [])
    ++ without_spaces (slice_from text (i + Segments.spaces_after text i + 1))
  = without_spaces text.
Proof.
  intros Hi Hslice Hfound Hkeep.
  pose proof (spaces_after_nonneg text i) as Hsp.
  pose proof (len_nonneg (lstrip (slice_from text (i + 1)))) as Hl.
  assert (Hrest : len (slice_from text (i + 1)) = len text - (i + 1))
    by (apply slice_from_length; lia).
  assert (Hskip : slice_from text (i + Segments.spaces_after text i + 1)
                  = lstrip (slice_from text (i + 1))).
  { replace (i + Segments.spaces_after text i + 1)
      with ((i + 1) + Segments.spaces_after text i) by lia.
    rewrite <- slice_from_slice_from by lia.
    unfold Segments.spaces_after. apply slice_from_lstrip. }
  split; [unfold Segments.spaces_after in *; lia|].
  rewrite Hskip, without_spaces_lstrip, app_nil_r, Hfound.
  rewrite without_spaces_app, without_spaces_strip, <- without_spaces_app.
  apply plain_pass_keeps; assumption.
Qed.

Lemma step_plain st :
  0 <= Segments.i st < len text ->
  without_spaces (List.concat (Segments.segments st) ++ Segments.current_segment st)
    ++ without_spaces (slice_from text (Segments.i st))
  = without_spaces text ->
  let st' := Segments.step text st in
  0 <= Segments.i st' <= len text /\
  without_spaces (List.concat (Segments.segments st')
                  ++ Segments.current_segment st')
    ++ without_spaces (slice_from text (Segments.i st'))
  = without_spaces text.
Proof.
  intros Hi Hkeep. cbv zeta. unfold Segments.step.
  destruct (char_at_slice text (Segments.i st) Hi) as (ch & Hch & Hslice).
  rewrite Hch. cbv zeta. rewrite Hslice.
  rewrite !(plain_no_opening _ _ _ Hch).
  repeat (case_step; cbv beta iota);
    cbn [Segments.i Segments.segments Segments.current_segment];
    first
      [ split; [lia|]; apply plain_pass_keeps; assumption
      | apply plain_cut_keeps with (found := Segments.segments st)
                                   (cur := Segments.current_segment st)
                                   (ch := ch);
        [lia|assumption| |assumption];
        first
          [ rewrite concat_app; cbn [List.concat]; rewrite app_nil_r; reflexivity
          | match goal with
            | H : Segments.nonempty ?s = false |- _ =>
                destruct s; [rewrite app_nil_r; reflexivity|discriminate H]
            end ] ].
Qed.

Lemma loop_plain fuel :
  forall st st',
    0 <= Segments.i st <= len text ->
    without_spaces (List.concat (Segments.segments st)
                    ++ Segments.current_segment st)
      ++ without_spaces (slice_from text (Segments.i st))
    = without_spaces text ->
    Segments.loop fuel text st = Some st' ->
    without_spaces (List.concat (Segments.segments st')
                    ++ Segments.current_segment st')
    = without_spaces text.
Proof.
  induction fuel as [|fuel IH]; intros st st' Hi Hkeep; [discriminate|].
  cbn [Segments.loop].
  destruct (Z.ltb_spec (Segments.i st) (len text)) as [Hlt|Hge].
  - destruct (step_plain st) as [Hi' Hkeep']; [lia|assumption|].
    apply IH; assumption.
  - intros H. injection H as <-.
    assert (Hend : slice_from text (Segments.i st) = []).
    { assert (Hlen : len (slice_from text (Segments.i st)) = 0)
        by (rewrite slice_from_length; lia).
      destruct (slice_from text (Segments.i st)); [reflexivity|].
      unfold len in Hlen. cbn [List.length] in Hlen. lia. }
    rewrite Hend in Hkeep. cbn [without_spaces filter] in Hkeep.
    rewrite app_nil_r in Hkeep. exact Hkeep.
Qed.

End PlainText.

Lemma without_spaces_double_backslashes s :
  without_spaces (MinimalSetup.double_backslashes s)
  = MinimalSetup.double_backslashes (without_spaces s).
Proof.
  induction s as [|c s IH]; [reflexivity|].
  cbn [MinimalSetup.double_backslashes].
  destruct (N.eqb_spec c 92) as [->|Hc].
  - unfold without_spaces in *. cbn [filter]. cbn [isspace negb].
    change (negb (isspace 92)) with true. cbv iota.
    cbn [MinimalSetup.double_backslashes N.eqb Pos.eqb]. rewrite IH.
    reflexivity.
  - unfold without_spaces in *. cbn [filter].
    destruct (negb (isspace c)); [|exact IH].
    cbn [MinimalSetup.double_backslashes]. apply N.eqb_neq in Hc.
    rewrite Hc, IH. reflexivity.
Qed.

Lemma concat_double_backslashes l :
  List.concat (map MinimalSetup.double_backslashes l)
  = MinimalSetup.double_backslashes (List.concat l).
Proof.
  induction l as [|a l IH]; [reflexivity|].
  cbn [map List.concat]. rewrite double_backslashes_app, IH. reflexivity.
Qed.

(** X17.  Of a text without backslashes [extract_sentences] loses white
    space only: its segments, put together, are the text without its
    white space. *)
Theorem extract_sentences_plain_keeps_text fuel text segs :
  (forall c, In c text -> c <> 92%N) ->
  Segments.extract_sentences fuel text = Some segs ->
  without_spaces (List.concat segs) = without_spaces text.
Proof.
  intros Hplain. unfold Segments.extract_sentences.
  destruct (Segments.loop fuel text Segments.init) as [st|] eqn:Hloop;
    [|discriminate].
  cbv zeta.
  apply (loop_plain text Hplain) in Hloop.
  2:{ cbn [Segments.i Segments.init]. pose proof (len_nonneg text). lia. }
  2:{ reflexivity. }
  intros H. injection H as <-.
  rewrite concat_double_backslashes, without_spaces_double_backslashes.
  assert (Hraw :
    without_spaces
      (List.concat (if Segments.nonempty (strip (Segments.current_segment st))
               then Segments.segments st
                    ++ [strip (Segments.current_segment st)]
               else Segments.segments st))
    = without_spaces text).
  { rewrite <- Hloop, without_spaces_app.
    destruct (strip (Segments.current_segment st)) as [|c s] eqn:Hleft;
      cbn [Segments.nonempty].
    - rewrite <- (without_spaces_strip (Segments.current_segment st)), Hleft.
      cbn [without_spaces filter]. rewrite app_nil_r. reflexivity.
    - rewrite concat_app, without_spaces_app. cbn [List.concat].
      rewrite app_nil_r, <- Hleft, without_spaces_strip. reflexivity. }
  transitivity (MinimalSetup.double_backslashes (without_spaces text));
    [f_equal; exact Hraw|].
  apply double_backslashes_plain.
  intros c Hc. apply Hplain. unfold without_spaces in Hc.
  apply filter_In in Hc. apply Hc.
Qed.

Lemma extract_sentences_returns_witness :
  exists segs, Segments.extract_sentences 31 plain_text = Some segs.
Proof.
  apply (extract_sentences_returns 31 plain_text). vm_compute. lia.
Defined.

Lemma extract_sentences_trimmed_witness :
  Forall trimmed [the_cat; str_of "It purr!"].
Proof.
  apply (extract_sentences_trimmed 31 plain_text). vm_compute. reflexivity.
Defined.

Lemma extract_sentences_plain_keeps_text_witness :
  without_spaces (List.concat [the_cat; str_of "It purr!"])
  = without_spaces plain_text.
Proof.
  apply (extract_sentences_plain_keeps_text 31 plain_text).
  - intros c Hc Heq. subst c.
    assert (H : existsb (N.eqb 92) plain_text = false)
      by (vm_compute; reflexivity).
    apply not_true_iff_false in H. apply H. apply existsb_exists.
    exists 92%N. split; [assumption|reflexivity].
  - vm_compute. reflexivity.
Defined.


(** ** v1_overcomplicated/correct.py *)

Section V1Correct.
Variable float_of_str : str -> option pyfloat.

(** A pass that ends at the [continue] of line 241 leaves the variables
    that the condition reads as they were: the loop of a flagged sentence
    is cut off whatever the fuel. *)
Lemma v1_checked_loop_never_ends info flag coarse inner fuel :
  truthy flag = true ->
  py_getitem info V1.k_coarse_sentence = Ok coarse ->
  forall v,
    V1.QA_passed v = false ->
    V1.attempt_in_getting_checked_correction v = 0 ->
    V1.didnt_pass_quality_assurance v = false ->
    V1.while_ fuel V1.checked_cond
      (V1.checked_body float_of_str inner info flag) v
    = OutOfFuel.
Proof.
  intros Hflag Hcoarse.
  induction fuel as [|fuel IH]; intros v Hq Ha Hd; [reflexivity|].
  cbn [V1.while_]. unfold V1.checked_cond at 1. rewrite Hq, Ha.
  cbn [negb andb]. change (0 <? 5) with true. cbv iota.
  unfold V1.checked_body at 1. rewrite Hcoarse. cbn [obind]. cbv zeta.
  cbn [V1.didnt_pass_quality_assurance]. rewrite Hflag, Hd.
  cbn [negb andb obind].
  apply IH; reflexivity || assumption.
Qed.

(** X19.  v1's [grammar_correction_main] does not return when the first
    entry of its list has a true [should_check], or none: for every fuel
    it is cut off in the loop of that sentence. *)
Theorem v1_flagged_sentence_never_returns fuel info rest flag coarse :
  py_get info V1.k_should_check (JBool true) = Ok flag ->
  truthy flag = true ->
  py_getitem info V1.k_coarse_sentence = Ok coarse ->
  V1.grammar_correction_main float_of_str fuel (info :: rest) = OutOfFuel.
Proof.
  intros Hget Hflag Hcoarse.
  unfold V1.grammar_correction_main. cbn [V1.for_sentences].
  unfold V1.correct_sentence. rewrite Hget. cbn [obind].
  rewrite (v1_checked_loop_never_ends info flag coarse fuel fuel Hflag
             Hcoarse) by reflexivity.
  reflexivity.
Qed.

(** The loop of step 1 ends at its first request for a proposal, if not
    before. *)
Lemma v1_confident_loop_fails fuel info c :
  V1.confident_cond c = true ->
  match V1.while_ fuel V1.confident_cond
          (V1.confident_body float_of_str info) c with
  | Ok _ => False
  | _ => True
  end.
Proof.
  intros Hc. destruct fuel as [|fuel]; [exact I|].
  cbn [V1.while_]. rewrite Hc. unfold V1.confident_body.
  destruct (py_getitem info V1.k_fine_sentence); exact I.
Qed.

Lemma v1_checked_loop_fails inner info flag fuel :
  forall v,
    V1.QA_passed v = false ->
    V1.attempt_in_getting_checked_correction v = 0 ->
    match V1.while_ fuel V1.checked_cond
            (V1.checked_body float_of_str inner info flag) v with
    | Ok _ => False
    | _ => True
    end.
Proof.
  induction fuel as [|fuel IH]; intros v Hq Ha; [exact I|].
  cbn [V1.while_]. unfold V1.checked_cond at 1. rewrite Hq, Ha.
  cbn [negb andb]. change (0 <? 5) with true. cbv iota.
  unfold V1.checked_body at 1.
  destruct (py_getitem info V1.k_coarse_sentence) as [coarse| |];
    cbn [obind]; try exact I.
  cbv zeta. cbn [V1.didnt_pass_quality_assurance V1.correction].
  destruct (truthy flag && negb (V1.didnt_pass_quality_assurance v)).
  - cbn [obind]. apply IH; [exact Hq|exact Ha].
  - pose proof (v1_confident_loop_fails inner info
                  {| V1.corrector_confident := false;
                     V1.attempt_in_getting_confident_correction := 0;
                     V1.confident_correction := V1.correction v |}
                  eq_refl) as Hconf.
    destruct (V1.while_ inner V1.confident_cond _ _); cbn [obind];
      [contradiction|exact I|exact I].
Qed.

(** X21.  v1's [grammar_correction_main] returns no list for a list that
    is not empty: the loop of the first sentence runs on, or ends in an
    exception. *)
Theorem v1_grammar_correction_main_never_returns fuel info rest results :
  V1.grammar_correction_main float_of_str fuel (info :: rest) <> Ok results.
Proof.
  unfold V1.grammar_correction_main. cbn [V1.for_sentences].
  unfold V1.correct_sentence.
  destruct (py_get info V1.k_should_check (JBool true)) as [flag| |];
    cbn [obind]; try discriminate.
  match goal with
  | |- context [V1.while_ fuel V1.checked_cond ?b ?s] =>
      pose proof (v1_checked_loop_fails fuel info flag fuel s eq_refl
                    eq_refl) as Hloop;
      destruct (V1.while_ fuel V1.checked_cond b s)
  end; cbn [obind]; [contradiction|discriminate|discriminate].
Qed.

(** X20.  For an entry that is not flagged and has both sentences, the
    first request for a proposal ends v1's [grammar_correction_main] in
    the [ValueError] of the prompt. *)
Theorem v1_unflagged_sentence_raises fuel info rest flag coarse fine :
  py_get info V1.k_should_check (JBool true) = Ok flag ->
  truthy flag = false ->
  py_getitem info V1.k_coarse_sentence = Ok coarse ->
  py_getitem info V1.k_fine_sentence = Ok fine ->
  V1.grammar_correction_main float_of_str (S fuel) (info :: rest)
  = Raise ValueError.
Proof.
  intros Hget Hflag Hcoarse Hfine.
  unfold V1.grammar_correction_main. cbn [V1.for_sentences].
  unfold V1.correct_sentence. rewrite Hget. cbn [obind].
  cbn [V1.while_]. unfold V1.checked_cond at 1.
  cbn [V1.QA_passed V1.attempt_in_getting_checked_correction negb andb].
  change (0 <? 5) with true. cbv iota.
  unfold V1.checked_body at 1. rewrite Hcoarse. cbn [obind]. cbv zeta.
  rewrite Hflag. cbn [andb].
  unfold V1.confident_cond at 1.
  cbn [V1.corrector_confident V1.attempt_in_getting_confident_correction
       negb andb].
  change (0 <? 4) with true. cbv iota.
  unfold V1.confident_body at 1. rewrite Hfine. reflexivity.
Qed.

End V1Correct.

Lemma v1_flagged_sentence_never_returns_witness :
  V1.grammar_correction_main no_str_confidence 100 [flagged_entry]
  = OutOfFuel.
Proof.
  apply (v1_flagged_sentence_never_returns no_str_confidence 100
           flagged_entry [] (JBool true) (JStr the_cat)); reflexivity.
Defined.

Lemma v1_unflagged_sentence_raises_witness :
  V1.grammar_correction_main no_str_confidence 6 [unflagged_entry]
  = Raise ValueError.
Proof.
  apply (v1_unflagged_sentence_raises no_str_confidence 5 unflagged_entry
           [] (JBool false) (JStr the_cat) (JStr the_cat)); reflexivity.
Defined.


(** ** v1_overcomplicated: preprocessing and [main] *)

Section V1Main.
Variable model : V1Pre.llm.
Variable float_of_str : str -> option pyfloat.

Lemma v1pre_while_inv {S : Type} (I Q : S -> Prop)
    (cond : S -> outcome bool) (body : S -> V1Pre.M (ctl S)) :
  (forall s, I s -> cond s = Ok false -> Q s) ->
  (forall s n, I s -> cond s = Ok true ->
     match body s n with
     | (Ok (Continue s'), _) => I s'
     | (Ok (Break s'), _) => Q s'
     | _ => True
     end) ->
  forall fuel s n, I s ->
    match V1Pre.while_ fuel cond body s n with
    | (Ok s', _) => Q s'
    | _ => True
    end.
Proof.
  intros Hexit Hbody. induction fuel as [|fuel IH]; intros s n Hs;
    [exact Logic.I|].
  cbn [V1Pre.while_]. unfold V1Pre.bind, V1Pre.lift, V1Pre.ret.
  destruct (cond s) as [[|]| |] eqn:Hc; try exact Logic.I.
  - specialize (Hbody s n Hs Hc).
    destruct (body s n) as [[[s'|s']| |] n']; try exact Logic.I.
    + apply IH. assumption.
    + exact Hbody.
  - apply Hexit; assumption.
Qed.

(** Every pass of the document loop that ends adds an entry. *)
Lemma v1pre_body_appends fuel v n :
  match V1Pre.pre_body model fuel v n with
  | (Ok (Continue v'), _) | (Ok (Break v'), _) => V1Pre.results v' <> []
  | _ => True
  end.
Proof.
  unfold V1Pre.pre_body, V1Pre.bind, V1Pre.lift, V1Pre.ret, V1Pre.raise.
  repeat (case_step; cbv beta iota zeta); try exact Logic.I;
    cbn [V1Pre.results]; intros Hnil; apply app_eq_nil in Hnil;
    destruct Hnil as [_ Hnil]; discriminate Hnil.
Qed.

(** What v1's [preprocessing_main] returns for a text that is not blank
    has an entry. *)
Lemma v1pre_results_nonempty fuel text n sentences n' :
  strip text <> [] ->
  V1Pre.preprocessing_main model fuel text n = (Ok sentences, n') ->
  sentences <> [].
Proof.
  intros Htext. unfold V1Pre.preprocessing_main, V1Pre.bind at 1.
  match goal with
  | |- context [V1Pre.while_ fuel V1Pre.pre_cond ?b ?s n] =>
      pose proof (v1pre_while_inv
                    (fun v => V1Pre.results v <> []
                              \/ strip (V1Pre.document v) <> [])
                    (fun v => V1Pre.results v <> [])
                    V1Pre.pre_cond b) as Hloop;
      specialize (fun H1 H2 => Hloop H1 H2 fuel s n);
      destruct (V1Pre.while_ fuel V1Pre.pre_cond b s n) as [[v| |] n1];
      try discriminate
  end.
  unfold V1Pre.ret. intros H. injection H as <- _.
  apply Hloop.
  - intros s [Hs|Hs] Hc; [assumption|].
    unfold V1Pre.pre_cond in Hc.
    destruct (strip (V1Pre.document s)); [contradiction Hs; reflexivity|].
    discriminate Hc.
  - intros s k _ _. pose proof (v1pre_body_appends fuel s k) as Hb.
    destruct (V1Pre.pre_body model fuel s k) as [[[s'|s']| |] k'];
      try exact Logic.I; [left; exact Hb|exact Hb].
  - right. exact Htext.
Qed.

(** X22.  v1's [main] writes no corrected paper for a text that is not
    blank: when its preprocessing returns, the list has an entry, and the
    correction of the first entry runs on or ends in an exception. *)
Theorem v1_main_never_completes fuel text n paper n' :
  strip text <> [] ->
  V1Pre.main model float_of_str fuel text n <> (Ok paper, n').
Proof.
  intros Htext. unfold V1Pre.main, V1Pre.bind at 1.
  destruct (V1Pre.preprocessing_main model fuel text n)
    as [[sentences| |] n1] eqn:Hpre; try discriminate.
  apply v1pre_results_nonempty in Hpre; [|assumption].
  destruct sentences as [|info rest]; [contradiction Hpre; reflexivity|].
  unfold V1Pre.bind, V1Pre.lift.
  unfold V1.grammar_correction_main. cbn [V1.for_sentences].
  unfold V1.correct_sentence.
  destruct (py_get info V1.k_should_check (JBool true)) as [flag| |];
    cbn [obind]; try discriminate.
  match goal with
  | |- context [V1.while_ fuel V1.checked_cond ?b ?s] =>
      pose proof (v1_checked_loop_fails float_of_str fuel info flag fuel s
                    eq_refl eq_refl) as Hloop;
      destruct (V1.while_ fuel V1.checked_cond b s)
  end; cbn [obind]; [contradiction|discriminate|discriminate].
Qed.

End V1Main.

Lemma v1_main_never_completes_witness :
  V1Pre.main v1_plain_model no_str_confidence 9 the_cat_line 0%nat
  <> (Ok the_cat_corrected, 3%nat).
Proof.
  apply (v1_main_never_completes v1_plain_model no_str_confidence 9
           the_cat_line 0%nat the_cat_corrected 3%nat).
  vm_compute. discriminate.
Defined.


(** ** What [process_sentence] takes from the document *)

Section Consumes.
Variable model : llm.
Variable float_of_str : str -> option pyfloat.

Lemma locate_found_split text max_chunk content :
  find (slice_to text max_chunk) (strip content) <> -1 ->
  exists pre,
    snd (Preprocessing.locate (slice_to text max_chunk) content)
      = len pre + len (strip content) /\
    text = pre ++ strip content
               ++ slice_from text (len pre + len (strip content)).
Proof.
  intros Hfound. unfold find in Hfound.
  destruct (find_from_found _ _ 0 Hfound) as (pre & post & Hchunk & Hidx & _).
  exists pre. split.
  - unfold Preprocessing.locate, find.
    destruct (Z.eqb_spec
                (find_from (strip content) (slice_to text max_chunk) 0) (-1))
      as [Heq|_]; [contradiction|].
    cbn [snd]. rewrite Hidx. reflexivity.
  - pose proof (slice_to_slice_from text max_chunk) as Htext.
    rewrite Hchunk in Htext.
    replace (len pre + len (strip content))
      with (len (pre ++ strip content)) by apply len_app.
    rewrite Htext at 2.
    replace ((pre ++ strip content ++ post) ++ slice_from text max_chunk)
      with ((pre ++ strip content) ++ post ++ slice_from text max_chunk)
      by (rewrite <- !app_assoc; reflexivity).
    rewrite slice_from_app. rewrite Htext at 1.
    rewrite <- !app_assoc. reflexivity.
Qed.

Lemma prepare_result_original sentence lengths v r :
  Main.prepare_result sentence lengths v = Ok r ->
  Main.original r = sentence.
Proof.
  unfold Main.prepare_result, obind.
  repeat case_step; intros H; try discriminate H;
    injection H as <-; reflexivity.
Qed.

(** X23.  What [process_sentence] returns splits the document.  Either
    the sentence of the entry occurs in the chunk of the last attempt, and
    the document is what precedes its first occurrence, the sentence and
    the rest that is returned; or it occurs nowhere in that chunk, and the
    rest is the document without the whole chunk. *)
Theorem process_sentence_consumes fuel document t r rest e t' :
  Main.process_sentence model float_of_str fuel document t
    = (Ok (r, rest, e), t') ->
  (exists pre,
      document = pre ++ Main.original r ++ rest /\
      e = len pre + len (Main.original r)) \/
  (exists m,
      (m < 5)%nat /\
      e = len (slice_to document (bound_of_attempt m)) /\
      rest = slice_from document e /\
      ~ exists pre post,
          slice_to document (bound_of_attempt m)
          = pre ++ Main.original r ++ post).
Proof.
  unfold Main.process_sentence, bind at 1.
  pose proof (segmentation_loop_spec model fuel document t) as Hspec.
  cbv zeta in Hspec.
  destruct (Preprocessing.segmentation_loop model fuel document t)
    as [[[[s e0] ver]| |] t1]; try discriminate.
  unfold bind, ret.
  destruct (Main.correct_sentence model float_of_str fuel s
              (Preprocessing.calculate_sentence_length s) t1)
    as [[[r0 v]| |] t2] eqn:Hcorr; try discriminate.
  intros H. injection H as <- <- <- <-.
  apply main_correct_sentence_view in Hcorr. destruct Hcorr as [Hprep _].
  apply prepare_result_original in Hprep. rewrite Hprep.
  cbn [fst snd] in Hspec.
  destruct Hspec as (new & n & _ & Hn & _ & Hlast).
  destruct (Hlast s e0 ver eq_refl) as (m & -> & (pre0 & content & rv & _ & _ & Hloc) & _).
  assert (Hs : s = strip content).
  { unfold Preprocessing.locate in Hloc.
    destruct (_ =? -1); injection Hloc as -> _; reflexivity. }
  assert (He : e0 = snd (Preprocessing.locate
                           (slice_to document (bound_of_attempt m)) content))
    by (rewrite <- Hloc; reflexivity).
  destruct (Z.eq_dec
              (find (slice_to document (bound_of_attempt m)) (strip content))
              (-1)) as [Hnone|Hfound].
  - right. exists m. split; [lia|].
    split; [|split; [reflexivity|]].
    + rewrite He. unfold Preprocessing.locate. rewrite Hnone. reflexivity.
    + rewrite Hs. apply find_none. exact Hnone.
  - left. destruct (locate_found_split document (bound_of_attempt m) content
                      Hfound) as (pre & Hend & Hsplit).
    exists pre. rewrite Hs, He, Hend. split; [exact Hsplit|reflexivity].
Qed.

End Consumes.

Lemma process_sentence_consumes_witness :
  exists r rest e,
    fst (Main.process_sentence agreeable_model no_str_confidence 9
           the_cat_line []) = Ok (r, rest, e) /\
    ((exists pre,
         the_cat_line = pre ++ Main.original r ++ rest /\
         e = len pre + len (Main.original r)) \/
     (exists m,
         (m < 5)%nat /\
         e = len (slice_to the_cat_line (bound_of_attempt m)) /\
         rest = slice_from the_cat_line e /\
         ~ exists pre post,
             slice_to the_cat_line (bound_of_attempt m)
             = pre ++ Main.original r ++ post)).
Proof.
  destruct (Main.process_sentence agreeable_model no_str_confidence 9
              the_cat_line []) as [o t'] eqn:Hrun.
  assert (Hvalue := Hrun). vm_compute in Hvalue. injection Hvalue as <- <-.
  do 3 eexists. split; [reflexivity|].
  exact (process_sentence_consumes agreeable_model no_str_confidence 9
           the_cat_line [] _ _ _ _ Hrun).
Defined.
